(** * DamascusPlayground: pattern synthesis, instruction text and share links

    A shallow embedding of the pure core of the Damascus pattern planner
    (the page component: [generatePattern], [instructionsFromOps] and the
    [encode]/[decode] pair of the share link), with the properties of the
    design document stated and proved over it.

    Numbers.  A JavaScript [number] is an IEEE-754 double.
    [Module Binary64] runs the generator on binary64 floats: [+ - * /],
    [Math.sqrt] and [Math.abs] are the IEEE operations; [%],
    [Math.floor], [Math.max], [Math.min], [Math.pow] with base 2 and the
    store into a [Uint8ClampedArray] are computed from the sign, the
    mantissa and the exponent of their arguments; [Math.sin], which the
    language leaves to the engine, is a parameter.  The parameters of an
    operation are rationals (every finite double is one) and stand for
    the double nearest to them.

    The generator is also given on exact rationals ([Q]), with every
    operator the exact operation and [Math.sin], [Math.sqrt] parameters:
    the arithmetic the formulas of the design document are written in.
    The facts named [exact_...] hold there; they tell what the
    algorithm does before rounding and overflow.  The instruction text
    and the share link do no arithmetic on the parameters and use the
    rationals.

    The page.  [Module App] is the state of the page component (the
    stack, the operations and the two history lists) with its edits,
    undo and redo, a count being the value of its double; [Module Knob]
    and the definitions after it are the arithmetic of the knob, of the
    number fields and of the layer strip, on doubles. *)

From Stdlib Require Import ZArith QArith Qround Qabs Qminmax Lia Lqa.
From Stdlib Require Import String Ascii DecimalString Floats.
From stdpp Require Import base option list.

Local Open Scope Q_scope.

(* ===================================================================== *)
(** ** Types and materials *)

Inductive MaterialType :=
  | M1084 | M15N20 | M1095 | M80CrV2 | M52100 | M5160
  | PureNickel | WroughtIron.

Inductive Operation :=
  | addSheets (material : MaterialType) (count : Q)
  | twist (turns : Q)
  | ladder (spacing depth : Q)
  | raindrops (radius spacing : Q)
  | wfolds (folds : Q)
  | fold (times : Q)
  | stretch (factor : Q).

Record MaterialInfo := { name : string; etch : Q }.

(** Approximate etch brightness 0..1 (higher = lighter after etch). *)
Definition MATERIAL_CATALOG (m : MaterialType) : MaterialInfo :=
  match m with
  | M1084 => {| name := "1084"; etch := 15 # 100 |}
  | M15N20 => {| name := "15N20"; etch := 85 # 100 |}
  | M1095 => {| name := "1095"; etch := 12 # 100 |}
  | M80CrV2 => {| name := "80CrV2"; etch := 18 # 100 |}
  | M52100 => {| name := "52100"; etch := 2 # 10 |}
  | M5160 => {| name := "5160"; etch := 22 # 100 |}
  | PureNickel => {| name := "Pure Nickel"; etch := 95 # 100 |}
  | WroughtIron => {| name := "Wrought Iron"; etch := 35 # 100 |}
  end.

Definition MATERIALS := MATERIAL_CATALOG.

(* ===================================================================== *)
(** ** JavaScript arithmetic on exact rationals *)

Module JS.

(** Truncation toward zero, the integer quotient of [%]. *)
Definition trunc (a : Q) : Z :=
  if Qle_bool 0 a then Qfloor a else Qceiling a.

(** [a % b]: the remainder has the sign of the dividend. *)
Definition rem (a b : Q) : Q := a - b * inject_Z (trunc (a / b)).

(** [Math.pow(2, k)] for an integer [k >= 0]. *)
Definition pow2 (k : Z) : Q := inject_Z (2 ^ k).

(** The double [Math.PI], exactly. *)
Definition PI : Q := 884279719003555 # 281474976710656.

(** Storing a number into a [Uint8ClampedArray]: clamp to 0..255 and
    round to the nearest integer, ties to even. *)
Definition ToUint8Clamp (q : Q) : Z :=
  if Qle_bool q 0 then 0%Z
  else if Qle_bool 255 q then 255%Z
  else
    let f := Qfloor q in
    let d := q - inject_Z f in
    if Qle_bool d (1 # 2)
    then (if Qle_bool (1 # 2) d then (if Z.even f then f else f + 1)%Z else f)
    else (f + 1)%Z.

End JS.

(* ===================================================================== *)
(** ** Canvas *)

(** An HTML canvas after the drawing calls: its size and its RGBA bytes,
    row by row, four per pixel. *)
Record Canvas := { cwidth : nat; cheight : nat; cdata : list Z }.

Definition pixel_offset (width x y : nat) : nat := (y * width + x) * 4.

(** The four bytes of pixel [(x, y)]. *)
Definition getPixel (c : Canvas) (x y : nat) : option (Z * Z * Z * Z) :=
  let off := pixel_offset (cwidth c) x y in
  r ← cdata c !! off;
  g ← cdata c !! (off + 1)%nat;
  b ← cdata c !! (off + 2)%nat;
  a ← cdata c !! (off + 3)%nat;
  Some (r, g, b, a).

(** A fresh canvas and a fresh [ImageData] are transparent black. *)
Definition blank (width height : nat) : list Z :=
  replicate (width * height * 4) 0%Z.

(** [ctx.fillRect(x0, y0, rw, rh)] with an opaque gray fill style. *)
Definition fillRect (width height : nat) (gray : Z) (x0 y0 rw rh : nat)
    (data : list Z) : list Z :=
  imap (fun i old =>
          let p := (i / 4)%nat in
          let x := (p mod width)%nat in
          let y := (p / width)%nat in
          if (x0 <=? x)%nat && (x <? x0 + rw)%nat
             && (y0 <=? y)%nat && (y <? y0 + rh)%nat
          then (if (i mod 4 =? 3)%nat then 255%Z else gray)
          else old) data.

(** The fill style ['#111']. *)
Definition background : Z := 17.

(** The four stores [data[off] = s; data[off + 1] = s; data[off + 2] = s;
    data[off + 3] = 255], where [b] is the byte that the clamped array
    keeps for [s]. *)
Definition store_pixel (data : list Z) (off : nat) (b : Z) : list Z :=
  <[(off + 3)%nat := 255%Z]>
    (<[(off + 2)%nat := b]> (<[(off + 1)%nat := b]> (<[off := b]> data))).

(** [for (let i = 0; i < n; i++) body(i)] over a state that an
    exception ([None]) abandons. *)
Definition for_loop {S : Type} (n : nat) (body : nat -> S -> option S)
    (s : S) : option S :=
  fold_left (fun acc i => acc ≫= body i) (seq 0 n) (Some s).

(** The two loops of [generatePattern] over a fresh [ImageData], where
    [px x y] is the byte computed for pixel [(x, y)], or [None] when
    computing it throws. *)
Definition raster_data (px : nat -> nat -> option Z) (width height : nat)
  : option (list Z) :=
  for_loop height (fun y =>
    for_loop width (fun x data =>
      b ← px x y;
      Some (store_pixel data (pixel_offset width x y) b)))
    (blank width height).

(* ===================================================================== *)
(** ** The pattern generator on exact rationals *)

Section PatternGenerator.

(** [Math.sin] and [Math.sqrt] of the engine. *)
Variable Math_sin : Q -> Q.
Variable Math_sqrt : Q -> Q.

(** One step of the [for (const op of ops)] loop on the working
    coordinates [(uu, vv)]; [repeats] is [layers.length]. *)
Definition apply_op (repeats : nat) (st : Q * Q) (op : Operation) : Q * Q :=
  let '(uu, vv) := st in
  match op with
  | twist turns =>
      (uu, vv + (Math_sin (uu * JS.PI * 2 * turns) * (1 # 2))
                / Qmax 1 (inject_Z (Z.of_nat repeats)))
  | ladder spacing depth =>
      let t := JS.rem (uu / Qmax (1 # 10000) spacing) 1 in
      let tri := 1 - Qabs ((1 # 2) - t) * 2 in
      (uu, vv - tri * (1 # 4) * depth)
  | raindrops radius spacing =>
      let cx := inject_Z (Qfloor (uu / Qmax (1 # 10000) spacing)) in
      let cy := inject_Z (Qfloor (vv / Qmax (1 # 10000) spacing)) in
      let dx := uu - cx * spacing - spacing * (1 # 2) in
      let dy := vv - cy * spacing - spacing * (1 # 2) in
      let d := Math_sqrt (dx * dx + dy * dy) in
      let influence := Qmax 0 (1 - d / Qmax (1 # 10000) radius) in
      (uu, vv - influence * (15 # 100))
  | wfolds folds =>
      let w := folds in
      let saw := JS.rem (uu * w) 1 - (1 # 2) in
      (uu, Qabs (vv + saw * (1 # 2)))
  | fold times =>
      (uu, vv * JS.pow2 (Z.max 0 (Qfloor times)))
  | stretch factor =>
      (uu * factor, vv)
  | addSheets _ _ => (uu, vv)
  end.

Definition run_ops (repeats : nat) (ops : list Operation) (st : Q * Q)
  : Q * Q :=
  fold_left (apply_op repeats) ops st.

(** [vv = ((vv % 1) + 1) % 1]. *)
Definition wrap (vv : Q) : Q := JS.rem (JS.rem vv 1 + 1) 1.

(** The working coordinates of pixel [(x, y)] after all operations. *)
Definition coords (repeats : nat) (ops : list Operation)
    (width height x y : nat) : Q * Q :=
  let u := inject_Z (Z.of_nat x) / inject_Z (Z.of_nat width) in
  let v := inject_Z (Z.of_nat y) / inject_Z (Z.of_nat height) in
  run_ops repeats ops (u, v).

(** [idx = Math.floor(vv * repeats)] after the wrap. *)
Definition layer_index (layers : list MaterialType) (ops : list Operation)
    (width height x y : nat) : Z :=
  let repeats := length layers in
  let vv := wrap (snd (coords repeats ops width height x y)) in
  Qfloor (vv * inject_Z (Z.of_nat repeats)).

(** [layers[idx]]: [undefined] (here [None]) outside the array. *)
Definition layer_at (layers : list MaterialType) (idx : Z)
  : option MaterialType :=
  if (idx <? 0)%Z then None else layers !! Z.to_nat idx.

(** The brightness stored for a material. *)
Definition shade (m : MaterialType) : Q :=
  Qmax 0 (Qmin 1 (etch (MATERIALS m))) * 255.

(** The value [s] of pixel [(x, y)]; [None] is the [TypeError] of
    [mat.etch] when [layers[idx]] is [undefined]. *)
Definition pixel_shade (layers : list MaterialType) (ops : list Operation)
    (width height x y : nat) : option Q :=
  m ← layer_at layers (layer_index layers ops width height x y);
  Some (shade m).

(** The byte stored for pixel [(x, y)]. *)
Definition pixel_byte (layers : list MaterialType) (ops : list Operation)
    (width height x y : nat) : option Z :=
  s ← pixel_shade layers ops width height x y;
  Some (JS.ToUint8Clamp s).

(** The byte of a pixel as a total function, 0 where the lookup fails. *)
Definition byte_at (layers : list MaterialType) (ops : list Operation)
    (width height x y : nat) : Z :=
  default 0%Z (pixel_byte layers ops width height x y).

Definition pattern_data (layers : list MaterialType) (ops : list Operation)
    (width height : nat) : option (list Z) :=
  raster_data (pixel_byte layers ops width height) width height.

(** [generatePattern(layers, ops, width, height)].  [has_ctx] tells
    whether [canvas.getContext('2d')] yields a context; the result is
    [None] when the function throws. *)
Definition generatePattern (has_ctx : bool) (layers : list MaterialType)
    (ops : list Operation) (width height : nat) : option Canvas :=
  if negb has_ctx then
    Some {| cwidth := width; cheight := height;
            cdata := blank width height |}
  else
    match layers with
    | [] =>
        Some {| cwidth := width; cheight := height;
                cdata := fillRect width height background 0 0 width height
                           (blank width height) |}
    | _ =>
        data ← pattern_data layers ops width height;
        Some {| cwidth := width; cheight := height; cdata := data |}
    end.

End PatternGenerator.

(* ===================================================================== *)
(** ** The pattern generator on IEEE-754 doubles *)

Module Binary64.

(** The double nearest to [z * 2^e]. *)
Definition scaled (z e : Z) (negative_zero : bool) : float :=
  SF2Prim (binary_normalize prec emax z e negative_zero).

Definition of_Z (z : Z) : float := scaled z 0 false.

(** The loop counters, the sizes and [layers.length] as numbers. *)
Definition of_nat (n : nat) : float := of_Z (Z.of_nat n).

(** The double nearest to a rational: the number that a decimal literal
    of the source or a number of a recipe denotes. *)
Definition lit (q : Q) : float :=
  match Qnum q with
  | Z0 => PrimFloat.zero
  | Zpos n =>
      let '(m, e, l) :=
        SFdiv_core_binary prec emax (Zpos n) 0 (Zpos (Qden q)) 0 in
      SF2Prim (binary_round_aux prec emax false m e l)
  | Zneg n =>
      let '(m, e, l) :=
        SFdiv_core_binary prec emax (Zpos n) 0 (Zpos (Qden q)) 0 in
      SF2Prim (binary_round_aux prec emax true m e l)
  end.

(** The exact value of a finite double. *)
Definition to_Q (x : float) : option Q :=
  match Prim2SF x with
  | S754_zero _ => Some 0
  | S754_finite s m e =>
      let v := if s then Zneg m else Zpos m in
      Some (if (0 <=? e)%Z then inject_Z (v * 2 ^ e)
            else Qmake v (Z.to_pos (2 ^ (- e))))
  | _ => None
  end.

(** [x % y]: exact, with the sign of the dividend; [NaN] for an infinite
    dividend or a zero divisor. *)
Definition rem (x y : float) : float :=
  match Prim2SF x, Prim2SF y with
  | S754_nan, _ | _, S754_nan => PrimFloat.nan
  | S754_infinity _, _ => PrimFloat.nan
  | _, S754_zero _ => PrimFloat.nan
  | S754_zero _, _ => x
  | S754_finite _ _ _, S754_infinity _ => x
  | S754_finite sx mx ex, S754_finite _ my ey =>
      let e := Z.min ex ey in
      let a := (Zpos mx * 2 ^ (ex - e))%Z in
      let b := (Zpos my * 2 ^ (ey - e))%Z in
      let r := (a mod b)%Z in
      scaled (if sx then (- r)%Z else r) e sx
  end.

(** The integer below a finite double; [None] for [NaN] and the
    infinities. *)
Definition floorZ (x : float) : option Z :=
  match Prim2SF x with
  | S754_zero _ => Some 0%Z
  | S754_finite s m e =>
      let v := if s then Zneg m else Zpos m in
      Some (if (0 <=? e)%Z then (v * 2 ^ e)%Z else (v / 2 ^ (- e))%Z)
  | _ => None
  end.

(** [Math.floor]. *)
Definition Math_floor (x : float) : float :=
  match Prim2SF x with
  | S754_finite _ _ _ => default x (of_Z <$> floorZ x)
  | _ => x
  end.

Definition Math_max (a b : float) : float :=
  if PrimFloat.is_nan a || PrimFloat.is_nan b then PrimFloat.nan
  else if PrimFloat.ltb a b then b
  else if PrimFloat.ltb b a then a
  else if PrimFloat.get_sign a then b else a.

Definition Math_min (a b : float) : float :=
  if PrimFloat.is_nan a || PrimFloat.is_nan b then PrimFloat.nan
  else if PrimFloat.ltb a b then a
  else if PrimFloat.ltb b a then b
  else if PrimFloat.get_sign a then a else b.

(** [Math.round]: the nearest integer, a tie towards +Infinity; a zero
    result keeps the sign of the argument. *)
Definition Math_round (x : float) : float :=
  match Prim2SF x, to_Q x with
  | S754_finite s _ _, Some q =>
      let z := Qfloor (q + (1 # 2)) in
      if (z =? 0)%Z then (if s then PrimFloat.neg_zero else PrimFloat.zero)
      else of_Z z
  | _, _ => x
  end.

(** [Math.pow(2, k)] for a [k] that [Math.floor] returned. *)
Definition pow2 (k : float) : float :=
  match floorZ k with
  | Some z => scaled 1 z false
  | None =>
      if PrimFloat.is_nan k then PrimFloat.nan
      else if PrimFloat.ltb PrimFloat.zero k then PrimFloat.infinity
      else PrimFloat.zero
  end.

(** The double [Math.PI]. *)
Definition PI : float := lit JS.PI.

(** Storing a number into a [Uint8ClampedArray]; [NaN] is stored as 0. *)
Definition ToUint8Clamp (x : float) : Z :=
  match to_Q x with
  | Some q => JS.ToUint8Clamp q
  | None => if PrimFloat.ltb PrimFloat.zero x then 255%Z else 0%Z
  end.

Section Generator.
Local Open Scope float_scope.

(** [Math.sin] of the engine; [Math.sqrt] and [Math.abs] are the
    IEEE-754 operations. *)
Variable Math_sin : float -> float.

(** One step of the [for (const op of ops)] loop; the parameters of an
    operation are the doubles that their numerals denote. *)
Definition apply_op (repeats : nat) (st : float * float) (op : Operation)
  : float * float :=
  let '(uu, vv) := st in
  match op with
  | twist turns =>
      (uu, vv + (Math_sin (uu * PI * 2 * lit turns) * 0.5)
                / Math_max 1 (of_nat repeats))
  | ladder spacing depth =>
      let t := rem (uu / Math_max (lit (1 # 10000)) (lit spacing)) 1 in
      let tri := 1 - PrimFloat.abs (0.5 - t) * 2 in
      (uu, vv - tri * 0.25 * lit depth)
  | raindrops radius spacing =>
      let cx := Math_floor (uu / Math_max (lit (1 # 10000)) (lit spacing)) in
      let cy := Math_floor (vv / Math_max (lit (1 # 10000)) (lit spacing)) in
      let dx := uu - cx * lit spacing - lit spacing * 0.5 in
      let dy := vv - cy * lit spacing - lit spacing * 0.5 in
      let d := PrimFloat.sqrt (dx * dx + dy * dy) in
      let influence :=
        Math_max 0 (1 - d / Math_max (lit (1 # 10000)) (lit radius)) in
      (uu, vv - influence * lit (15 # 100))
  | wfolds folds =>
      let w := lit folds in
      let saw := rem (uu * w) 1 - 0.5 in
      (uu, PrimFloat.abs (vv + saw * 0.5))
  | fold times =>
      (uu, vv * pow2 (Math_max 0 (Math_floor (lit times))))
  | stretch factor =>
      (uu * lit factor, vv)
  | addSheets _ _ => (uu, vv)
  end.

Definition run_ops (repeats : nat) (ops : list Operation)
    (st : float * float) : float * float :=
  fold_left (apply_op repeats) ops st.

(** [vv = ((vv % 1) + 1) % 1]. *)
Definition wrap (vv : float) : float := rem (rem vv 1 + 1) 1.

Definition coords (repeats : nat) (ops : list Operation)
    (width height x y : nat) : float * float :=
  let u := of_nat x / of_nat width in
  let v := of_nat y / of_nat height in
  run_ops repeats ops (u, v).

(** [idx = Math.floor(vv * repeats)] after the wrap. *)
Definition layer_index (layers : list MaterialType) (ops : list Operation)
    (width height x y : nat) : float :=
  let repeats := length layers in
  let vv := wrap (snd (coords repeats ops width height x y)) in
  Math_floor (vv * of_nat repeats).

(** [layers[idx]]: the element when [idx] is an integer within the
    array, [undefined] (here [None]) otherwise, in particular for [NaN]. *)
Definition layer_at (layers : list MaterialType) (idx : float)
  : option MaterialType :=
  z ← floorZ idx;
  if (z <? 0)%Z then None else layers !! Z.to_nat z.

Definition shade (m : MaterialType) : float :=
  Math_max 0 (Math_min 1 (lit (etch (MATERIALS m)))) * 255.

(** The byte stored for pixel [(x, y)]; [None] is the [TypeError] of
    [mat.etch] when [layers[idx]] is [undefined]. *)
Definition pixel_byte (layers : list MaterialType) (ops : list Operation)
    (width height x y : nat) : option Z :=
  m ← layer_at layers (layer_index layers ops width height x y);
  Some (ToUint8Clamp (shade m)).

Definition byte_at (layers : list MaterialType) (ops : list Operation)
    (width height x y : nat) : Z :=
  default 0%Z (pixel_byte layers ops width height x y).

Definition pattern_data (layers : list MaterialType) (ops : list Operation)
    (width height : nat) : option (list Z) :=
  raster_data (pixel_byte layers ops width height) width height.

(** [generatePattern(layers, ops, width, height)]. *)
Definition generatePattern (has_ctx : bool) (layers : list MaterialType)
    (ops : list Operation) (width height : nat) : option Canvas :=
  if negb has_ctx then
    Some {| cwidth := width; cheight := height;
            cdata := blank width height |}
  else
    match layers with
    | [] =>
        Some {| cwidth := width; cheight := height;
                cdata := fillRect width height background 0 0 width height
                           (blank width height) |}
    | _ =>
        data ← pattern_data layers ops width height;
        Some {| cwidth := width; cheight := height; cdata := data |}
    end.

End Generator.

(** A sine for the examples: the cubic Taylor polynomial. *)
Definition sample_sin (x : float) : float :=
  PrimFloat.sub x (PrimFloat.div (PrimFloat.mul (PrimFloat.mul x x) x) 6%float).

End Binary64.

(* ===================================================================== *)
(** ** The knob and the number fields *)

Module Knob.
Import Binary64.
Local Open Scope float_scope.
Section Knob.
(** The props [min], [max] and [step]. *)
Variables min max step : float.

(** [angleFromValue(v)]: the angle of the needle, in degrees. *)
Definition angleFromValue (v : float) : float :=
  let t := (v - min) / (max - min) in
  -140 + t * 280.

(** [valueFromAngle(a)]: the value under the pointer. *)
Definition valueFromAngle (a : float) : float :=
  let t := (a + 140) / 280 in
  let raw := min + t * (max - min) in
  let snapped := Math_round (raw / step) * step in
  Math_min max (Math_max min snapped).
End Knob.
End Knob.

(** The twist editor stores [Math.max(0, Math.min(2, deg / 360))] and
    shows [Math.round(op.turns * 360)]. *)
Definition turns_of_degrees (deg : float) : float :=
  Binary64.Math_max 0 (Binary64.Math_min 2 (PrimFloat.div deg 360)).

Definition degrees_shown (turns : float) : float :=
  Binary64.Math_round (PrimFloat.mul turns 360).

(** The count field of the palette:
    [Math.max(1, Math.min(500, Number(e.target.value)))]. *)
Definition count_of_input (value : float) : float :=
  Binary64.Math_max 1 (Binary64.Math_min 500 value).

(** The swatch of a layer in [LayerStrip]:
    [Math.round(MATERIALS[m].etch * 255)]. *)
Definition strip_gray (m : MaterialType) : float :=
  Binary64.Math_round (PrimFloat.mul (Binary64.lit (etch (MATERIALS m))) 255).

(* ===================================================================== *)
(** ** Numbers as text *)

Module Text.
Local Open Scope string_scope.

(** The decimal digits of a non-negative integer. *)
Definition digits (z : Z) : string :=
  NilZero.string_of_uint (N.to_uint (Z.to_N z)).

Fixpoint zeros (n : nat) : string :=
  match n with O => EmptyString | S n' => String "0" (zeros n') end.

(** Rounding to the nearest integer, ties to even. *)
Definition round_half_even (q : Q) : Z :=
  let f := Qfloor q in
  let d := (q - inject_Z f)%Q in
  if Qle_bool d (1 # 2)
  then (if Qle_bool (1 # 2) d then (if Z.even f then f else f + 1)%Z else f)
  else (f + 1)%Z.

(** [Math.round]: the nearest integer, ties upward. *)
Definition Math_round (q : Q) : Z := Qfloor (q + (1 # 2)).

(** For [0 < q < 1], the [n <= 0] with [10^(n-1) <= q < 10^n]. *)
Fixpoint small_exponent (fuel : nat) (q : Q) : Z :=
  match fuel with
  | O => 0
  | S fuel' =>
      if Qle_bool (1 # 10) q then 0%Z
      else (small_exponent fuel' (q * 10) - 1)%Z
  end.

(** For [0 < q], the [n] with [10^(n-1) <= q < 10^n]. *)
Definition decimal_exponent (q : Q) : Z :=
  if Qle_bool 1 q then Z.of_nat (String.length (digits (Qfloor q)))
  else small_exponent (S (Pos.size_nat (Qden q))) q.

Fixpoint strip_zeros (fuel : nat) (s : Z) : Z :=
  match fuel with
  | O => s
  | S fuel' =>
      if ((s mod 10 =? 0) && negb (s =? 0))%Z then strip_zeros fuel' (s / 10) else s
  end.

(** The digits [s] and the exponent [n] of [Number::toString]:
    [q] is [0.s * 10^n], with at most 17 significant digits. *)
Definition significand (q : Q) : Z * Z :=
  let n := decimal_exponent q in
  let s := round_half_even (q * (10 ^ (17 - n))%Q) in
  if (s =? 10 ^ 17)%Z then (1%Z, (n + 1)%Z) else (strip_zeros 17 s, n).

Definition take (n : nat) (s : string) : string := substring 0 n s.
Definition drop (n : nat) (s : string) : string :=
  substring n (String.length s - n) s.

(** [Number::toString] of a positive number. *)
Definition positive_toString (q : Q) : string :=
  let '(s, n) := significand q in
  let ds := digits s in
  let k := Z.of_nat (String.length ds) in
  if ((k <=? n) && (n <=? 21))%Z then
    ds ++ zeros (Z.to_nat (n - k))
  else if ((0 <? n) && (n <=? 21))%Z then
    take (Z.to_nat n) ds ++ "." ++ drop (Z.to_nat n) ds
  else if ((-6 <? n) && (n <=? 0))%Z then
    "0." ++ zeros (Z.to_nat (- n)) ++ ds
  else
    let e := (n - 1)%Z in
    let sign := if (e <? 0)%Z then "-" else "+" in
    (if (k =? 1)%Z then ds else take 1 ds ++ "." ++ drop 1 ds)
    ++ "e" ++ sign ++ digits (Z.abs e).

(** A number in a template literal: [Number::toString], radix 10. *)
Definition Number_toString (q : Q) : string :=
  if Qeq_bool q 0 then "0"
  else if Qle_bool 0 q then positive_toString q
  else "-" ++ positive_toString (- q).

(** [x.toFixed(f)]. *)
Definition toFixed (f : nat) (q : Q) : string :=
  let sign := if Qle_bool 0 q then EmptyString else "-" in
  let x := Qabs q in
  if Qle_bool (10 ^ 21)%Q x then Number_toString q
  else
    let n := Qfloor (x * (10 ^ Z.of_nat f)%Q + (1 # 2)) in
    let m := digits n in
    let m := if (String.length m <=? f)%nat
             then zeros (f + 1 - String.length m) ++ m else m in
    let k := String.length m in
    sign ++ (if (f =? 0)%nat then m
             else take (k - f) m ++ "." ++ drop (k - f) m).

(** [s.includes(t)]. *)
Definition includes (s t : string) : bool :=
  match String.index 0 t s with Some _ => true | None => false end.

Definition lower (c : ascii) : ascii :=
  let n := nat_of_ascii c in
  if ((65 <=? n) && (n <=? 90))%nat then ascii_of_nat (n + 32) else c.

(** [s.toLowerCase()] on the letters A-Z. *)
Fixpoint toLowerCase (s : string) : string :=
  match s with
  | EmptyString => EmptyString
  | String c s' => String (lower c) (toLowerCase s')
  end.

(** [lines.join(sep)]. *)
Fixpoint join (sep : string) (lines : list string) : string :=
  match lines with
  | [] => EmptyString
  | [l] => l
  | l :: rest => l ++ sep ++ join sep rest
  end.
End Text.

(* ===================================================================== *)
(** ** Instruction text *)

Section Instructions.
Import Text.
Local Open Scope string_scope.

(** The line [instructionsFromOps] pushes for one operation. *)
Definition instruction_line (op : Operation) : string :=
  match op with
  | addSheets material count =>
      "Stack " ++ Number_toString count ++ " sheet(s) of "
        ++ name (MATERIALS material) ++ "."
  | twist turns =>
      "Twist billet ~" ++ Number_toString turns ++ " full turn(s)."
  | ladder spacing depth =>
      "Ladder grind: spacing " ++ Number_toString spacing ++ ", depth "
        ++ Number_toString depth ++ "."
  | raindrops radius spacing =>
      "Raindrop punch: r " ++ Number_toString radius ++ ", spacing "
        ++ Number_toString spacing ++ "."
  | wfolds folds =>
      "W-pattern: " ++ Number_toString folds ++ " folds."
  | fold times =>
      "Fold billet " ++ Number_toString times
        ++ "× (approx doubles layer count each fold)."
  | stretch factor =>
      "Draw out ×" ++ Number_toString factor ++ "."
  end.

Definition instructionsFromOps (ops : list Operation) : list string :=
  fold_left (fun lines op => app lines [instruction_line op]) ops [].

(** The live sentence of the operation editor, [previewLine]. *)
Definition previewLine (op : Operation) : string :=
  match op with
  | twist turns =>
      "Twist billet ~" ++ toFixed 2 turns ++ " turn(s) ("
        ++ Number_toString (inject_Z (Math_round (turns * 360))) ++ "°)."
  | ladder spacing depth =>
      "Ladder grind — spacing " ++ toFixed 2 spacing ++ ", depth "
        ++ toFixed 2 depth ++ "."
  | raindrops radius spacing =>
      "Raindrop — radius " ++ toFixed 3 radius ++ ", spacing "
        ++ toFixed 3 spacing ++ "."
  | wfolds folds =>
      "W-pattern seed — " ++ Number_toString folds ++ " folds."
  | fold times =>
      "Fold billet ×" ++ Number_toString times ++ " (≈ ×"
        ++ Number_toString (JS.pow2 (Z.max 0 (Qfloor times))) ++ " layers)."
  | stretch factor =>
      "Draw out ×" ++ toFixed 2 factor ++ " (compresses pattern along length)."
  | addSheets _ _ => EmptyString
  end.
End Instructions.

(* ===================================================================== *)
(** ** The platform's text functions *)

(** A JavaScript string is a sequence of 16-bit code units.  The
    functions below follow ECMAScript ([encodeURIComponent],
    [decodeURIComponent], [escape], [unescape]) and the HTML and URL
    standards ([btoa], [atob], [URLSearchParams]); [None] is a thrown
    exception. *)
Module Web.
Local Open Scope N_scope.

Definition of_string (s : string) : list N :=
  map N_of_ascii (list_ascii_of_string s).

Definition between (lo hi c : N) : bool := (lo <=? c) && (c <=? hi).
Definition is_digit (c : N) : bool := between 48 57 c.
Definition is_upper (c : N) : bool := between 65 90 c.
Definition is_lower (c : N) : bool := between 97 122 c.
Definition is_alnum (c : N) : bool := is_digit c || is_upper c || is_lower c.
Definition one_of (s : string) (c : N) : bool :=
  existsb (N.eqb c) (of_string s).

(** *** Hexadecimal and percent escapes *)

Definition hex_digit (d : N) : N := if d <? 10 then 48 + d else 55 + d.

Definition hex_value (c : N) : option N :=
  if is_digit c then Some (c - 48)
  else if between 65 70 c then Some (c - 55)
  else if between 97 102 c then Some (c - 87)
  else None.

Definition hex_pair (h l : N) : option N :=
  hv ← hex_value h; lv ← hex_value l; Some (hv * 16 + lv).

(** ["%XX"], upper case. *)
Definition percent (b : N) : list N :=
  [37; hex_digit (b / 16); hex_digit (b mod 16)].

(** *** UTF-8 and UTF-16 *)

Definition is_high_surrogate (c : N) : bool := between 55296 56319 c.
Definition is_low_surrogate (c : N) : bool := between 56320 57343 c.

Definition utf8_encode (cp : N) : list N :=
  if cp <? 128 then [cp]
  else if cp <? 2048 then [192 + cp / 64; 128 + cp mod 64]
  else if cp <? 65536 then
    [224 + cp / 4096; 128 + (cp / 64) mod 64; 128 + cp mod 64]
  else
    [240 + cp / 262144; 128 + (cp / 4096) mod 64;
     128 + (cp / 64) mod 64; 128 + cp mod 64].

Definition utf16_encode (cp : N) : list N :=
  if cp <? 65536 then [cp]
  else [55296 + (cp - 65536) / 1024; 56320 + (cp - 65536) mod 1024].

Definition surrogate_pair (hi lo : N) : N :=
  65536 + (hi - 55296) * 1024 + (lo - 56320).

(** *** [encodeURIComponent] *)

Definition uri_unreserved (c : N) : bool :=
  is_alnum c || one_of "-_.!~*'()" c.

(** [skip] counts the code units already consumed as the second half
    of a surrogate pair. *)
Fixpoint encode_from (skip : nat) (s : list N) : option (list N) :=
  match s with
  | [] => Some []
  | c :: r =>
      match skip with
      | S k => encode_from k r
      | O =>
          if uri_unreserved c then cons c <$> encode_from 0 r
          else if is_low_surrogate c then None
          else if is_high_surrogate c then
            match r with
            | d :: _ =>
                if is_low_surrogate d
                then app (flat_map percent (utf8_encode (surrogate_pair c d)))
                       <$> encode_from 1 r
                else None
            | [] => None
            end
          else app (flat_map percent (utf8_encode c)) <$> encode_from 0 r
      end
  end.

Definition encodeURIComponent (s : list N) : option (list N) :=
  encode_from 0 s.

(** *** [unescape] and [escape] *)

(** The escape at the head of [s], as the code unit it stands for and
    the number of code units that follow the ['%']. *)
Definition unescape_head (s : list N) : option (N * nat) :=
  match s with
  | c :: r =>
      if c =? 37 then
        match r with
        | u :: a :: b :: c' :: d :: _ =>
            if u =? 117 then
              hi ← hex_pair a b; lo ← hex_pair c' d; Some (hi * 256 + lo, 5%nat)
            else v ← hex_pair u a; Some (v, 2%nat)
        | u :: a :: _ => v ← hex_pair u a; Some (v, 2%nat)
        | _ => None
        end
      else None
  | [] => None
  end.

Fixpoint unescape_from (skip : nat) (s : list N) : list N :=
  match s with
  | [] => []
  | c :: r =>
      match skip with
      | S k => unescape_from k r
      | O =>
          match unescape_head (c :: r) with
          | Some (v, n) => v :: unescape_from n r
          | None => c :: unescape_from 0 r
          end
      end
  end.

Definition unescape (s : list N) : list N := unescape_from 0 s.

Definition escape_unreserved (c : N) : bool :=
  is_alnum c || one_of "@*_+-./" c.

Definition escape_unit (c : N) : list N :=
  if escape_unreserved c then [c]
  else if c <? 256 then percent c
  else [37; 117; hex_digit (c / 4096); hex_digit ((c / 256) mod 16);
        hex_digit ((c / 16) mod 16); hex_digit (c mod 16)].

Definition escape (s : list N) : list N := flat_map escape_unit s.

(** *** [decodeURIComponent] *)

(** The octet of ["%XX"] at the head of [s], and what follows it. *)
Definition read_percent (s : list N) : option (N * list N) :=
  match s with
  | c :: a :: b :: r => if c =? 37 then v ← hex_pair a b; Some (v, r) else None
  | _ => None
  end.

(** A continuation octet ["%XX"] with [10xxxxxx]: its six bits. *)
Definition read_continuation (s : list N) : option (N * list N) :=
  '(b, r) ← read_percent s;
  if between 128 191 b then Some (b - 128, r) else None.

(** The code point escaped at the head of [s] and the number of code
    units of the escape; [None] is the [URIError]. *)
Definition decode_head (s : list N) : option (N * nat) :=
  '(b, r) ← read_percent s;
  if b <? 128 then Some (b, 3%nat)
  else if b <? 192 then None
  else if b <? 224 then
    '(c1, _) ← read_continuation r;
    let cp := (b - 192) * 64 + c1 in
    if cp <? 128 then None else Some (cp, 6%nat)
  else if b <? 240 then
    '(c1, r1) ← read_continuation r;
    '(c2, _) ← read_continuation r1;
    let cp := (b - 224) * 4096 + c1 * 64 + c2 in
    if (cp <? 2048) || between 55296 57343 cp then None
    else Some (cp, 9%nat)
  else if b <? 248 then
    '(c1, r1) ← read_continuation r;
    '(c2, r2) ← read_continuation r1;
    '(c3, _) ← read_continuation r2;
    let cp := (b - 240) * 262144 + c1 * 4096 + c2 * 64 + c3 in
    if (cp <? 65536) || (1114111 <? cp) then None
    else Some (cp, 12%nat)
  else None.

Fixpoint decode_from (skip : nat) (s : list N) : option (list N) :=
  match s with
  | [] => Some []
  | c :: r =>
      match skip with
      | S k => decode_from k r
      | O =>
          if c =? 37 then
            match decode_head (c :: r) with
            | Some (cp, n) => app (utf16_encode cp) <$> decode_from (n - 1) r
            | None => None
            end
          else cons c <$> decode_from 0 r
      end
  end.

Definition decodeURIComponent (s : list N) : option (list N) :=
  decode_from 0 s.

(** *** [btoa] and [atob] *)

Definition base64_char (v : N) : N :=
  if v <? 26 then 65 + v
  else if v <? 52 then 97 + (v - 26)
  else if v <? 62 then 48 + (v - 52)
  else if v =? 62 then 43 else 47.

Definition base64_value (c : N) : option N :=
  if is_upper c then Some (c - 65)
  else if is_lower c then Some (c - 97 + 26)
  else if is_digit c then Some (c - 48 + 52)
  else if c =? 43 then Some 62
  else if c =? 47 then Some 63
  else None.

(** The six-bit groups of a sequence of octets, the last one filled
    with zero bits. *)
Fixpoint sextets (bytes : list N) : list N :=
  match bytes with
  | [] => []
  | [a] => [a / 4; (a mod 4) * 16]
  | [a; b] => [a / 4; (a mod 4) * 16 + b / 16; (b mod 16) * 4]
  | a :: b :: c :: rest =>
      a / 4 :: (a mod 4) * 16 + b / 16 :: (b mod 16) * 4 + c / 64 :: c mod 64
        :: sextets rest
  end.

Definition base64_padding (n : nat) : list N :=
  match (n mod 3)%nat with
  | 0%nat => []
  | 1%nat => [61; 61]
  | _ => [61]
  end.

Definition base64_encode (bytes : list N) : list N :=
  map base64_char (sextets bytes) ++ base64_padding (length bytes).

(** [btoa(s)]: an [InvalidCharacterError] above U+00FF. *)
Definition btoa (s : list N) : option (list N) :=
  if forallb (fun c => c <? 256) s then Some (base64_encode s) else None.

Fixpoint base64_decode (vals : list N) : list N :=
  match vals with
  | a :: b :: c :: d :: rest =>
      (a * 4 + b / 16) :: ((b mod 16) * 16 + c / 4) :: ((c mod 4) * 64 + d)
        :: base64_decode rest
  | [a; b; c] => [a * 4 + b / 16; (b mod 16) * 16 + c / 4]
  | [a; b] => [a * 4 + b / 16]
  | _ => []
  end.

Definition is_ascii_whitespace (c : N) : bool :=
  (c =? 9) || (c =? 10) || (c =? 12) || (c =? 13) || (c =? 32).

Definition strip_padding (s : list N) : list N :=
  if (length s mod 4 =? 0)%nat then
    match rev s with
    | a :: r =>
        if a =? 61 then
          match r with
          | b :: r' => if b =? 61 then rev r' else rev r
          | [] => rev r
          end
        else s
    | [] => s
    end
  else s.

(** [atob(s)]: the forgiving Base64 decoding; [None] is the
    [InvalidCharacterError]. *)
Definition atob (s : list N) : option (list N) :=
  let data := filter (fun c => is_ascii_whitespace c = false) s in
  let data := strip_padding data in
  if (length data mod 4 =? 1)%nat then None
  else vals ← mapM base64_value data; Some (base64_decode vals).

(** *** [URLSearchParams] *)

(** The UTF-8 octets of a string, a lone surrogate read as U+FFFD. *)
Fixpoint usv_utf8_from (skip : nat) (s : list N) : list N :=
  match s with
  | [] => []
  | c :: r =>
      match skip with
      | S k => usv_utf8_from k r
      | O =>
          if is_high_surrogate c then
            match r with
            | d :: _ =>
                if is_low_surrogate d
                then utf8_encode (surrogate_pair c d) ++ usv_utf8_from 1 r
                else utf8_encode 65533 ++ usv_utf8_from 0 r
            | [] => utf8_encode 65533
            end
          else if is_low_surrogate c then utf8_encode 65533 ++ usv_utf8_from 0 r
          else utf8_encode c ++ usv_utf8_from 0 r
      end
  end.

Definition usv_utf8 (s : list N) : list N := usv_utf8_from 0 s.

(** Percent-decoding of octets: a ['%'] that two hexadecimal digits do
    not follow stands for itself. *)
Fixpoint percent_decode_from (skip : nat) (s : list N) : list N :=
  match s with
  | [] => []
  | c :: r =>
      match skip with
      | S k => percent_decode_from k r
      | O =>
          match read_percent (c :: r) with
          | Some (v, _) => v :: percent_decode_from 2 r
          | None => c :: percent_decode_from 0 r
          end
      end
  end.

Definition percent_decode (s : list N) : list N := percent_decode_from 0 s.

(** The state of the UTF-8 decoder of the Encoding standard. *)
Record utf8_state := {
  u_code_point : N; u_needed : N; u_seen : N; u_lower : N; u_upper : N }.

Definition utf8_start : utf8_state :=
  {| u_code_point := 0; u_needed := 0; u_seen := 0;
     u_lower := 128; u_upper := 191 |}.

(** A lead octet: what it emits and the state it leaves. *)
Definition utf8_lead (b : N) : list N * utf8_state :=
  if b <? 128 then ([b], utf8_start)
  else if between 194 223 b then
    ([], {| u_code_point := b mod 32; u_needed := 1; u_seen := 0;
            u_lower := 128; u_upper := 191 |})
  else if between 224 239 b then
    ([], {| u_code_point := b mod 16; u_needed := 2; u_seen := 0;
            u_lower := if b =? 224 then 160 else 128;
            u_upper := if b =? 237 then 159 else 191 |})
  else if between 240 244 b then
    ([], {| u_code_point := b mod 8; u_needed := 3; u_seen := 0;
            u_lower := if b =? 240 then 144 else 128;
            u_upper := if b =? 244 then 143 else 191 |})
  else ([65533], utf8_start).

Definition utf8_step (st : utf8_state) (b : N) : list N * utf8_state :=
  if u_needed st =? 0 then utf8_lead b
  else if negb (between (u_lower st) (u_upper st) b) then
    let '(out, st') := utf8_lead b in (65533 :: out, st')
  else
    let cp := u_code_point st * 64 + b mod 64 in
    if u_seen st + 1 =? u_needed st then (utf16_encode cp, utf8_start)
    else ([], {| u_code_point := cp; u_needed := u_needed st;
                 u_seen := u_seen st + 1; u_lower := 128; u_upper := 191 |}).

Fixpoint utf8_decode_from (st : utf8_state) (bytes : list N) : list N :=
  match bytes with
  | [] => if u_needed st =? 0 then [] else [65533]
  | b :: r => let '(out, st') := utf8_step st b in out ++ utf8_decode_from st' r
  end.

(** UTF-8 decode without BOM. *)
Definition utf8_decode (bytes : list N) : list N :=
  utf8_decode_from utf8_start bytes.

(** The pieces of [s] between the occurrences of [sep]. *)
Fixpoint split_on (sep : N) (s : list N) : list (list N) :=
  match s with
  | [] => [[]]
  | c :: r =>
      match split_on sep r with
      | piece :: pieces =>
          if c =? sep then [] :: piece :: pieces else (c :: piece) :: pieces
      | [] => [[c]]
      end
  end.

(** [s] cut at its first [sep], when it has one. *)
Fixpoint cut_at (sep : N) (s : list N) : option (list N * list N) :=
  match s with
  | [] => None
  | c :: r =>
      if c =? sep then Some ([], r)
      else '(a, b) ← cut_at sep r; Some (c :: a, b)
  end.

Definition plus_to_space (s : list N) : list N :=
  map (fun c => if c =? 43 then 32 else c) s.

Definition form_decode (s : list N) : list N :=
  utf8_decode (percent_decode (plus_to_space s)).

(** The [application/x-www-form-urlencoded] parser. *)
Definition urlencoded_parse (input : list N) : list (list N * list N) :=
  flat_map (fun piece =>
              match piece with
              | [] => []
              | _ =>
                  let '(n, v) := default (piece, []) (cut_at 61 piece) in
                  [(form_decode n, form_decode v)]
              end)
           (split_on 38 input).

(** [new URLSearchParams(search).get(name)]. *)
Definition URLSearchParams_get (search name : list N) : option (list N) :=
  let init := match search with
              | c :: r => if c =? 63 then r else search
              | [] => search
              end in
  snd <$> List.find (fun p => bool_decide (fst p = name))
            (urlencoded_parse (usv_utf8 init)).

(** *** Vocabulary for 7-bit text *)

(** Text of 7-bit characters, and sequences of octets. *)
Definition ascii7 (s : list N) : Prop := Forall (fun c => c < 128) s.
Definition octets (s : list N) : Prop := Forall (fun c => c < 256) s.
Definition ascii_str (s : string) : Prop := ascii7 (of_string s).

(** What [encodeURIComponent] and [escape] write for a 7-bit
    character. *)
Definition uri_unit (c : N) : list N :=
  if uri_unreserved c then [c] else percent c.
Definition escape_unit7 (c : N) : list N :=
  if escape_unreserved c then [c] else percent c.
End Web.

(* ===================================================================== *)
(** ** Recipes and share links *)

Module Share.
Import Text.
Local Open Scope string_scope.

(** The saved and shared state, [{ layers, ops }]. *)
Record Recipe := { layers : list MaterialType; ops : list Operation }.

(** The identifier of a material, a value of [MaterialType]. *)
Definition material_id (m : MaterialType) : string :=
  match m with
  | M1084 => "1084" | M15N20 => "15N20" | M1095 => "1095"
  | M80CrV2 => "80CrV2" | M52100 => "52100" | M5160 => "5160"
  | PureNickel => "PureNickel" | WroughtIron => "WroughtIron"
  end.

Definition quote : string := String (ascii_of_nat 34) EmptyString.

(** A JSON string; the identifiers written here need no escape. *)
Definition json_string (s : string) : string := quote ++ s ++ quote.

Definition json_member (key value : string) : string :=
  json_string key ++ ":" ++ value.

Definition json_object (members : list string) : string :=
  "{" ++ join "," members ++ "}".

Definition json_array (items : list string) : string :=
  "[" ++ join "," items ++ "]".

Definition json_kind (k : string) : string :=
  json_member "kind" (json_string k).

Definition json_number (key : string) (q : Q) : string :=
  json_member key (Number_toString q).

(** An operation as the page builds it: [kind] first, then its
    parameters in the order of the object literal. *)
Definition json_op (op : Operation) : string :=
  match op with
  | addSheets material count =>
      json_object [json_kind "addSheets";
                   json_member "material" (json_string (material_id material));
                   json_number "count" count]
  | twist turns => json_object [json_kind "twist"; json_number "turns" turns]
  | ladder spacing depth =>
      json_object [json_kind "ladder"; json_number "spacing" spacing;
                   json_number "depth" depth]
  | raindrops radius spacing =>
      json_object [json_kind "raindrops"; json_number "radius" radius;
                   json_number "spacing" spacing]
  | wfolds folds => json_object [json_kind "wfolds"; json_number "folds" folds]
  | fold times => json_object [json_kind "fold"; json_number "times" times]
  | stretch factor =>
      json_object [json_kind "stretch"; json_number "factor" factor]
  end.

(** [JSON.stringify({ layers, ops })]. *)
Definition JSON_stringify (r : Recipe) : string :=
  json_object
    [json_member "layers"
       (json_array (map (fun m => json_string (material_id m)) (layers r)));
     json_member "ops" (json_array (map json_op (ops r)))].

Section Links.
(** [JSON.parse], read as a recipe; [None] is its [SyntaxError]. *)
Variable JSON_parse : list N -> option Recipe.

(** [encode(obj)]. *)
Definition encode (r : Recipe) : option (list N) :=
  utf8 ← Web.encodeURIComponent (Web.of_string (JSON_stringify r));
  b64 ← Web.btoa (Web.unescape utf8);
  Web.encodeURIComponent b64.

(** [decode(s)]. *)
Definition decode (s : list N) : option Recipe :=
  bytes ← Web.atob s;
  text ← Web.decodeURIComponent (Web.escape bytes);
  JSON_parse text.

(** The query string of the link that [copyShareURL] copies. *)
Definition share_search (r : Recipe) : option (list N) :=
  token ← encode r; Some (Web.of_string "?recipe=" ++ token)%list.

(** The recipe the page reads from [location.search] when it
    loads; [None] when there is none or reading it throws. *)
Definition recipe_from_search (search : list N) : option Recipe :=
  qp ← Web.URLSearchParams_get search (Web.of_string "recipe");
  match qp with
  | []%list => None
  | _ => decode qp
  end.
End Links.
End Share.

(* ===================================================================== *)
(** ** Vocabulary of the statements *)

(** The bytes of one pixel, of one row and of a whole raster whose pixel
    [(x, y)] has the gray byte [f x y]. *)
Definition pixel_bytes (b : Z) : list Z := [b; b; b; 255%Z].

Definition row_bytes (f : nat -> nat -> Z) (width y : nat) : list Z :=
  concat (map (fun x => pixel_bytes (f x y)) (seq 0 width)).

Definition raster_bytes (f : nat -> nat -> Z) (width height : nat) : list Z :=
  concat (map (row_bytes f width) (seq 0 height)).

(** The body of the inner loop of [raster_data]. *)
Definition row_body (px : nat -> nat -> option Z) (width y x : nat)
    (data : list Z) : option (list Z) :=
  b ← px x y; Some (store_pixel data (pixel_offset width x y) b).

Definition is_addSheets (op : Operation) : bool :=
  match op with addSheets _ _ => true | _ => false end.

(** The operation list with every [addSheets] entry dropped. *)
Definition without_addSheets (ops : list Operation) : list Operation :=
  filter (fun op => is_addSheets op = false) ops.

(** The product of the [factor]s of the [stretch] operations of a list. *)
Definition stretch_product (ops : list Operation) : Q :=
  fold_right (fun op acc =>
                match op with stretch factor => factor * acc | _ => acc end)
             1 ops.

(** The triangular wave of the ladder grind at phase [t]. *)
Definition ladder_tri (t : Q) : Q := 1 - Qabs ((1 # 2) - t) * 2.

(** The pixels met going down the vertical line at [x]. *)
Definition column (c : Canvas) (x : nat) : list (option (Z * Z * Z * Z)) :=
  map (getPixel c x) (seq 0 (cheight c)).

(** The number of bands of a line of samples: its maximal runs of equal
    values. *)
Fixpoint bands {A : Type} `{EqDecision A} (l : list A) : nat :=
  match l with
  | [] => 0
  | a :: rest =>
      match rest with
      | [] => 1
      | b :: _ => if decide (a = b) then bands rest else S (bands rest)
      end
  end.

(** The quick-start billet: [pairs] times 1084 then 15N20. *)
Definition quickBase (pairs : nat) : list MaterialType :=
  concat (replicate pairs [M1084; M15N20]).

(** A rational stand-in for the engine's [Math.sin] and [Math.sqrt], to
    run the generator on concrete inputs: the first terms of the sine
    series, and one Newton step from 1 for the square root. *)
Definition sample_sin (q : Q) : Q := q - q * q * q / 6.
Definition sample_sqrt (q : Q) : Q := (1 + q) / 2.

(** A sample that alternates with the parity of a count. *)
Definition parity_px {A : Type} (even_px odd_px : A) (z : Z) : A :=
  if Z.even z then even_px else odd_px.

(** Each value of the list is the one before it, or one more. *)
Fixpoint stair (a : Z) (l : list Z) : Prop :=
  match l with
  | [] => True
  | b :: r => (b = a \/ b = (a + 1)%Z) /\ stair b r
  end.

(** The pixel of 1084 ([true]) and of 15N20 ([false]). *)
Definition band_px (dark : bool) : option (Z * Z * Z * Z) :=
  if dark then Some (38, 38, 38, 255)%Z else Some (217, 217, 217, 255)%Z.

(** A [JSON.parse] that reads back the one text it is made for. *)
Definition parse_only (r : Share.Recipe) (text : list N) : option Share.Recipe :=
  if bool_decide (text = Web.of_string (Share.JSON_stringify r)) then Some r
  else None.

Definition empty_recipe : Share.Recipe :=
  {| Share.layers := []; Share.ops := [] |}.

(** The ladder pattern of the recipe book. *)
Definition ladder_recipe : Share.Recipe :=
  {| Share.layers := quickBase 5;
     Share.ops := [fold 2; stretch (14 # 10); ladder (1 # 10) (5 # 10)] |}.

(** *** Vocabulary for the doubles *)

(** The [factor]s of the [stretch] operations of a list, in order. *)
Definition stretch_factors (ops : list Operation) : list float :=
  flat_map (fun op =>
              match op with
              | stretch factor => [Binary64.lit factor]
              | _ => []
              end) ops.

(** The ladder transform of the design document on [vv]:
    t = (uu / spacing) mod 1, tri = 1 - |0.5 - t| * 2,
    vv - tri * 0.25 * depth. *)
Definition ladder_stated (uu vv spacing depth : float) : float :=
  let t := Binary64.rem (PrimFloat.div uu spacing) 1 in
  let tri :=
    PrimFloat.sub 1 (PrimFloat.mul (PrimFloat.abs (PrimFloat.sub 0.5 t)) 2) in
  PrimFloat.sub vv (PrimFloat.mul (PrimFloat.mul tri 0.25) depth).

(** A double that is [+0] or [-0]. *)
Definition zero_float (z : float) : Prop := exists s, Prim2SF z = S754_zero s.

(** A double that is neither [NaN] nor an infinity. *)
Definition finite_float (x : float) : Prop :=
  match Prim2SF x with
  | S754_zero _ | S754_finite _ _ _ => True
  | _ => False
  end.

(** The gray byte of a material and the pixel of a gray byte. *)
Definition gray (m : MaterialType) : Z :=
  Binary64.ToUint8Clamp (Binary64.shade m).

Definition gray_px (b : Z) : option (Z * Z * Z * Z) := Some (b, b, b, 255%Z).

(** What the generator computes for row [y] of [height] rows over [n]
    layers when there is no operation. *)
Definition row_index (n height y : nat) : float :=
  Binary64.Math_floor
    (PrimFloat.mul
       (Binary64.wrap
          (PrimFloat.div (Binary64.of_nat y) (Binary64.of_nat height)))
       (Binary64.of_nat n)).

(** The index of the design document for that row,
    floor(((y / height) mod 1) * n), in exact arithmetic. *)
Definition banding_index (n height y : nat) : Z :=
  Qfloor (JS.rem (inject_Z (Z.of_nat y) / inject_Z (Z.of_nat height)) 1
          * inject_Z (Z.of_nat n)).

(** Whether the two agree on every row. *)
Definition banding_agrees (n height : nat) : bool :=
  forallb (fun y =>
             match Binary64.floorZ (row_index n height y) with
             | Some z => (z =? banding_index n height y)%Z
             | None => false
             end) (seq 0 height).

(** The heights at which the page and its load-time checks call the
    generator. *)
Definition page_heights : list nat := [8; 16; 32; 512]%nat.

(** The byte of the pixels of row [y] of the quick-start billet folded
    twice. *)
Definition fold2_row (height y : nat) : option Z :=
  Binary64.pixel_byte Binary64.sample_sin (quickBase 5) [fold 2] 1 height 0 y.

(** Whether every row of that raster renders and a vertical line of it
    shows [n] bands. *)
Definition fold2_bands (height n : nat) : bool :=
  forallb (fun y => bool_decide (is_Some (fold2_row height y))) (seq 0 height)
  && bool_decide
       (bands (map (fun y => gray_px (default 0%Z (fold2_row height y)))
                   (seq 0 height)) = n).

(* ===================================================================== *)
(** ** The state of the page *)

(** The four state variables of the page component and the functions
    that change them, one transition for each call; a state updater
    runs once, as in a production build. *)
Module App.

(** [type State = { layers; ops }], an entry of the history. *)
Record State := { s_layers : list MaterialType; s_ops : list Operation }.

Record Model := {
  layers : list MaterialType;
  ops : list Operation;
  past : list State;
  future : list State
}.

(** [snapshot()]: a copy of the current stack and operations. *)
Definition snapshot (a : Model) : State :=
  {| s_layers := layers a; s_ops := ops a |}.

(** [commit(nl, no)]; [null] is [None], and an array is never falsy. *)
Definition commit (nl : option (list MaterialType))
    (no : option (list Operation)) (a : Model) : Model :=
  {| layers := default (layers a) nl;
     ops := default (ops a) no;
     past := past a ++ [snapshot a];
     future := [] |}.

(** [undo()]: nothing with an empty [past]. *)
Definition undo (a : Model) : Model :=
  match last (past a) with
  | None => a
  | Some prev =>
      {| layers := s_layers prev;
         ops := s_ops prev;
         past := removelast (past a);
         future := snapshot a :: future a |}
  end.

(** [redo()]: nothing with an empty [future]. *)
Definition redo (a : Model) : Model :=
  match future a with
  | [] => a
  | nxt :: f =>
      {| layers := s_layers nxt;
         ops := s_ops nxt;
         past := past a ++ [snapshot a];
         future := f |}
  end.

(** [pushOp(op)]. *)
Definition pushOp (op : Operation) (a : Model) : Model :=
  commit None (Some (ops a ++ [op])) a.

(** [Array(count).fill(mat)]: [Array] throws a [RangeError] unless
    [count] is an integer from 0 to 2^32 - 1. *)
Definition Array_fill (count : Q) (mat : MaterialType)
  : option (list MaterialType) :=
  let n := Qfloor count in
  if Qeq_bool (inject_Z n) count && (0 <=? n)%Z && (n <? 2 ^ 32)%Z
  then Some (replicate (Z.to_nat n) mat)
  else None.

(** [addSheets(mat, count)]; [None] when it throws, which leaves the
    state as it is. *)
Definition addSheets (mat : MaterialType) (count : Q) (a : Model)
  : option Model :=
  sheets ← Array_fill count mat;
  Some (commit (Some (layers a ++ sheets))
               (Some (ops a ++ [addSheets mat count])) a).

(** [quickBase(pairs)]. *)
Definition quickBase (pairs : nat) (a : Model) : Model :=
  commit (Some (quickBase pairs)) (Some []) a.

(** The [Clear] button: [commit([], [])]. *)
Definition clear (a : Model) : Model := commit (Some []) (Some []) a.

(** The [dir] of [moveOp]: [-1] or [1]. *)
Inductive Dir := Up | Down.

Definition step (dir : Dir) : Z := match dir with Up => -1 | Down => 1 end.

(** [moveOp(idx, dir)], for the position [idx] of an entry.  With an
    [idx] past the end the array of the source would come to hold
    [undefined], which is no list of operations: [None]. *)
Definition moveOp (idx : nat) (dir : Dir) (a : Model) : option Model :=
  let next := ops a in
  let ni := (Z.of_nat idx + step dir)%Z in
  if (ni <? 0)%Z || (Z.of_nat (length next) <=? ni)%Z then Some a
  else
    match next !! idx, next !! Z.to_nat ni with
    | Some tmp, Some other =>
        Some (commit None
                (Some (<[Z.to_nat ni := tmp]> (<[idx := other]> next))) a)
    | _, _ => None
    end.

(** [ops.filter((_, i) => i !== idx)]. *)
Definition filter_index (idx : nat) (l : list Operation) : list Operation :=
  (filter (fun p => p.1 <> idx) (imap (fun i op => (i, op)) l)).*2.

(** [removeOp(idx)]. *)
Definition removeOp (idx : nat) (a : Model) : Model :=
  commit None (Some (filter_index idx (ops a))) a.

(** The state of the first render. *)
Definition initial : Model :=
  {| layers := []; ops := []; past := []; future := [] |}.

End App.

(** *** Vocabulary for the state of the page *)

(** The whole history in order: the past, the present, the future. *)
Definition timeline (a : App.Model) : list App.State :=
  App.past a ++ App.snapshot a :: App.future a.

(** A state without its redo list. *)
Definition core (a : App.Model)
  : list MaterialType * list Operation * list App.State :=
  (App.layers a, App.ops a, App.past a).

(** A run of [commit]s. *)
Definition commits
    (edits : list (option (list MaterialType) * option (list Operation)))
    (a : App.Model) : App.Model :=
  fold_left (fun b e => App.commit e.1 e.2 b) edits a.

(** The sheets that the stacking steps of a list record, in order. *)
Definition recorded_stack (ops : list Operation) : list MaterialType :=
  flat_map (fun op =>
              match op with
              | addSheets m count => replicate (Z.to_nat (Qfloor count)) m
              | _ => []
              end) ops.

(** A stack that is a quick-start billet followed by the sheets that
    the operations record. *)
Definition consistent (s : App.State) : Prop :=
  exists pairs : nat,
    App.s_layers s = quickBase pairs ++ recorded_stack (App.s_ops s).

(** The states that the palette, [Quick base], [Clear], the step
    buttons, undo and redo lead to from the first state. *)
Inductive reachable : App.Model -> Prop :=
  | reach_initial : reachable App.initial
  | reach_addSheets mat count a a' :
      reachable a -> App.addSheets mat count a = Some a' -> reachable a'
  | reach_quickBase pairs a : reachable a -> reachable (App.quickBase pairs a)
  | reach_clear a : reachable a -> reachable (App.clear a)
  | reach_pushOp op a :
      reachable a -> is_addSheets op = false -> reachable (App.pushOp op a)
  | reach_undo a : reachable a -> reachable (App.undo a)
  | reach_redo a : reachable a -> reachable (App.redo a).

(** The operations that act on [vv] without reading [uu], and those
    that leave [vv] alone. *)
Definition vertical (op : Operation) : bool :=
  match op with
  | fold _ | stretch _ | addSheets _ _ => true
  | _ => false
  end.

Definition keeps_vv (op : Operation) : bool :=
  match op with
  | stretch _ | addSheets _ _ => true
  | _ => false
  end.

(** [a <= b] on doubles. *)
Definition le64 (a b : float) : Prop := PrimFloat.leb a b = true.

(** Whether the twist knob, from 0 to 720 in steps of 10, reads the
    setting [10 k] back from the angle it draws for it. *)
Definition knob_reads_back (k : nat) : bool :=
  let v := Binary64.of_nat (10 * k) in
  PrimFloat.Leibniz.eqb
    (Knob.valueFromAngle 0 720 10 (Knob.angleFromValue 0 720 v)) v.

(** Whether the twist editor shows [deg] degrees again after storing
    them as turns. *)
Definition degrees_read_back (deg : nat) : bool :=
  PrimFloat.Leibniz.eqb
    (degrees_shown (turns_of_degrees (Binary64.of_nat deg)))
    (Binary64.of_nat deg).

(** The characters of the Base64 alphabet with its padding, and the
    characters a link keeps as they are: letters, digits and ['%']. *)
Definition base64_alphabet (c : N) : bool :=
  bool_decide (is_Some (Web.base64_value c)) || (c =? 61)%N.

Definition url_safe (c : N) : bool := Web.is_alnum c || (c =? 37)%N.

(* ===================================================================== *)
(** ** Facts about the arithmetic *)

Module JSFacts.

#[global] Instance trunc_proper : Proper (Qeq ==> eq) JS.trunc.
Proof.
  intros a b Hab. unfold JS.trunc. rewrite Hab.
  destruct (Qle_bool 0 b); [apply Qfloor_comp | apply Qceiling_comp]; exact Hab.
Qed.

#[global] Instance rem_proper : Proper (Qeq ==> Qeq ==> Qeq) JS.rem.
Proof.
  intros a b Hab c d Hcd. unfold JS.rem.
  assert (Ht : JS.trunc (a / c) = JS.trunc (b / d)) by (rewrite Hab, Hcd; reflexivity).
  rewrite Ht, Hab, Hcd. reflexivity.
Qed.

Lemma floor_spec (q : Q) :
  inject_Z (Qfloor q) <= q /\ q < inject_Z (Qfloor q) + 1.
Proof.
  split; [apply Qfloor_le|].
  pose proof (Qlt_floor q) as H. rewrite inject_Z_plus in H. exact H.
Qed.

Lemma ceiling_spec (q : Q) :
  q <= inject_Z (Qceiling q) /\ inject_Z (Qceiling q) - 1 < q.
Proof.
  split; [apply Qle_ceiling|].
  pose proof (Qceiling_lt q) as H.
  unfold Z.sub in H. rewrite inject_Z_plus in H. change (inject_Z (Z.opp 1)) with (Qopp 1) in H. lra.
Qed.

Lemma floor_unique (q : Q) (z : Z) :
  inject_Z z <= q -> q < inject_Z z + 1 -> Qfloor q = z.
Proof.
  intros Hlo Hhi. destruct (floor_spec q) as [Fl Fh].
  assert (H1 : inject_Z (Qfloor q) < inject_Z (z + 1)) by (rewrite inject_Z_plus; change (inject_Z 1) with 1; lra).
  assert (H2 : inject_Z z < inject_Z (Qfloor q + 1)) by (rewrite inject_Z_plus; change (inject_Z 1) with 1; lra).
  rewrite <- Zlt_Qlt in H1, H2. lia.
Qed.

Lemma trunc_nonneg (a : Q) : 0 <= a -> JS.trunc a = Qfloor a.
Proof.
  intros Ha. unfold JS.trunc. apply Qle_bool_iff in Ha. rewrite Ha. reflexivity.
Qed.

Lemma trunc_neg (a : Q) : a < 0 -> JS.trunc a = Qceiling a.
Proof.
  intros Ha. unfold JS.trunc. destruct (Qle_bool 0 a) eqn:Hb; [|reflexivity].
  apply Qle_bool_iff in Hb. lra.
Qed.

Lemma rem_one (a : Q) : JS.rem a 1 == a - inject_Z (JS.trunc a).
Proof.
  unfold JS.rem. assert (E : a / 1 == a) by field.
  rewrite E. ring.
Qed.

(** [a % 1] for a non-negative dividend is the fractional part. *)
Lemma rem_one_nonneg (a : Q) :
  0 <= a -> JS.rem a 1 == a - inject_Z (Qfloor a).
Proof. intros Ha. rewrite rem_one, (trunc_nonneg a Ha). reflexivity. Qed.

Lemma rem_one_neg (a : Q) :
  a < 0 -> JS.rem a 1 == a - inject_Z (Qceiling a).
Proof. intros Ha. rewrite rem_one, (trunc_neg a Ha). reflexivity. Qed.

(** The remainder of a division by 1 lies strictly between -1 and 1. *)
Lemma rem_one_bounds (a : Q) : -1 < JS.rem a 1 /\ JS.rem a 1 < 1.
Proof.
  destruct (Qlt_le_dec a 0) as [Hn | Hp].
  - rewrite (rem_one_neg a Hn). destruct (ceiling_spec a). lra.
  - rewrite (rem_one_nonneg a Hp). destruct (floor_spec a). lra.
Qed.

Lemma rem_one_range_nonneg (a : Q) :
  0 <= a -> 0 <= JS.rem a 1 /\ JS.rem a 1 < 1.
Proof.
  intros Hp. rewrite (rem_one_nonneg a Hp). destruct (floor_spec a). lra.
Qed.

(** [% 1] leaves a number of [0, 1) alone. *)
Lemma rem_one_id (a : Q) : 0 <= a -> a < 1 -> JS.rem a 1 == a.
Proof.
  intros H0 H1. rewrite (rem_one_nonneg a H0).
  rewrite (floor_unique a 0); change (inject_Z 0) with 0; lra.
Qed.

(** [% 1] removes one from a number of [1, 2). *)
Lemma rem_one_pred (a : Q) : 1 <= a -> a < 2 -> JS.rem a 1 == a - 1.
Proof.
  intros H0 H1. rewrite (rem_one_nonneg a) by lra.
  rewrite (floor_unique a 1); change (inject_Z 1) with 1; lra.
Qed.

End JSFacts.

Section Loops.
Context {S : Type}.
Implicit Types (body : nat -> S -> option S).

Lemma for_loop_0 body (s : S) : for_loop 0 body s = Some s.
Proof. reflexivity. Qed.

Lemma for_loop_S body (n : nat) (s : S) :
  for_loop (Datatypes.S n) body s = for_loop n body s ≫= body n.
Proof.
  unfold for_loop. rewrite seq_S, fold_left_app. reflexivity.
Qed.

Lemma for_loop_ext body1 body2 (n : nat) (s : S) :
  (forall i t, (i < n)%nat -> body1 i t = body2 i t) ->
  for_loop n body1 s = for_loop n body2 s.
Proof.
  induction n as [|n IH]; intros H; [reflexivity|].
  rewrite !for_loop_S, IH by (intros; apply H; lia).
  destruct (for_loop n body2 s); simpl; [apply H; lia | reflexivity].
Qed.
End Loops.

Lemma store_pixel_at_end (pre rest : list Z) (b : Z) :
  store_pixel (pre ++ 0%Z :: 0%Z :: 0%Z :: 0%Z :: rest) (length pre) b
  = (pre ++ pixel_bytes b) ++ rest.
Proof.
  unfold store_pixel, pixel_bytes.
  rewrite !insert_app_r_alt by (rewrite ?length_insert; lia).
  rewrite <- app_assoc. f_equal.
  replace (length pre + 3 - length pre)%nat with 3%nat by lia.
  replace (length pre + 2 - length pre)%nat with 2%nat by lia.
  replace (length pre + 1 - length pre)%nat with 1%nat by lia.
  replace (length pre - length pre)%nat with 0%nat by lia.
  reflexivity.
Qed.

Section RasterLoops.
Variable sh : nat -> nat -> option Z.
Variable f : nat -> nat -> Z.
Variable width : nat.

Lemma length_pixel_row (y n : nat) :
  length (concat (map (fun x => pixel_bytes (f x y)) (seq 0 n))) = (n * 4)%nat.
Proof.
  induction n as [|n IH]; [reflexivity|].
  rewrite seq_S, map_app, concat_app, length_app, IH. simpl. lia.
Qed.

Lemma length_row_bytes (y : nat) : length (row_bytes f width y) = (width * 4)%nat.
Proof. apply length_pixel_row. Qed.

Lemma length_raster_bytes (n : nat) :
  length (raster_bytes f width n) = (n * width * 4)%nat.
Proof.
  unfold raster_bytes. induction n as [|n IH]; [reflexivity|].
  rewrite seq_S, map_app, concat_app, length_app, IH. simpl.
  rewrite length_app, length_row_bytes. simpl. lia.
Qed.

Lemma row_loop (y x : nat) (pre rest : list Z) :
  length pre = (y * width * 4)%nat ->
  (x <= width)%nat ->
  (forall x', (x' < x)%nat -> sh x' y = Some (f x' y)) ->
  for_loop x (row_body sh width y) (pre ++ replicate (width * 4) 0%Z ++ rest)
  = Some (pre ++ concat (map (fun x => pixel_bytes (f x y)) (seq 0 x))
              ++ replicate ((width - x) * 4) 0%Z ++ rest).
Proof.
  intros Hpre. induction x as [|x IH]; intros Hx Hsh.
  - rewrite for_loop_0, Nat.sub_0_r. reflexivity.
  - rewrite seq_S, map_app, concat_app.
    rewrite for_loop_S, IH by (try lia; intros; apply Hsh; lia).
    replace ((width - x) * 4)%nat with (4 + (width - Datatypes.S x) * 4)%nat by lia.
    simpl. unfold row_body. rewrite (Hsh x) by lia. simpl. f_equal.
    fold (pixel_bytes (f x y)). rewrite !app_assoc.
    replace (pixel_offset width x y)
      with (length (pre ++ concat (map (fun x0 => pixel_bytes (f x0 y)) (seq 0 x)))).
    + rewrite <- (app_assoc _ (replicate _ _) rest).
      apply (store_pixel_at_end _ (replicate _ _ ++ rest)).
    + rewrite length_app, length_pixel_row, Hpre. unfold pixel_offset. lia.
Qed.

Lemma raster_loop (height y : nat) :
  (y <= height)%nat ->
  (forall x' y', (x' < width)%nat -> (y' < y)%nat -> sh x' y' = Some (f x' y')) ->
  for_loop y (fun y => for_loop width (row_body sh width y)) (blank width height)
  = Some (raster_bytes f width y ++ replicate ((height - y) * width * 4) 0%Z).
Proof.
  induction y as [|y IH]; intros Hy Hsh.
  - rewrite for_loop_0, Nat.sub_0_r. unfold blank. simpl. f_equal. f_equal. lia.
  - unfold raster_bytes. rewrite seq_S, map_app, concat_app.
    fold (raster_bytes f width y).
    rewrite for_loop_S, IH by (try lia; intros; apply Hsh; lia).
    replace (height - y)%nat with (1 + (height - Datatypes.S y))%nat by lia.
    rewrite !Nat.mul_add_distr_r, Nat.mul_1_l.
    rewrite replicate_add. cbn [mbind option_bind].
    rewrite (row_loop y width) by
      (try apply length_raster_bytes; try lia; intros; apply Hsh; lia).
    f_equal. rewrite Nat.sub_diag. simpl.
    rewrite app_nil_r, <- app_assoc. reflexivity.
Qed.

Lemma raster_loop_full (height : nat) :
  (forall x y, (x < width)%nat -> (y < height)%nat -> sh x y = Some (f x y)) ->
  for_loop height (fun y => for_loop width (row_body sh width y)) (blank width height)
  = Some (raster_bytes f width height).
Proof.
  intros Hsh. rewrite (raster_loop height height) by (try lia; exact Hsh).
  rewrite Nat.sub_diag. simpl. rewrite app_nil_r. reflexivity.
Qed.
End RasterLoops.

Section Chunks.
Context {A : Type}.
Variable g : nat -> list A.
Variable k : nat.
Hypothesis g_length : forall p, length (g p) = k.

Lemma length_chunks (n : nat) :
  length (concat (map g (seq 0 n))) = (n * k)%nat.
Proof using g_length.
  induction n as [|n IH]; [reflexivity|].
  rewrite seq_S, map_app, concat_app, length_app, IH. simpl.
  rewrite length_app, g_length. simpl. lia.
Qed.

Lemma lookup_chunks (n j i : nat) :
  (j < n)%nat -> (i < k)%nat ->
  concat (map g (seq 0 n)) !! (j * k + i)%nat = g j !! i.
Proof using g_length.
  induction n as [|n IH]; intros Hj Hi; [lia|].
  rewrite seq_S, map_app, concat_app. simpl. rewrite app_nil_r.
  destruct (decide (j = n)) as [->|Hne].
  - rewrite lookup_app_r by (rewrite length_chunks; lia).
    rewrite length_chunks. f_equal. lia.
  - rewrite lookup_app_l by (rewrite length_chunks; nia).
    apply IH; lia.
Qed.
End Chunks.

Lemma lookup_raster_bytes (f : nat -> nat -> Z) (width height x y c : nat) :
  (x < width)%nat -> (y < height)%nat -> (c < 4)%nat ->
  raster_bytes f width height !! (pixel_offset width x y + c)%nat
  = pixel_bytes (f x y) !! c.
Proof.
  intros Hx Hy Hc. unfold raster_bytes, pixel_offset.
  replace ((y * width + x) * 4 + c)%nat with (y * (width * 4) + (x * 4 + c))%nat by lia.
  rewrite (lookup_chunks (row_bytes f width) (width * 4))
    by (try apply length_row_bytes; lia).
  unfold row_bytes.
  apply (lookup_chunks (fun x => pixel_bytes (f x y)) 4); [reflexivity | lia | lia].
Qed.

Lemma getPixel_raster (f : nat -> nat -> Z) (width height x y : nat) :
  (x < width)%nat -> (y < height)%nat ->
  getPixel {| cwidth := width; cheight := height;
              cdata := raster_bytes f width height |} x y
  = Some (f x y, f x y, f x y, 255%Z).
Proof.
  intros Hx Hy. unfold getPixel. simpl.
  rewrite <- (Nat.add_0_r (pixel_offset width x y)) at 1.
  rewrite !lookup_raster_bytes by lia. reflexivity.
Qed.

(** When every pixel has a byte the loops fill the whole raster. *)
Lemma raster_data_total (px : nat -> nat -> option Z) (width height : nat) :
  (forall x y, (x < width)%nat -> (y < height)%nat -> is_Some (px x y)) ->
  raster_data px width height
  = Some (raster_bytes (fun x y => default 0%Z (px x y)) width height).
Proof.
  intros H. unfold raster_data. apply (raster_loop_full px).
  intros x y Hx Hy. destruct (H x y Hx Hy) as [b ->]. reflexivity.
Qed.

Lemma raster_data_ext (px1 px2 : nat -> nat -> option Z) (width height : nat) :
  (forall x y, (x < width)%nat -> (y < height)%nat -> px1 x y = px2 x y) ->
  raster_data px1 width height = raster_data px2 width height.
Proof.
  intros H. unfold raster_data. apply for_loop_ext. intros y d Hy.
  apply for_loop_ext. intros x d' Hx. rewrite (H x y Hx Hy). reflexivity.
Qed.

(** One pixel that throws abandons the whole raster. *)
Lemma for_loop_fails {S : Type} (n : nat) (body : nat -> S -> option S)
    (s : S) (i : nat) :
  (i < n)%nat -> (forall t, body i t = None) -> for_loop n body s = None.
Proof.
  intros Hi Hb. induction n as [|n IH]; [lia|].
  rewrite for_loop_S.
  destruct (decide (i = n)) as [->|Hne].
  - destruct (for_loop n body s); simpl; [apply Hb | reflexivity].
  - rewrite IH by lia. reflexivity.
Qed.

Lemma raster_data_fails (px : nat -> nat -> option Z)
    (width height x y : nat) :
  (x < width)%nat -> (y < height)%nat -> px x y = None ->
  raster_data px width height = None.
Proof.
  intros Hx Hy Hp. unfold raster_data.
  apply (for_loop_fails _ _ _ y Hy). intros t.
  apply (for_loop_fails _ _ _ x Hx). intros t'. rewrite Hp. reflexivity.
Qed.

Section PatternFacts.
Variable Math_sin : Q -> Q.
Variable Math_sqrt : Q -> Q.

Local Abbreviation apply_op := (apply_op Math_sin Math_sqrt).
Local Abbreviation run_ops := (run_ops Math_sin Math_sqrt).
Local Abbreviation coords := (coords Math_sin Math_sqrt).
Local Abbreviation layer_index := (layer_index Math_sin Math_sqrt).
Local Abbreviation pixel_shade := (pixel_shade Math_sin Math_sqrt).
Local Abbreviation pattern_data := (pattern_data Math_sin Math_sqrt).
Local Abbreviation generatePattern := (generatePattern Math_sin Math_sqrt).
Local Abbreviation pixel_byte := (pixel_byte Math_sin Math_sqrt).
Local Abbreviation byte_at := (byte_at Math_sin Math_sqrt).

#[global] Instance wrap_proper : Proper (Qeq ==> Qeq) wrap.
Proof. intros a b Hab. unfold wrap. rewrite Hab. reflexivity. Qed.

(** The wrap lands in [0, 1), whatever the operations left in [vv]. *)
Lemma wrap_range (vv : Q) : 0 <= wrap vv /\ wrap vv < 1.
Proof.
  unfold wrap. destruct (JSFacts.rem_one_bounds vv) as [Hlo Hhi].
  destruct (Qlt_le_dec (JS.rem vv 1 + 1) 1) as [Hs | Hs].
  - rewrite JSFacts.rem_one_id by lra. lra.
  - rewrite JSFacts.rem_one_pred by lra. lra.
Qed.

(** On a non-negative coordinate the wrap is the fractional part. *)
Lemma wrap_nonneg (vv : Q) : 0 <= vv -> wrap vv == vv - inject_Z (Qfloor vv).
Proof.
  intros Hv. unfold wrap.
  destruct (JSFacts.rem_one_range_nonneg vv Hv) as [Hlo Hhi].
  rewrite JSFacts.rem_one_pred by lra.
  rewrite JSFacts.rem_one_nonneg by exact Hv. ring.
Qed.

Lemma wrap_id (vv : Q) : 0 <= vv -> vv < 1 -> wrap vv == vv.
Proof.
  intros H0 H1. rewrite wrap_nonneg by exact H0.
  rewrite (JSFacts.floor_unique vv 0); change (inject_Z 0) with 0; lra.
Qed.

Lemma floor_scaled_range (vv : Q) (n : nat) :
  0 <= vv -> vv < 1 -> (0 < n)%nat ->
  (0 <= Qfloor (vv * inject_Z (Z.of_nat n)) < Z.of_nat n)%Z.
Proof.
  intros H0 H1 Hn.
  assert (Hn' : 0 < inject_Z (Z.of_nat n)).
  { change 0 with (inject_Z 0). rewrite <- Zlt_Qlt. lia. }
  assert (Hlo : 0 <= vv * inject_Z (Z.of_nat n)) by (apply Qmult_le_0_compat; lra).
  assert (Hhi : vv * inject_Z (Z.of_nat n) < inject_Z (Z.of_nat n)).
  { rewrite <- (Qmult_1_l (inject_Z (Z.of_nat n))) at 2.
    apply Qmult_lt_compat_r; assumption. }
  destruct (JSFacts.floor_spec (vv * inject_Z (Z.of_nat n))) as [Fl Fh].
  split.
  - change 0%Z with (Qfloor (inject_Z 0)) at 1. rewrite Qfloor_Z at 1.
    apply (Qfloor_resp_le 0) in Hlo. exact Hlo.
  - rewrite Zlt_Qlt. lra.
Qed.

(** The selected layer exists. *)
Lemma layer_index_range (layers : list MaterialType) (ops : list Operation)
    (width height x y : nat) :
  layers <> [] ->
  (0 <= layer_index layers ops width height x y < Z.of_nat (length layers))%Z.
Proof.
  intros Hne. unfold layer_index.
  destruct (wrap_range (snd (coords (length layers) ops width height x y))).
  apply floor_scaled_range; try assumption.
  destruct layers; [congruence | simpl; lia].
Qed.

Lemma layer_at_Some (layers : list MaterialType) (idx : Z) :
  (0 <= idx < Z.of_nat (length layers))%Z ->
  exists m, layer_at layers idx = Some m /\ layers !! Z.to_nat idx = Some m.
Proof.
  intros [Hlo Hhi]. unfold layer_at.
  destruct (idx <? 0)%Z eqn:E; [apply Z.ltb_lt in E; lia|].
  destruct (lookup_lt_is_Some_2 layers (Z.to_nat idx)) as [m Hm]; [lia|].
  exists m. split; exact Hm.
Qed.

Lemma pixel_shade_Some (layers : list MaterialType) (ops : list Operation)
    (width height x y : nat) :
  layers <> [] ->
  exists m,
    layers !! Z.to_nat (layer_index layers ops width height x y) = Some m
    /\ pixel_shade layers ops width height x y = Some (shade m).
Proof.
  intros Hne.
  destruct (layer_at_Some layers _ (layer_index_range layers ops width height x y Hne))
    as (m & Hat & Hm).
  exists m. split; [exact Hm|]. unfold pixel_shade.
  fold (layer_index layers ops width height x y).
  rewrite Hat. reflexivity.
Qed.

Lemma pattern_data_closed (layers : list MaterialType) (ops : list Operation)
    (width height : nat) :
  layers <> [] ->
  pattern_data layers ops width height
  = Some (raster_bytes (byte_at layers ops width height) width height).
Proof.
  intros Hne. unfold pattern_data, raster_data.
  apply (raster_loop_full (pixel_byte layers ops width height)).
  intros x y _ _. unfold byte_at, pixel_byte.
  destruct (pixel_shade_Some layers ops width height x y Hne) as (m & _ & ->).
  reflexivity.
Qed.

Lemma generatePattern_closed (layers : list MaterialType) (ops : list Operation)
    (width height : nat) :
  layers <> [] ->
  generatePattern true layers ops width height
  = Some {| cwidth := width; cheight := height;
            cdata := raster_bytes (byte_at layers ops width height) width height |}.
Proof.
  intros Hne. unfold generatePattern. simpl.
  destruct layers as [|m layers]; [congruence|].
  rewrite pattern_data_closed by exact Hne. reflexivity.
Qed.
(** The canvas has the requested size whenever the function returns. *)
Lemma generatePattern_size (has_ctx : bool) (layers : list MaterialType)
    (ops : list Operation) (width height : nat) (c : Canvas) :
  generatePattern has_ctx layers ops width height = Some c ->
  cwidth c = width /\ cheight c = height.
Proof.
  unfold generatePattern. destruct (negb has_ctx).
  - intros [= <-]. split; reflexivity.
  - destruct layers as [|m layers].
    + intros [= <-]. split; reflexivity.
    + destruct (pattern_data (m :: layers) ops width height) as [d|];
        [|discriminate].
      intros [= <-]. split; reflexivity.
Qed.
End PatternFacts.

Lemma divmod_offset (width x y c : nat) :
  (x < width)%nat -> (c < 4)%nat ->
  let i := (pixel_offset width x y + c)%nat in
  (i mod 4 = c /\ (i / 4) mod width = x /\ (i / 4) / width = y)%nat.
Proof.
  intros Hx Hc i. subst i. unfold pixel_offset.
  assert (E4 : (((y * width + x) * 4 + c) / 4 = y * width + x)%nat).
  { symmetry. apply (Nat.div_unique _ 4 _ c); lia. }
  rewrite E4. repeat split.
  - symmetry. apply (Nat.mod_unique _ 4 (y * width + x) c); lia.
  - symmetry. apply (Nat.mod_unique _ width y x); lia.
  - symmetry. apply (Nat.div_unique _ width y x); lia.
Qed.

Lemma lookup_fillRect_all (width height x y c : nat) (g : Z) :
  (x < width)%nat -> (y < height)%nat -> (c < 4)%nat ->
  fillRect width height g 0 0 width height (blank width height)
    !! (pixel_offset width x y + c)%nat
  = Some (if (c =? 3)%nat then 255%Z else g).
Proof.
  intros Hx Hy Hc. unfold fillRect, blank.
  rewrite list_lookup_imap.
  rewrite lookup_replicate_2 by (unfold pixel_offset; nia).
  cbn [fmap option_fmap option_map]. cbv zeta.
  destruct (divmod_offset width x y c Hx Hc) as (-> & -> & ->).
  assert (Hxb : (x <? 0 + width)%nat = true) by (apply Nat.ltb_lt; lia).
  assert (Hyb : (y <? 0 + height)%nat = true) by (apply Nat.ltb_lt; lia).
  rewrite Hxb, Hyb. reflexivity.
Qed.

Lemma getPixel_fillRect_all (width height x y : nat) (g : Z) :
  (x < width)%nat -> (y < height)%nat ->
  getPixel {| cwidth := width; cheight := height;
              cdata := fillRect width height g 0 0 width height
                         (blank width height) |} x y
  = Some (g, g, g, 255%Z).
Proof.
  intros Hx Hy. unfold getPixel. simpl.
  rewrite <- (Nat.add_0_r (pixel_offset width x y)) at 1.
  rewrite !lookup_fillRect_all by lia. reflexivity.
Qed.

Lemma length_fillRect (width height : nat) (g : Z) (x0 y0 rw rh : nat)
    (data : list Z) :
  length (fillRect width height g x0 y0 rw rh data) = length data.
Proof. unfold fillRect. apply length_imap. Qed.

Section PatternClaims.
Variable Math_sin : Q -> Q.
Variable Math_sqrt : Q -> Q.

Local Abbreviation apply_op := (apply_op Math_sin Math_sqrt).
Local Abbreviation run_ops := (run_ops Math_sin Math_sqrt).
Local Abbreviation coords := (coords Math_sin Math_sqrt).
Local Abbreviation layer_index := (layer_index Math_sin Math_sqrt).
Local Abbreviation pixel_shade := (pixel_shade Math_sin Math_sqrt).
Local Abbreviation pattern_data := (pattern_data Math_sin Math_sqrt).
Local Abbreviation generatePattern := (generatePattern Math_sin Math_sqrt).
Local Abbreviation pixel_byte := (pixel_byte Math_sin Math_sqrt).
Local Abbreviation byte_at := (byte_at Math_sin Math_sqrt).

Lemma unit_fraction (y height : nat) :
  (y < height)%nat ->
  0 <= inject_Z (Z.of_nat y) / inject_Z (Z.of_nat height)
  /\ inject_Z (Z.of_nat y) / inject_Z (Z.of_nat height) < 1.
Proof.
  intros Hy.
  assert (Hh : 0 < inject_Z (Z.of_nat height)).
  { change 0 with (inject_Z 0). rewrite <- Zlt_Qlt. lia. }
  split.
  - apply Qle_shift_div_l; [exact Hh|]. rewrite Qmult_0_l.
    change 0 with (inject_Z 0). rewrite <- Zle_Qle. lia.
  - apply Qlt_shift_div_r; [exact Hh|]. rewrite Qmult_1_l.
    rewrite <- Zlt_Qlt. lia.
Qed.

(** Exact arithmetic.  With a non-empty stack and no operation, pixel (x, y) shows
    the material at index floor(((y / height) mod 1) * stackLength):
    plain horizontal banding in stack order. *)
Theorem exact_banding
    (layers : list MaterialType) (width height x y : nat) :
  layers <> [] -> (x < width)%nat -> (y < height)%nat ->
  let v := inject_Z (Z.of_nat y) / inject_Z (Z.of_nat height) in
  let idx := Qfloor (JS.rem v 1 * inject_Z (Z.of_nat (length layers))) in
  exists (c : Canvas) (m : MaterialType),
    generatePattern true layers [] width height = Some c
    /\ cwidth c = width /\ cheight c = height
    /\ layer_index layers [] width height x y = idx
    /\ layers !! Z.to_nat idx = Some m
    /\ getPixel c x y
       = Some (JS.ToUint8Clamp (shade m), JS.ToUint8Clamp (shade m),
               JS.ToUint8Clamp (shade m), 255%Z).
Proof.
  intros Hne Hx Hy v idx.
  destruct (pixel_shade_Some Math_sin Math_sqrt layers [] width height x y Hne)
    as (m & Hm & Hs).
  assert (Hidx : layer_index layers [] width height x y = idx).
  { unfold layer_index, coords, run_ops. cbn [fold_left snd]. fold v.
    destruct (unit_fraction y height Hy) as [H0 H1]. fold v in H0, H1.
    subst idx. apply Qfloor_comp.
    rewrite wrap_id, JSFacts.rem_one_id by assumption. reflexivity. }
  eexists _, m. rewrite generatePattern_closed by exact Hne.
  split; [reflexivity|]. split; [reflexivity|]. split; [reflexivity|].
  split; [exact Hidx|]. rewrite <- Hidx. split; [exact Hm|].
  rewrite getPixel_raster by assumption.
  unfold byte_at, pixel_byte. rewrite Hs. reflexivity.
Qed.


Lemma apply_op_addSheets (n : nat) (st : Q * Q) (m : MaterialType) (k : Q) :
  apply_op n st (addSheets m k) = st.
Proof. destruct st; reflexivity. Qed.

Lemma run_ops_without_addSheets (n : nat) (ops : list Operation) (st : Q * Q) :
  run_ops n (without_addSheets ops) st = run_ops n ops st.
Proof.
  revert st. induction ops as [|op ops IH]; intros st; [reflexivity|].
  unfold without_addSheets. fold (without_addSheets ops).
  destruct (is_addSheets op) eqn:E.
  - rewrite filter_cons_False by (rewrite E; discriminate).
    fold (without_addSheets ops).
    destruct op; try discriminate E. cbn [run_ops fold_left].
    rewrite apply_op_addSheets. apply IH.
  - rewrite filter_cons_True by exact E.
    fold (without_addSheets ops). cbn [run_ops fold_left]. apply IH.
Qed.

(** Rasters agree when the layer indices agree at every pixel. *)
Lemma generatePattern_ext (has_ctx : bool) (layers : list MaterialType)
    (ops1 ops2 : list Operation) (width height : nat) :
  (forall x y, (x < width)%nat -> (y < height)%nat ->
     layer_index layers ops1 width height x y
     = layer_index layers ops2 width height x y) ->
  generatePattern has_ctx layers ops1 width height
  = generatePattern has_ctx layers ops2 width height.
Proof.
  intros H. unfold generatePattern.
  destruct (negb has_ctx); [reflexivity|].
  destruct layers as [|m layers]; [reflexivity|].
  assert (E : pattern_data (m :: layers) ops1 width height
              = pattern_data (m :: layers) ops2 width height); [|rewrite E; reflexivity].
  unfold pattern_data, raster_data. apply for_loop_ext. intros y d Hy.
  apply for_loop_ext. intros x d' Hx.
  unfold pixel_byte, pixel_shade. rewrite (H x y Hx Hy). reflexivity.
Qed.

(** Exact arithmetic.  [addSheets] entries do not affect the raster: synthesizing
    with them removed gives the same image. *)
Theorem exact_addSheets_do_not_affect_raster
    (has_ctx : bool) (layers : list MaterialType) (ops : list Operation)
    (width height : nat) :
  generatePattern has_ctx layers ops width height
  = generatePattern has_ctx layers (without_addSheets ops) width height.
Proof.
  apply generatePattern_ext. intros x y _ _.
  unfold layer_index, coords.
  rewrite run_ops_without_addSheets. reflexivity.
Qed.
End PatternClaims.

(** Exact arithmetic.  With an empty stack the result is an image of the requested
    size, every pixel the fixed dark background, whatever the
    operations: no failure, and the operations are never looked at. *)
Theorem exact_empty_stack_background
    (Math_sin Math_sqrt : Q -> Q) (ops : list Operation) (width height : nat) :
  (0 < width)%nat -> (0 < height)%nat ->
  exists c : Canvas,
    generatePattern Math_sin Math_sqrt true [] ops width height = Some c
    /\ cwidth c = width /\ cheight c = height
    /\ length (cdata c) = (width * height * 4)%nat
    /\ (forall x y, (x < width)%nat -> (y < height)%nat ->
          getPixel c x y = Some (17, 17, 17, 255)%Z)
    /\ (forall (sin' sqrt' : Q -> Q) (ops' : list Operation),
          generatePattern sin' sqrt' true [] ops' width height = Some c).
Proof.
  intros Hw Hh. eexists. split; [reflexivity|]. simpl.
  split; [reflexivity|]. split; [reflexivity|].
  split; [rewrite length_fillRect; apply length_replicate|].
  split; [|reflexivity].
  intros x y Hx Hy. apply (getPixel_fillRect_all width height x y background); assumption.
Qed.


Section PipelineClaims.
Variable Math_sin : Q -> Q.
Variable Math_sqrt : Q -> Q.

Local Abbreviation apply_op := (apply_op Math_sin Math_sqrt).
Local Abbreviation run_ops := (run_ops Math_sin Math_sqrt).
Local Abbreviation coords := (coords Math_sin Math_sqrt).
Local Abbreviation layer_index := (layer_index Math_sin Math_sqrt).
Local Abbreviation generatePattern := (generatePattern Math_sin Math_sqrt).

Lemma run_ops_app (n : nat) (ops1 ops2 : list Operation) (st : Q * Q) :
  run_ops n (ops1 ++ ops2) st = run_ops n ops2 (run_ops n ops1 st).
Proof. apply fold_left_app. Qed.

Lemma run_ops_fst (n : nat) (ops : list Operation) (st : Q * Q) :
  fst (run_ops n ops st) == fst st * stretch_product ops.
Proof.
  revert st. induction ops as [|op ops IH]; intros [uu vv].
  - simpl. ring.
  - change (run_ops n (op :: ops) (uu, vv))
      with (run_ops n ops (apply_op n (uu, vv) op)).
    rewrite IH.
    destruct op; cbn [apply_op fst]; try reflexivity.
    change (stretch_product (stretch factor :: ops))
      with (factor * stretch_product ops).
    ring.
Qed.

(** Exact arithmetic.  Only [stretch] changes the length coordinate: after any
    prefix of the operations, [uu] is [x / width] times the product of
    the stretch factors of that prefix, and every other kind of
    operation leaves [uu] as it was. *)
Theorem exact_only_stretch_moves_uu
    (layers : list MaterialType) (ops : list Operation)
    (width height x y k : nat) :
  let u := inject_Z (Z.of_nat x) / inject_Z (Z.of_nat width) in
  fst (coords (length layers) (take k ops) width height x y)
    == u * stretch_product (take k ops)
  /\ (forall (n : nat) (uu vv : Q),
        (forall turns, fst (apply_op n (uu, vv) (twist turns)) = uu)
        /\ (forall spacing depth,
              fst (apply_op n (uu, vv) (ladder spacing depth)) = uu)
        /\ (forall radius spacing,
              fst (apply_op n (uu, vv) (raindrops radius spacing)) = uu)
        /\ (forall folds, fst (apply_op n (uu, vv) (wfolds folds)) = uu)
        /\ (forall times, fst (apply_op n (uu, vv) (fold times)) = uu)
        /\ (forall m count, fst (apply_op n (uu, vv) (addSheets m count)) = uu)
        /\ (forall factor,
              fst (apply_op n (uu, vv) (stretch factor)) = uu * factor)).
Proof.
  intros u. split.
  - unfold coords. rewrite run_ops_fst. reflexivity.
  - intros n uu vv. repeat split.
Qed.

Lemma layer_index_app (layers : list MaterialType) (ops : list Operation)
    (op : Operation) (width height x y : nat) :
  snd (apply_op (length layers) (coords (length layers) ops width height x y) op)
    == snd (coords (length layers) ops width height x y) ->
  layer_index layers (ops ++ [op]) width height x y
  = layer_index layers ops width height x y.
Proof.
  intros H. unfold layer_index. apply Qfloor_comp.
  unfold coords at 1. rewrite run_ops_app. cbn [run_ops fold_left].
  fold (run_ops (length layers) ops). 
  fold (coords (length layers) ops width height x y).
  rewrite H. reflexivity.
Qed.

(** Exact arithmetic.  Operations with identity parameters are no-ops on the
    raster: appending [twist 0], [fold 0] or [stretch 1] leaves the
    image unchanged, given that the engine's sine of zero is zero. *)
Theorem exact_identity_parameters_are_noops
    (has_ctx : bool) (layers : list MaterialType) (ops : list Operation)
    (width height : nat) :
  (forall q, q == 0 -> Math_sin q == 0) ->
  generatePattern has_ctx layers (ops ++ [twist 0]) width height
    = generatePattern has_ctx layers ops width height
  /\ generatePattern has_ctx layers (ops ++ [fold 0]) width height
    = generatePattern has_ctx layers ops width height
  /\ generatePattern has_ctx layers (ops ++ [stretch 1]) width height
    = generatePattern has_ctx layers ops width height.
Proof.
  intros Hsin. repeat split; apply generatePattern_ext; intros x y _ _;
    apply layer_index_app;
    destruct (coords (length layers) ops width height x y) as [uu vv];
    cbn [apply_op snd].
  - rewrite (Hsin (uu * JS.PI * 2 * 0)) by ring.
    unfold Qdiv. ring.
  - change (JS.pow2 (Z.max 0 (Qfloor 0))) with 1. ring.
  - reflexivity.
Qed.

(** Exact arithmetic.  For a spacing of at least 0.0001 the
    ladder transform is t = (uu / spacing) mod 1,
    tri = 1 - |0.5 - t| * 2, vv - tri * 0.25 * depth, with [uu]
    unchanged; below 0.0001 the divisor is 0.0001. *)
Theorem exact_ladder_transform
    (n : nat) (uu vv spacing depth : Q) :
  (1 # 10000) <= spacing ->
  fst (apply_op n (uu, vv) (ladder spacing depth)) = uu
  /\ snd (apply_op n (uu, vv) (ladder spacing depth))
     == vv - ladder_tri (JS.rem (uu / spacing) 1) * (1 # 4) * depth.
Proof.
  intros Hs. split; [reflexivity|]. cbn [apply_op snd]. unfold ladder_tri.
  rewrite (Q.max_r (1 # 10000) spacing) by exact Hs. reflexivity.
Qed.

Lemma ladder_floor_spacing (n : nat) (uu vv spacing depth : Q) :
  snd (apply_op n (uu, vv) (ladder spacing depth))
  == vv - ladder_tri (JS.rem (uu / Qmax (1 # 10000) spacing) 1) * (1 # 4) * depth.
Proof. reflexivity. Qed.
End PipelineClaims.

(** In exact arithmetic too the divisor has a floor: with spacing
    0.00005 and uu = 0.000025 the wave of the design document is at
    phase 0.5, the code's at phase 0.25. *)
Lemma exact_ladder_small_spacing :
  let spacing := 1 # 20000 in
  let depth := 1 in
  let uu := 1 # 40000 in
  let vv := 0 in
  0 < spacing /\ 0 <= depth
  /\ snd (apply_op sample_sin sample_sqrt 10 (uu, vv) (ladder spacing depth))
     == - (1 # 8)
  /\ vv - ladder_tri (JS.rem (uu / spacing) 1) * (1 # 4) * depth == - (1 # 4)
  /\ ~ (forall (Math_sin Math_sqrt : Q -> Q) (n : nat) (uu vv spacing depth : Q),
          0 < spacing -> 0 <= depth ->
          snd (apply_op Math_sin Math_sqrt n (uu, vv) (ladder spacing depth))
          == vv - ladder_tri (JS.rem (uu / spacing) 1) * (1 # 4) * depth).
Proof.
  cbv zeta. split; [reflexivity|]. split; [discriminate|].
  split; [vm_compute; reflexivity|]. split; [vm_compute; reflexivity|].
  intros H.
  specialize (H sample_sin sample_sqrt 10%nat (1 # 40000) 0 (1 # 20000) 1).
  assert (H1 : 0 < 1 # 20000) by reflexivity.
  assert (H2 : 0 <= 1) by discriminate.
  specialize (H H1 H2). vm_compute in H. discriminate H.
Qed.

(** *** Bands of a staircase *)

Section Staircase.
Context {A : Type} `{EqDecision A}.
Variables (even_px odd_px : A).
Hypothesis px_differ : even_px <> odd_px.

Local Abbreviation ppx := (parity_px even_px odd_px).

Lemma last_cons_default (l : list Z) (a b : Z) :
  List.last (b :: l) a = List.last l b.
Proof.
  revert a b. induction l as [|c r IHr]; intros a b; [reflexivity|].
  change (List.last (b :: c :: r) a) with (List.last (c :: r) a).
  rewrite (IHr a c). symmetry. apply IHr.
Qed.

Lemma stair_last_ge (l : list Z) (a : Z) : stair a l -> (a <= List.last l a)%Z.
Proof.
  revert a. induction l as [|b r IH]; intros a Hs; [simpl; lia|].
  destruct Hs as [Hb Hr]. specialize (IH b Hr).
  rewrite last_cons_default. lia.
Qed.

(** A line whose samples alternate with the parity of a staircase has
    one band per step. *)
Lemma bands_stair (l : list Z) (a : Z) :
  stair a l ->
  bands (map ppx (a :: l)) = Z.to_nat (List.last l a - a + 1).
Proof using px_differ.
  revert a. induction l as [|b r IH]; intros a Hs.
  - simpl. replace (a - a + 1)%Z with 1%Z by lia. reflexivity.
  - destruct Hs as [Hb Hr]. specialize (IH b Hr).
    pose proof (stair_last_ge r b Hr) as Hge.
    rewrite last_cons_default.
    change (bands (map ppx (a :: b :: r)))
      with (if decide (ppx a = ppx b)
            then bands (map ppx (b :: r))
            else S (bands (map ppx (b :: r)))).
    rewrite IH. destruct Hb as [-> | ->].
    + destruct (decide _) as [_|Hn]; [reflexivity | congruence].
    + destruct (decide _) as [He|_].
      * exfalso. unfold parity_px in He.
        rewrite Z.even_add in He. simpl in He.
        destruct (Z.even a); simpl in He; congruence.
      * lia.
Qed.

Lemma stair_map_seq (g : nat -> Z) (n s : nat) :
  (forall i, g (S i) = g i \/ g (S i) = (g i + 1)%Z) ->
  stair (g s) (map g (seq (S s) n)).
Proof.
  intros Hg. revert s. induction n as [|n IH]; intros s; [exact I|].
  simpl. split; [apply Hg | apply IH].
Qed.

Lemma last_map_seq (g : nat -> Z) (n s : nat) :
  List.last (map g (seq (S s) n)) (g s) = g (s + n)%nat.
Proof.
  revert s. induction n as [|n IH]; intros s.
  - simpl. f_equal. lia.
  - change (map g (seq (S s) (S n))) with (g (S s) :: map g (seq (S (S s)) n)).
    rewrite last_cons_default, IH. f_equal. lia.
Qed.

Lemma bands_staircase (g : nat -> Z) (n : nat) :
  (forall i, g (S i) = g i \/ g (S i) = (g i + 1)%Z) ->
  bands (map (fun y => ppx (g y)) (seq 0 (S n)))
  = Z.to_nat (g n - g 0%nat + 1).
Proof using px_differ.
  intros Hg.
  change (map (fun y => ppx (g y)) (seq 0 (S n)))
    with (ppx (g 0%nat) :: map (fun y => ppx (g y)) (seq 1 n)).
  rewrite <- (map_map g ppx (seq 1 n)).
  change (ppx (g 0%nat) :: map ppx (map g (seq 1 n)))
    with (map ppx (g 0%nat :: map g (seq 1 n))).
  rewrite bands_stair by (apply stair_map_seq; exact Hg).
  rewrite last_map_seq. reflexivity.
Qed.
End Staircase.

Lemma floor_sub_int (q : Q) (z : Z) :
  Qfloor (q - inject_Z z) = (Qfloor q - z)%Z.
Proof.
  destruct (JSFacts.floor_spec q) as [Hlo Hhi].
  apply JSFacts.floor_unique.
  - unfold Z.sub. rewrite inject_Z_plus, inject_Z_opp. lra.
  - unfold Z.sub. rewrite inject_Z_plus, inject_Z_opp. lra.
Qed.

Lemma floor_fraction (a b : Z) :
  (0 < b)%Z -> Qfloor (inject_Z a / inject_Z b) = (a / b)%Z.
Proof. intros _. symmetry. apply Zdiv_Qdiv. Qed.

Lemma quickBase5_lookup (i : Z) :
  (0 <= i < 10)%Z ->
  quickBase 5 !! Z.to_nat i = Some (if Z.even i then M1084 else M15N20).
Proof.
  intros Hi.
  assert (H : (i = 0 \/ i = 1 \/ i = 2 \/ i = 3 \/ i = 4 \/ i = 5 \/ i = 6
               \/ i = 7 \/ i = 8 \/ i = 9)%Z) by lia.
  repeat (destruct H as [-> | H]; [reflexivity|]). subst i. reflexivity.
Qed.

Section FoldScenario.
Variable Math_sin : Q -> Q.
Variable Math_sqrt : Q -> Q.

Local Abbreviation layer_index := (layer_index Math_sin Math_sqrt).
Local Abbreviation pixel_shade := (pixel_shade Math_sin Math_sqrt).
Local Abbreviation generatePattern := (generatePattern Math_sin Math_sqrt).
Local Abbreviation pixel_byte := (pixel_byte Math_sin Math_sqrt).
Local Abbreviation byte_at := (byte_at Math_sin Math_sqrt).

(** After [fold 2] on ten layers, row [y] of [height] shows layer
    [floor(40 y / height) mod 10]. *)
Lemma layer_index_fold2 (layers : list MaterialType) (width height x y : nat) :
  length layers = 10%nat -> (0 < height)%nat ->
  layer_index layers [fold 2] width height x y
  = ((40 * Z.of_nat y / Z.of_nat height) mod 10)%Z.
Proof.
  intros Hlen Hh. unfold layer_index, coords, run_ops.
  cbn [fold_left apply_op snd]. rewrite Hlen.
  change (JS.pow2 (Z.max 0 (Qfloor 2))) with (inject_Z 4).
  change (inject_Z (Z.of_nat 10)) with (inject_Z 10).
  assert (Hhq : 0 < inject_Z (Z.of_nat height)).
  { change 0 with (inject_Z 0). rewrite <- Zlt_Qlt. lia. }
  assert (Hyq : 0 <= inject_Z (Z.of_nat y)).
  { change 0 with (inject_Z 0). rewrite <- Zle_Qle. lia. }
  assert (E4 : inject_Z (Z.of_nat y) / inject_Z (Z.of_nat height) * inject_Z 4
               == inject_Z (4 * Z.of_nat y) / inject_Z (Z.of_nat height)).
  { rewrite inject_Z_mult. field. lra. }
  assert (Hv : 0 <= inject_Z (4 * Z.of_nat y) / inject_Z (Z.of_nat height)).
  { apply Qle_shift_div_l; [exact Hhq|]. rewrite inject_Z_mult.
    change (inject_Z 4) with 4. lra. }
  assert (E : wrap (inject_Z (Z.of_nat y) / inject_Z (Z.of_nat height) * inject_Z 4)
              * inject_Z 10
              == inject_Z (40 * Z.of_nat y) / inject_Z (Z.of_nat height)
                 - inject_Z (10 * Qfloor (inject_Z (4 * Z.of_nat y)
                                          / inject_Z (Z.of_nat height)))).
  { rewrite E4, wrap_nonneg by exact Hv.
    rewrite !inject_Z_mult. field. lra. }
  rewrite (Qfloor_comp _ _ E), floor_sub_int.
  rewrite !floor_fraction by lia.
  rewrite Z.mod_eq by lia.
  replace (4 * Z.of_nat y / Z.of_nat height)%Z
    with (40 * Z.of_nat y / Z.of_nat height / 10)%Z; [reflexivity|].
  rewrite Z.div_div by lia.
  replace (40 * Z.of_nat y)%Z with (4 * Z.of_nat y * 10)%Z by lia.
  apply Z.div_mul_cancel_r; lia.
Qed.

(** The quick-start billet folded twice: the pixel of row [y]. *)
Lemma getPixel_fold2 (c : Canvas) (width height x y : nat) :
  generatePattern true (quickBase 5) [fold 2] width height = Some c ->
  (x < width)%nat -> (y < height)%nat ->
  getPixel c x y = band_px (Z.even (40 * Z.of_nat y / Z.of_nat height)).
Proof.
  intros Hc Hx Hy.
  rewrite generatePattern_closed in Hc by discriminate.
  injection Hc as <-. rewrite getPixel_raster by assumption.
  unfold byte_at, pixel_byte, pixel_shade.
  fold (layer_index (quickBase 5) [fold 2] width height x y).
  rewrite layer_index_fold2 by (try reflexivity; lia).
  set (a := (40 * Z.of_nat y / Z.of_nat height)%Z).
  assert (Hm : (0 <= a mod 10 < 10)%Z) by (apply Z.mod_pos_bound; lia).
  unfold layer_at.
  destruct (a mod 10 <? 0)%Z eqn:E; [apply Z.ltb_lt in E; lia|].
  rewrite quickBase5_lookup by exact Hm.
  assert (Hev : Z.even (a mod 10) = Z.even a).
  { rewrite (Z.div_mod a 10) at 2 by lia.
    rewrite Z.even_add, Z.even_mul. change (Z.even 10) with true.
    cbn [orb]. destruct (Z.even (a mod 10)); reflexivity. }
  rewrite Hev. destruct (Z.even a); reflexivity.
Qed.

Lemma column_fold2 (c : Canvas) (width height x : nat) :
  generatePattern true (quickBase 5) [fold 2] width height = Some c ->
  (x < width)%nat ->
  column c x
  = map (fun y => band_px (Z.even (40 * Z.of_nat y / Z.of_nat height)))
        (seq 0 height).
Proof.
  intros Hc Hx. unfold column.
  assert (Hh : cheight c = height).
  { rewrite generatePattern_closed in Hc by discriminate.
    injection Hc as <-. reflexivity. }
  rewrite Hh. apply map_ext_in. intros y Hy. apply in_seq in Hy.
  apply (getPixel_fold2 c width height x y Hc Hx). lia.
Qed.

(** Exact arithmetic.  The quick-start billet of ten alternating
    layers, folded twice: down any vertical line of a raster at least
    40 pixels high there are exactly 40 bands. *)
Theorem exact_fold2_forty_bands (width height x : nat) :
  (x < width)%nat -> (40 <= height)%nat ->
  exists c : Canvas,
    generatePattern true (quickBase 5) [fold 2] width height = Some c
    /\ cwidth c = width /\ cheight c = height
    /\ bands (column c x) = 40%nat.
Proof.
  intros Hx Hh.
  destruct (generatePattern true (quickBase 5) [fold 2] width height) as [c|] eqn:Hc;
    [|rewrite generatePattern_closed in Hc by discriminate; discriminate].
  exists c. split; [reflexivity|].
  assert (Hdim : cwidth c = width /\ cheight c = height).
  { rewrite generatePattern_closed in Hc by discriminate.
    injection Hc as <-. split; reflexivity. }
  split; [apply Hdim|]. split; [apply Hdim|].
  rewrite (column_fold2 c width height x Hc Hx).
  destruct height as [|n]; [lia|].
  set (g := fun y : nat => (40 * Z.of_nat y / Z.of_nat (S n))%Z).
  change (map (fun y => band_px (Z.even (40 * Z.of_nat y / Z.of_nat (S n)))) (seq 0 (S n)))
    with (map (fun y => parity_px (band_px true) (band_px false) (g y)) (seq 0 (S n))).
  rewrite bands_staircase.
  - assert (E0 : g 0%nat = 0%Z) by reflexivity.
    assert (En : g n = 39%Z).
    { subst g. cbv beta. symmetry.
      apply (Z.div_unique _ _ 39 (Z.of_nat (S n) - 40)); lia. }
    rewrite E0, En. reflexivity.
  - discriminate.
  - intros i. subst g. cbv beta.
    replace (40 * Z.of_nat (S i))%Z with (40 * Z.of_nat i + 40)%Z by lia.
    pose proof (Z.div_mod (40 * Z.of_nat i) (Z.of_nat (S n)) ltac:(lia)) as D1.
    pose proof (Z.mod_pos_bound (40 * Z.of_nat i) (Z.of_nat (S n)) ltac:(lia)) as B1.
    pose proof (Z.div_mod (40 * Z.of_nat i + 40) (Z.of_nat (S n)) ltac:(lia)) as D2.
    pose proof (Z.mod_pos_bound (40 * Z.of_nat i + 40) (Z.of_nat (S n)) ltac:(lia)) as B2.
    nia.
Qed.
End FoldScenario.

(** In exact arithmetic, at width 64 and height 32 the folded billet
    shows 25 bands on every vertical line. *)
Lemma exact_fold2_height32 :
  exists c : Canvas,
    generatePattern sample_sin sample_sqrt true (quickBase 5) [fold 2] 64 32
      = Some c
    /\ cwidth c = 64%nat /\ cheight c = 32%nat
    /\ (forall x, (x < 64)%nat -> bands (column c x) = 25%nat)
    /\ bands (column c 0) <> 40%nat.
Proof.
  destruct (generatePattern sample_sin sample_sqrt true (quickBase 5) [fold 2] 64 32)
    as [c|] eqn:Hc;
    [|rewrite generatePattern_closed in Hc by discriminate; discriminate].
  exists c. split; [reflexivity|].
  assert (Hdim : cwidth c = 64%nat /\ cheight c = 32%nat).
  { rewrite generatePattern_closed in Hc by discriminate.
    injection Hc as <-. split; reflexivity. }
  split; [apply Hdim|]. split; [apply Hdim|].
  assert (Hall : forall x, (x < 64)%nat -> bands (column c x) = 25%nat).
  { intros x Hx.
    rewrite (column_fold2 sample_sin sample_sqrt c 64 32 x Hc Hx).
    vm_compute. reflexivity. }
  split; [exact Hall|].
  rewrite (Hall 0%nat) by lia. discriminate.
Qed.

(* ===================================================================== *)
(** ** The generator on doubles *)

(** [Math.max(0.0001, s)] is [s] from 0.0001 on. *)
Lemma Math_max_floor (s : float) :
  PrimFloat.leb (Binary64.lit (1 # 10000)) s = true ->
  Binary64.Math_max (Binary64.lit (1 # 10000)) s = s.
Proof.
  intros H. unfold Binary64.Math_max, PrimFloat.is_nan.
  replace (PrimFloat.get_sign (Binary64.lit (1 # 10000))) with false
    by (vm_compute; reflexivity).
  rewrite leb_spec in H. rewrite !FloatAxioms.eqb_spec, !ltb_spec.
  assert (Ea : exists m e,
             Prim2SF (Binary64.lit (1 # 10000)) = S754_finite false m e)
    by (vm_compute; eauto).
  destruct Ea as (m0 & e0 & Ea). rewrite Ea in *.
  set (a := Binary64.lit (1 # 10000)) in *.
  unfold SFleb in H. unfold SFeqb, SFltb.
  destruct (Prim2SF s) as [sz|si| |ss ms es] eqn:Es; cbn in H |- *;
    try discriminate H.
  - destruct si; [discriminate H|].
    rewrite ?Pos.compare_cont_refl, ?Z.compare_refl. reflexivity.
  - destruct ss; [discriminate H|].
    rewrite !Z.compare_refl, !Pos.compare_cont_refl. cbn [negb orb].
    destruct (e0 ?= es)%Z eqn:Ee; try discriminate H; [|reflexivity].
    apply Z.compare_eq in Ee. subst es.
    destruct (Pos.compare_cont Eq m0 ms) eqn:Em; try discriminate H;
      [|reflexivity].
    apply Pos.compare_eq in Em. subst ms.
    rewrite ?Z.compare_refl, ?Pos.compare_cont_refl. cbv beta iota.
    change (a = s). apply Prim2SF_inj. rewrite Ea, Es. reflexivity.
Qed.

(** *** Arithmetic of doubles *)

(** Multiplying by 1 is exact: the product of the mantissas is the
    mantissa shifted by the 52 bits that the rounding shifts back. *)
Lemma shr_fexp_canonical (m : positive) (e : Z) :
  canonical_mantissa prec emax m e = true ->
  shr_fexp prec emax (Zpos m) e loc_Exact
  = ({| shr_m := Zpos m; shr_r := false; shr_s := false |}, e).
Proof.
  unfold canonical_mantissa. intros H. apply Z.eqb_eq in H.
  unfold shr_fexp. cbn [Zdigits2 shr_record_of_loc]. rewrite H, Z.sub_diag.
  reflexivity.
Qed.

Lemma shr_fexp_times_one (m : positive) (e : Z) :
  canonical_mantissa prec emax m e = true ->
  shr_fexp prec emax (Zpos (m * 4503599627370496)) (e + -52) loc_Exact
  = ({| shr_m := Zpos m; shr_r := false; shr_s := false |}, e).
Proof.
  unfold canonical_mantissa. intros H. apply Z.eqb_eq in H.
  unfold shr_fexp. rewrite Pos.mul_comm.
  change (4503599627370496 * m)%positive with (Pos.iter xO m 52).
  cbn [Zdigits2 shr_record_of_loc].
  replace (Z.pos (digits2_pos (Pos.iter xO m 52)) + (e + -52))%Z
    with (Z.pos (digits2_pos m) + e)%Z.
  2:{ cbn [Pos.iter digits2_pos]. rewrite !Pos2Z.inj_succ. lia. }
  rewrite H. replace (e - (e + -52))%Z with 52%Z by lia.
  unfold shr. cbn [Pos.iter iter_pos shr_1 orb]. f_equal. lia.
Qed.

Lemma SFmul_one (x : spec_float) :
  valid_binary x = true ->
  SF64mul x (Prim2SF 1) = x.
Proof.
  intros Hv.
  change (Prim2SF 1) with (S754_finite false 4503599627370496 (-52)).
  destruct x as [s|s| |s m e]; cbn; try (destruct s; reflexivity); try reflexivity.
  cbn in Hv. unfold bounded in Hv. apply andb_prop in Hv. destruct Hv as [Hc Hb].
  unfold SF64mul, SFmul.
  rewrite xorb_false_r.
  unfold binary_round_aux.
  rewrite (shr_fexp_times_one m e Hc).
  cbn [shr_m loc_of_shr_record round_nearest_even].
  rewrite (shr_fexp_canonical m e Hc). cbn [shr_m]. rewrite Hb. reflexivity.
Qed.

Lemma mul_one (x : float) : PrimFloat.mul x 1 = x.
Proof.
  apply Prim2SF_inj. rewrite mul_spec. apply SFmul_one. apply Prim2SF_valid.
Qed.

(** Zeros through [*], [/] and [+]. *)
Lemma zero_float_cases (z : float) :
  zero_float z -> z = PrimFloat.zero \/ z = PrimFloat.neg_zero.
Proof.
  intros [s Hs]. rewrite <- (SF2Prim_Prim2SF z), Hs.
  destruct s; [right | left]; reflexivity.
Qed.

Lemma mul_zero_r (a : float) :
  finite_float a -> zero_float (PrimFloat.mul a PrimFloat.zero).
Proof.
  unfold finite_float, zero_float. intros H. rewrite mul_spec.
  change (Prim2SF PrimFloat.zero) with (S754_zero false).
  destruct (Prim2SF a); try contradiction; eexists; reflexivity.
Qed.

Lemma zero_mul_half (z : float) :
  zero_float z -> zero_float (PrimFloat.mul z 0.5).
Proof.
  intros [s Hs]. unfold zero_float. rewrite mul_spec, Hs.
  eexists. reflexivity.
Qed.

Lemma zero_div (z d : float) :
  zero_float z ->
  (exists s, Prim2SF d = S754_infinity s)
  \/ (exists s m e, Prim2SF d = S754_finite s m e) ->
  zero_float (PrimFloat.div z d).
Proof.
  intros [s Hs] Hd. unfold zero_float. rewrite div_spec, Hs.
  destruct Hd as [[s' ->]|(s' & m & e & ->)]; eexists; reflexivity.
Qed.

Lemma add_zero (vv z : float) :
  zero_float z ->
  PrimFloat.add vv z = vv \/ (zero_float vv /\ zero_float (PrimFloat.add vv z)).
Proof.
  intros [s Hs].
  destruct (Prim2SF vv) as [sv|sv| |sv mv ev] eqn:Ev.
  - right. split; [eexists; exact Ev|]. unfold zero_float.
    rewrite add_spec, Ev, Hs. destruct sv, s; eexists; reflexivity.
  - left. apply Prim2SF_inj. rewrite add_spec, Ev, Hs. reflexivity.
  - left. apply Prim2SF_inj. rewrite add_spec, Ev, Hs. reflexivity.
  - left. apply Prim2SF_inj. rewrite add_spec, Ev, Hs. reflexivity.
Qed.

Lemma wrap_zero (z : float) : zero_float z -> Binary64.wrap z = PrimFloat.zero.
Proof.
  intros H. destruct (zero_float_cases z H) as [-> | ->];
    vm_compute; reflexivity.
Qed.

Lemma SFcompare_refl (x : spec_float) :
  x <> S754_nan -> SFcompare x x = Some Eq.
Proof.
  destruct x as [s|s| |s m e]; intros H; try congruence;
    try (destruct s; reflexivity).
  cbn. rewrite Z.compare_refl, Pos.compare_cont_refl.
  destruct s; reflexivity.
Qed.

Lemma Math_max_one (b : float) :
  Prim2SF b <> S754_nan ->
  (exists s, Prim2SF (Binary64.Math_max 1 b) = S754_infinity s)
  \/ (exists s m e, Prim2SF (Binary64.Math_max 1 b) = S754_finite s m e).
Proof.
  intros Hb. unfold Binary64.Math_max, PrimFloat.is_nan.
  replace (PrimFloat.get_sign 1) with false by (vm_compute; reflexivity).
  rewrite !FloatAxioms.eqb_spec, !ltb_spec. unfold SFeqb, SFltb.
  rewrite (SFcompare_refl (Prim2SF b) Hb).
  change (Prim2SF 1) with (S754_finite false 4503599627370496 (-52)).
  cbn [negb orb].
  destruct (Prim2SF b) as [sb|sb| |sb mb eb] eqn:Eb; try congruence;
    cbv beta iota delta [SFcompare].
  - destruct sb; right; do 3 eexists; reflexivity.
  - destruct sb; [right; do 3 eexists; reflexivity|].
    left. eexists. exact Eb.
  - destruct sb.
    + right. do 3 eexists. reflexivity.
    + destruct (-52 ?= eb)%Z eqn:Ee.
      * destruct (Pos.compare_cont Eq 4503599627370496 mb) eqn:Em.
        -- destruct (match (eb ?= -52)%Z with Eq => _ | Lt => Lt | Gt => Gt end);
             right; do 3 eexists; reflexivity.
        -- right. do 3 eexists. exact Eb.
        -- destruct (match (eb ?= -52)%Z with Eq => _ | Lt => Lt | Gt => Gt end);
             right; do 3 eexists; reflexivity.
      * right. do 3 eexists. exact Eb.
      * destruct (match (eb ?= -52)%Z with Eq => _ | Lt => Lt | Gt => Gt end);
          right; do 3 eexists; reflexivity.
Qed.

Lemma SFmul_nan_r (x : spec_float) : SF64mul x S754_nan = S754_nan.
Proof. destruct x; reflexivity. Qed.


(** On the page's heights the doubles give the index of the design
    document on every row, for stacks of up to 64 layers. *)
Lemma banding_agrees_page :
  forallb (fun n => forallb (banding_agrees n) page_heights) (seq 1 64) = true.
Proof. vm_compute. reflexivity. Qed.

Lemma row_index_page (n height y : nat) :
  (1 <= n <= 64)%nat -> In height page_heights -> (y < height)%nat ->
  Binary64.floorZ (row_index n height y) = Some (banding_index n height y).
Proof.
  intros Hn Hh Hy.
  pose proof banding_agrees_page as H.
  rewrite forallb_forall in H.
  specialize (H n ltac:(apply in_seq; lia)).
  rewrite forallb_forall in H. specialize (H height Hh).
  unfold banding_agrees in H. rewrite forallb_forall in H.
  specialize (H y ltac:(apply in_seq; lia)).
  destruct (Binary64.floorZ (row_index n height y)) as [z|]; [|discriminate H].
  apply Z.eqb_eq in H. rewrite H. reflexivity.
Qed.

Section DoubleFacts.
Variable Math_sin : float -> float.

Local Abbreviation apply_op := (Binary64.apply_op Math_sin).
Local Abbreviation run_ops := (Binary64.run_ops Math_sin).
Local Abbreviation coords := (Binary64.coords Math_sin).
Local Abbreviation layer_index := (Binary64.layer_index Math_sin).
Local Abbreviation pixel_byte := (Binary64.pixel_byte Math_sin).
Local Abbreviation byte_at := (Binary64.byte_at Math_sin).
Local Abbreviation generatePattern := (Binary64.generatePattern Math_sin).

Lemma generatePattern64_total (layers : list MaterialType)
    (ops : list Operation) (width height : nat) :
  layers <> [] ->
  (forall x y, (x < width)%nat -> (y < height)%nat ->
     is_Some (pixel_byte layers ops width height x y)) ->
  generatePattern true layers ops width height
  = Some {| cwidth := width; cheight := height;
            cdata := raster_bytes (byte_at layers ops width height)
                       width height |}.
Proof.
  intros Hne H. unfold Binary64.generatePattern. simpl.
  destruct layers as [|m layers]; [congruence|].
  unfold Binary64.pattern_data. rewrite raster_data_total by exact H.
  reflexivity.
Qed.

Lemma generatePattern64_ext (has_ctx : bool) (layers : list MaterialType)
    (ops1 ops2 : list Operation) (width height : nat) :
  (forall x y, (x < width)%nat -> (y < height)%nat ->
     layer_index layers ops1 width height x y
     = layer_index layers ops2 width height x y) ->
  generatePattern has_ctx layers ops1 width height
  = generatePattern has_ctx layers ops2 width height.
Proof.
  intros H. unfold Binary64.generatePattern.
  destruct (negb has_ctx); [reflexivity|].
  destruct layers as [|m layers]; [reflexivity|].
  unfold Binary64.pattern_data.
  rewrite (raster_data_ext _ (pixel_byte (m :: layers) ops2 width height));
    [reflexivity|].
  intros x y Hx Hy. unfold Binary64.pixel_byte. rewrite (H x y Hx Hy).
  reflexivity.
Qed.

Lemma run_ops64_without_addSheets (n : nat) (ops : list Operation)
    (st : float * float) :
  run_ops n (without_addSheets ops) st = run_ops n ops st.
Proof.
  revert st. induction ops as [|op ops IH]; intros st; [reflexivity|].
  unfold without_addSheets. fold (without_addSheets ops).
  destruct (is_addSheets op) eqn:E.
  - rewrite filter_cons_False by (rewrite E; discriminate).
    fold (without_addSheets ops).
    destruct op; try discriminate E. cbn [Binary64.run_ops fold_left].
    destruct st as [uu vv]. cbn [Binary64.apply_op]. apply IH.
  - rewrite filter_cons_True by exact E.
    fold (without_addSheets ops). cbn [Binary64.run_ops fold_left]. apply IH.
Qed.

(** C8.  [addSheets] entries do not affect the raster: the generator
    returns the same image, or throws alike, with them removed. *)
Theorem C8_addSheets_do_not_affect_raster
    (has_ctx : bool) (layers : list MaterialType) (ops : list Operation)
    (width height : nat) :
  generatePattern has_ctx layers ops width height
  = generatePattern has_ctx layers (without_addSheets ops) width height.
Proof.
  apply generatePattern64_ext. intros x y _ _.
  unfold Binary64.layer_index, Binary64.coords.
  rewrite run_ops64_without_addSheets. reflexivity.
Qed.

Lemma run_ops64_fst (n : nat) (ops : list Operation) (uu vv : float) :
  fst (run_ops n ops (uu, vv))
  = fold_left PrimFloat.mul (stretch_factors ops) uu.
Proof.
  revert uu vv. induction ops as [|op ops IH]; intros uu vv; [reflexivity|].
  change (run_ops n (op :: ops) (uu, vv))
    with (run_ops n ops (apply_op n (uu, vv) op)).
  destruct op; cbn [Binary64.apply_op]; rewrite IH; reflexivity.
Qed.

(** C9.  Only [stretch] changes the length coordinate: after any
    prefix of the operations [uu] is [x / width] multiplied, one after
    the other, by the factors of the stretch operations of that prefix,
    and every other kind of operation leaves [uu] as it was. *)
Theorem C9_only_stretch_moves_uu
    (layers : list MaterialType) (ops : list Operation)
    (width height x y k : nat) :
  let u := PrimFloat.div (Binary64.of_nat x) (Binary64.of_nat width) in
  fst (coords (length layers) (take k ops) width height x y)
    = fold_left PrimFloat.mul (stretch_factors (take k ops)) u
  /\ (forall (n : nat) (uu vv : float),
        (forall turns, fst (apply_op n (uu, vv) (twist turns)) = uu)
        /\ (forall spacing depth,
              fst (apply_op n (uu, vv) (ladder spacing depth)) = uu)
        /\ (forall radius spacing,
              fst (apply_op n (uu, vv) (raindrops radius spacing)) = uu)
        /\ (forall folds, fst (apply_op n (uu, vv) (wfolds folds)) = uu)
        /\ (forall times, fst (apply_op n (uu, vv) (fold times)) = uu)
        /\ (forall m count, fst (apply_op n (uu, vv) (addSheets m count)) = uu)
        /\ (forall factor,
              fst (apply_op n (uu, vv) (stretch factor))
              = PrimFloat.mul uu (Binary64.lit factor))).
Proof.
  intros u. split.
  - unfold Binary64.coords. apply run_ops64_fst.
  - intros n uu vv. repeat split.
Qed.

(** C4, as the code has it.  For a spacing of at least 0.0001 the
    ladder transform is t = (uu / spacing) mod 1,
    tri = 1 - |0.5 - t| * 2, vv - tri * 0.25 * depth, with [uu]
    unchanged. *)
Theorem C4_ladder_transform
    (n : nat) (uu vv : float) (spacing depth : Q) :
  PrimFloat.leb (Binary64.lit (1 # 10000)) (Binary64.lit spacing) = true ->
  apply_op n (uu, vv) (ladder spacing depth)
  = (uu, ladder_stated uu vv (Binary64.lit spacing) (Binary64.lit depth)).
Proof.
  intros Hs. cbn [Binary64.apply_op].
  rewrite (Math_max_floor _ Hs). reflexivity.
Qed.

Lemma layer_index64_no_ops (layers : list MaterialType)
    (width height x y : nat) :
  layer_index layers [] width height x y = row_index (length layers) height y.
Proof. reflexivity. Qed.


(** The fold touches [vv] only: every pixel of a row has the byte of
    the row. *)
Lemma pixel_byte64_fold2 (width height x y : nat) :
  pixel_byte (quickBase 5) [fold 2] width height x y = fold2_row height y.
Proof. reflexivity. Qed.

Lemma column64_fold2 (width height x n : nat) :
  fold2_bands height n = true -> (x < width)%nat ->
  exists c : Canvas,
    generatePattern true (quickBase 5) [fold 2] width height = Some c
    /\ cwidth c = width /\ cheight c = height
    /\ bands (column c x) = n.
Proof.
  intros H Hx. apply andb_prop in H. destruct H as [Hs Hb].
  rewrite forallb_forall in Hs. apply bool_decide_eq_true in Hb.
  eexists.
  rewrite generatePattern64_total;
    [|discriminate
     |intros x' y' _ Hy'; rewrite pixel_byte64_fold2;
      specialize (Hs y' ltac:(apply in_seq; lia));
      apply bool_decide_eq_true in Hs; exact Hs].
  split; [reflexivity|]. split; [reflexivity|]. split; [reflexivity|].
  unfold column. cbn [cheight].
  rewrite <- Hb. f_equal. apply map_ext_in. intros y Hy. apply in_seq in Hy.
  rewrite getPixel_raster by lia.
  unfold Binary64.byte_at. rewrite pixel_byte64_fold2. reflexivity.
Qed.

(** C5, as the code has it.  The quick-start billet of ten alternating
    layers, folded twice: down any vertical line of a raster 64, 128,
    256 or 512 pixels high, whatever its width, there are exactly 40
    bands. *)
Theorem C5_fold2_forty_bands (width height x : nat) :
  (x < width)%nat -> In height [64; 128; 256; 512]%nat ->
  exists c : Canvas,
    generatePattern true (quickBase 5) [fold 2] width height = Some c
    /\ cwidth c = width /\ cheight c = height
    /\ bands (column c x) = 40%nat.
Proof.
  intros Hx Hh. apply column64_fold2; [|exact Hx].
  destruct Hh as [<-|[<-|[<-|[<-|[]]]]]; vm_compute; reflexivity.
Qed.

(** C3.  With an empty stack the result is an image of the requested
    size, every pixel the fixed dark background, whatever the
    operations and the sine: no failure, and the operations are never
    looked at. *)
Theorem C3_empty_stack_background (ops : list Operation) (width height : nat) :
  (0 < width)%nat -> (0 < height)%nat ->
  exists c : Canvas,
    generatePattern true [] ops width height = Some c
    /\ cwidth c = width /\ cheight c = height
    /\ length (cdata c) = (width * height * 4)%nat
    /\ (forall x y, (x < width)%nat -> (y < height)%nat ->
          getPixel c x y = Some (17, 17, 17, 255)%Z)
    /\ (forall (sin' : float -> float) (ops' : list Operation),
          Binary64.generatePattern sin' true [] ops' width height = Some c).
Proof.
  intros Hw Hh. eexists. split; [reflexivity|]. simpl.
  split; [reflexivity|]. split; [reflexivity|].
  split; [rewrite length_fillRect; apply length_replicate|].
  split; [|reflexivity].
  intros x y Hx Hy.
  apply (getPixel_fillRect_all width height x y background); assumption.
Qed.
End DoubleFacts.

Section DoubleIdentity.
Variable Math_sin : float -> float.
Hypothesis Math_sin_zero : forall z, zero_float z -> zero_float (Math_sin z).

Lemma twist0_index (n : nat) (uu vv : float) :
  finite_float (PrimFloat.mul (PrimFloat.mul uu Binary64.PI) 2) ->
  let vv' := snd (Binary64.apply_op Math_sin n (uu, vv) (twist 0)) in
  Binary64.Math_floor (PrimFloat.mul (Binary64.wrap vv') (Binary64.of_nat n))
  = Binary64.Math_floor (PrimFloat.mul (Binary64.wrap vv) (Binary64.of_nat n)).
Proof.
  intros Hfin. cbn [Binary64.apply_op snd].
  change (Binary64.lit 0) with PrimFloat.zero.
  pose proof (zero_mul_half _ (Math_sin_zero _ (mul_zero_r _ Hfin))) as Hz.
  assert (Hcase : Prim2SF (Binary64.of_nat n) = S754_nan
                  \/ Prim2SF (Binary64.of_nat n) <> S754_nan).
  { destruct (Prim2SF (Binary64.of_nat n)); [right|right|left|right];
      congruence. }
  destruct Hcase as [En|Hb].
  - f_equal. apply Prim2SF_inj. rewrite !mul_spec, En, !SFmul_nan_r.
    reflexivity.
  - pose proof (zero_div _ _ Hz (Math_max_one _ Hb)) as Hz3.
    destruct (add_zero vv _ Hz3) as [-> | [H1 H2]]; [reflexivity|].
    rewrite (wrap_zero _ H1), (wrap_zero _ H2). reflexivity.
Qed.

Lemma layer_index64_app (layers : list MaterialType) (ops : list Operation)
    (op : Operation) (width height x y : nat) :
  Binary64.layer_index Math_sin layers (ops ++ [op]) width height x y
  = Binary64.Math_floor
      (PrimFloat.mul
         (Binary64.wrap
            (snd (Binary64.apply_op Math_sin (length layers)
                    (Binary64.coords Math_sin (length layers) ops
                       width height x y) op)))
         (Binary64.of_nat (length layers))).
Proof.
  unfold Binary64.layer_index, Binary64.coords, Binary64.run_ops.
  rewrite fold_left_app. reflexivity.
Qed.

End DoubleIdentity.




(** C4 as the design document words it fails below the floor of the
    divisor: with spacing 0.00005 and uu = 0.000025 the stated wave is
    at phase 0.5 and takes 0.25 from vv, but the code divides by 0.0001,
    is at phase 0.25 and takes 0.125. *)
Lemma C4_ladder_small_spacing_counterexample :
  let spacing := (1 # 20000)%Q in
  let depth := 1%Q in
  let uu := Binary64.lit (1 # 40000) in
  let vv := 0%float in
  (0 < spacing)%Q /\ (0 <= depth)%Q
  /\ PrimFloat.ltb 0 (Binary64.lit spacing) = true
  /\ Binary64.apply_op Binary64.sample_sin 10 (uu, vv) (ladder spacing depth)
     = (uu, (-0.125)%float)
  /\ ladder_stated uu vv (Binary64.lit spacing) (Binary64.lit depth)
     = (-0.25)%float
  /\ ~ (forall (Math_sin : float -> float) (n : nat) (uu vv : float)
           (spacing depth : Q),
          (0 < spacing)%Q -> (0 <= depth)%Q ->
          Binary64.apply_op Math_sin n (uu, vv) (ladder spacing depth)
          = (uu, ladder_stated uu vv (Binary64.lit spacing)
                   (Binary64.lit depth))).
Proof.
  cbv zeta. split; [reflexivity|]. split; [discriminate|].
  split; [vm_compute; reflexivity|].
  split; [vm_compute; reflexivity|]. split; [vm_compute; reflexivity|].
  intros H.
  specialize (H Binary64.sample_sin 10%nat (Binary64.lit (1 # 40000)) 0%float
                (1 # 20000)%Q 1%Q).
  assert (H1 : (0 < 1 # 20000)%Q) by reflexivity.
  assert (H2 : (0 <= 1)%Q) by discriminate.
  specialize (H H1 H2).
  apply (f_equal (fun p => Prim2SF (snd p))) in H.
  vm_compute in H. discriminate H.
Qed.

(** C5 as the design document words it fails: at width 64 and height 32
    a vertical line has 32 pixels, and the folded billet shows 25 bands
    on it, at every [x]. *)
Lemma C5_fold2_height32_counterexample :
  exists c : Canvas,
    Binary64.generatePattern Binary64.sample_sin true (quickBase 5) [fold 2]
      64 32 = Some c
    /\ cwidth c = 64%nat /\ cheight c = 32%nat
    /\ length (column c 0) = 32%nat
    /\ (forall x, (x < 64)%nat -> bands (column c x) = 25%nat)
    /\ bands (column c 0) <> 40%nat.
Proof.
  destruct (column64_fold2 Binary64.sample_sin 64 32 0 25)
    as (c & Hc & Hw & Hh & Hb0); [vm_compute; reflexivity | lia |].
  exists c. split; [exact Hc|]. split; [exact Hw|]. split; [exact Hh|].
  split; [unfold column; rewrite length_map, length_seq; exact Hh|].
  split; [|rewrite Hb0; discriminate].
  intros x Hx.
  destruct (column64_fold2 Binary64.sample_sin 64 32 x 25)
    as (c' & Hc' & _ & _ & Hb); [vm_compute; reflexivity | exact Hx |].
  rewrite Hc in Hc'. injection Hc' as <-. exact Hb.
Qed.

(** In doubles a raster exactly 40 pixels high does not resolve the 40
    bands: the wrap rounds, and a vertical line shows 24. *)
Lemma fold2_height40_double : fold2_bands 40 24 = true.
Proof. vm_compute. reflexivity. Qed.

(* ===================================================================== *)
(** ** Facts about the text functions *)

Module WebFacts.
Import Web.
Local Open Scope N_scope.

(** A check on every number below a bound is a check of the list of
    those numbers. *)
Lemma below_check (P : N -> bool) (n : nat) :
  forallb P (map N.of_nat (seq 0 n)) = true ->
  forall c, c < N.of_nat n -> P c = true.
Proof.
  intros H c Hc. rewrite forallb_forall in H. apply H.
  apply in_map_iff. exists (N.to_nat c). split; [lia|].
  apply in_seq. lia.
Qed.

Lemma hex_round_trip (b : N) :
  b < 256 ->
  hex_pair (hex_digit (b / 16)) (hex_digit (b mod 16)) = Some b
  /\ (hex_digit (b / 16) =? 117) = false.
Proof.
  intros Hb.
  pose proof (below_check
    (fun b => bool_decide (hex_pair (hex_digit (b / 16)) (hex_digit (b mod 16)) = Some b)
              && negb (hex_digit (b / 16) =? 117)) 256) as H.
  specialize (H ltac:(vm_compute; reflexivity) b Hb). cbv beta in H.
  apply andb_true_iff in H as [H1 H2].
  apply bool_decide_eq_true in H1. apply negb_true_iff in H2. split; assumption.
Qed.

Lemma unreserved_not_percent (c : N) :
  c < 128 -> (uri_unreserved c = true \/ escape_unreserved c = true) ->
  (c =? 37) = false.
Proof.
  intros Hc.
  pose proof (below_check
    (fun c => implb (uri_unreserved c || escape_unreserved c) (negb (c =? 37))) 128) as H.
  specialize (H ltac:(vm_compute; reflexivity) c Hc). cbv beta in H.
  intros [Hu | Hu]; rewrite Hu in H; simpl in H;
    rewrite ?orb_true_r in H; simpl in H; apply negb_true_iff in H; exact H.
Qed.

Lemma not_surrogate (c : N) :
  c < 128 -> is_low_surrogate c = false /\ is_high_surrogate c = false.
Proof.
  intros Hc. unfold is_low_surrogate, is_high_surrogate, between.
  split; apply andb_false_iff; left; apply N.leb_gt; lia.
Qed.

Lemma utf8_encode_ascii (c : N) : c < 128 -> utf8_encode c = [c].
Proof.
  intros Hc. unfold utf8_encode.
  destruct (c <? 128) eqn:E; [reflexivity|]. apply N.ltb_ge in E. lia.
Qed.

(** *** [encodeURIComponent] on 7-bit text *)

Lemma encodeURIComponent_ascii (s : list N) :
  ascii7 s -> encodeURIComponent s = Some (flat_map uri_unit s).
Proof.
  unfold encodeURIComponent. induction 1 as [|c s Hc Hs IH]; [reflexivity|].
  cbn [encode_from flat_map]. rewrite IH. unfold uri_unit.
  destruct (uri_unreserved c); [reflexivity|].
  destruct (not_surrogate c Hc) as [-> ->].
  rewrite utf8_encode_ascii by exact Hc. cbn [flat_map].
  rewrite app_nil_r. reflexivity.
Qed.

(** *** [unescape] undoes it *)

Lemma unescape_head_percent (b : N) (rest : list N) :
  b < 256 ->
  unescape_head (percent b ++ rest) = Some (b, 2%nat).
Proof.
  intros Hb. destruct (hex_round_trip b Hb) as [Hp Hu].
  unfold percent, unescape_head. cbn [app].
  change (37 =? 37) with true. cbv iota.
  destruct rest as [|x [|y [|z rest]]]; rewrite ?Hu, Hp; reflexivity.
Qed.

Lemma unescape_from_unit (c : N) (rest : list N) :
  c < 128 ->
  unescape_from 0 (uri_unit c ++ rest) = c :: unescape_from 0 rest.
Proof.
  intros Hc. unfold uri_unit. destruct (uri_unreserved c) eqn:Hu.
  - cbn [app unescape_from]. unfold unescape_head.
    rewrite (unreserved_not_percent c Hc (or_introl Hu)). reflexivity.
  - change (percent c ++ rest) with (37 :: ([hex_digit (c / 16); hex_digit (c mod 16)] ++ rest)).
    cbn [unescape_from].
    change (37 :: ([hex_digit (c / 16); hex_digit (c mod 16)] ++ rest))
      with (percent c ++ rest).
    rewrite unescape_head_percent by lia. reflexivity.
Qed.

Lemma unescape_uri_units (s : list N) :
  ascii7 s -> unescape (flat_map uri_unit s) = s.
Proof.
  unfold unescape. induction 1 as [|c s Hc Hs IH]; [reflexivity|].
  cbn [flat_map]. rewrite unescape_from_unit by exact Hc. rewrite IH. reflexivity.
Qed.

(** *** [decodeURIComponent] undoes [escape] *)

Lemma escape_ascii (s : list N) :
  ascii7 s -> escape s = flat_map escape_unit7 s.
Proof.
  unfold escape. induction 1 as [|c s Hc Hs IH]; [reflexivity|].
  cbn [flat_map]. rewrite IH. f_equal.
  unfold escape_unit, escape_unit7. destruct (escape_unreserved c); [reflexivity|].
  destruct (c <? 256) eqn:E; [reflexivity|]. apply N.ltb_ge in E. lia.
Qed.

Lemma decode_from_unit (c : N) (rest : list N) :
  c < 128 ->
  decode_from 0 (escape_unit7 c ++ rest) = cons c <$> decode_from 0 rest.
Proof.
  intros Hc. unfold escape_unit7. destruct (escape_unreserved c) eqn:Hu.
  - cbn [app decode_from].
    rewrite (unreserved_not_percent c Hc (or_intror Hu)). reflexivity.
  - destruct (hex_round_trip c ltac:(lia)) as [Hp _].
    unfold percent. cbn [app decode_from].
    change (37 =? 37) with true. cbv iota.
    unfold decode_head, read_percent.
    change (37 =? 37) with true. cbv iota. rewrite Hp.
    cbn [mbind option_bind].
    destruct (c <? 128) eqn:E; [|apply N.ltb_ge in E; lia].
    unfold utf16_encode.
    destruct (c <? 65536) eqn:E2; [|apply N.ltb_ge in E2; lia].
    reflexivity.
Qed.

Lemma decodeURIComponent_escape (s : list N) :
  ascii7 s -> decodeURIComponent (escape s) = Some s.
Proof.
  intros Hs. rewrite escape_ascii by exact Hs. unfold decodeURIComponent.
  induction Hs as [|c s Hc Hs IH]; [reflexivity|].
  cbn [flat_map]. rewrite decode_from_unit by exact Hc. rewrite IH. reflexivity.
Qed.
End WebFacts.

Module Base64Facts.
Import Web WebFacts.
Local Open Scope N_scope.

Lemma triple_ind (P : list N -> Prop) :
  P [] -> (forall a, P [a]) -> (forall a b, P [a; b]) ->
  (forall a b c r, P r -> P (a :: b :: c :: r)) ->
  forall l, P l.
Proof.
  intros H0 H1 H2 H3 l.
  assert (H : forall n l, (length l <= n)%nat -> P l).
  { clear l. induction n as [|n IH]; intros l Hl.
    - destruct l; [exact H0 | simpl in Hl; lia].
    - destruct l as [|a [|b [|c r]]]; auto.
      apply H3, IH. simpl in Hl. lia. }
  apply (H (length l)). lia.
Qed.

Lemma base64_char_facts (v : N) :
  v < 64 ->
  base64_value (base64_char v) = Some v
  /\ base64_char v < 128
  /\ (base64_char v =? 61) = false
  /\ is_ascii_whitespace (base64_char v) = false.
Proof.
  intros Hv.
  pose proof (below_check
    (fun v => bool_decide (base64_value (base64_char v) = Some v)
              && (base64_char v <? 128)
              && negb (base64_char v =? 61)
              && negb (is_ascii_whitespace (base64_char v))) 64) as H.
  specialize (H ltac:(vm_compute; reflexivity) v Hv). cbv beta in H.
  repeat (apply andb_true_iff in H as [H ?]).
  apply bool_decide_eq_true in H.
  repeat split; try assumption.
  - apply N.ltb_lt. assumption.
  - apply negb_true_iff. assumption.
  - apply negb_true_iff. assumption.
Qed.

Lemma sextets_lt (s : list N) : octets s -> Forall (fun v => v < 64) (sextets s).
Proof.
  induction s as [| a | a b | a b c r IH] using triple_ind; intros Hs.
  - constructor.
  - inversion_clear Hs as [|? ? Ha _]. cbn [sextets].
    repeat constructor; [apply N.Div0.div_lt_upper_bound; lia|].
    pose proof (N.mod_upper_bound a 4 ltac:(lia)). lia.
  - inversion_clear Hs as [|? ? Ha Hs']. inversion_clear Hs' as [|? ? Hb _].
    cbn [sextets].
    pose proof (N.mod_upper_bound a 4 ltac:(lia)).
    pose proof (N.mod_upper_bound b 16 ltac:(lia)).
    assert (b / 16 < 16) by (apply N.Div0.div_lt_upper_bound; lia).
    repeat constructor; [apply N.Div0.div_lt_upper_bound; lia | lia | lia].
  - inversion_clear Hs as [|? ? Ha Hs']. inversion_clear Hs' as [|? ? Hb Hs''].
    inversion_clear Hs'' as [|? ? Hc Hr].
    cbn [sextets].
    pose proof (N.mod_upper_bound a 4 ltac:(lia)).
    pose proof (N.mod_upper_bound b 16 ltac:(lia)).
    pose proof (N.mod_upper_bound c 64 ltac:(lia)).
    assert (b / 16 < 16) by (apply N.Div0.div_lt_upper_bound; lia).
    assert (c / 64 < 4) by (apply N.Div0.div_lt_upper_bound; lia).
    repeat (constructor; [first [apply N.Div0.div_lt_upper_bound; lia | lia]|]).
    apply IH, Hr.
Qed.

Lemma recombine (a k : N) : 0 < k -> a / k * k + a mod k = a.
Proof. intros Hk. rewrite (N.div_mod a k) at 3 by lia. lia. Qed.

Lemma join_low (hi lo k : N) : lo < k -> (hi * k + lo) / k = hi.
Proof.
  intros H. symmetry. apply (N.div_unique (hi * k + lo) k hi lo); lia.
Qed.

Lemma join_high (hi lo k : N) : lo < k -> (hi * k + lo) mod k = lo.
Proof.
  intros H. symmetry. apply (N.mod_unique (hi * k + lo) k hi lo); lia.
Qed.

(** The octets rebuilt from the six-bit groups are the octets. *)
Lemma base64_decode_sextets (s : list N) :
  octets s -> base64_decode (sextets s) = s.
Proof.
  induction s as [| a | a b | a b c r IH] using triple_ind; intros Hs.
  - reflexivity.
  - cbn [sextets base64_decode].
    rewrite (N.div_mul (a mod 4) 16) by lia.
    f_equal. apply (recombine a 4). lia.
  - cbn [sextets base64_decode].
    assert (Hb16 : b / 16 < 16).
    { inversion_clear Hs as [|? ? _ Hs']. inversion_clear Hs' as [|? ? Hb _].
      apply N.Div0.div_lt_upper_bound; lia. }
    rewrite (join_low (a mod 4) (b / 16) 16) by exact Hb16.
    rewrite (join_high (a mod 4) (b / 16) 16) by exact Hb16.
    rewrite (N.div_mul (b mod 16) 4) by lia.
    f_equal; [apply (recombine a 4); lia|].
    f_equal. apply (recombine b 16). lia.
  - inversion_clear Hs as [|? ? Ha Hs']. inversion_clear Hs' as [|? ? Hb Hs''].
    inversion_clear Hs'' as [|? ? Hc Hr].
    cbn [sextets base64_decode].
    assert (Hb16 : b / 16 < 16) by (apply N.Div0.div_lt_upper_bound; lia).
    assert (Hc64 : c / 64 < 4) by (apply N.Div0.div_lt_upper_bound; lia).
    pose proof (N.mod_upper_bound c 64 ltac:(lia)) as Hcm.
    rewrite (join_low (a mod 4) (b / 16) 16) by exact Hb16.
    rewrite (join_high (a mod 4) (b / 16) 16) by exact Hb16.
    rewrite (join_low (b mod 16) (c / 64) 4) by exact Hc64.
    rewrite (join_high (b mod 16) (c / 64) 4) by exact Hc64.
    rewrite IH by exact Hr.
    f_equal; [apply (recombine a 4); lia|].
    f_equal; [apply (recombine b 16); lia|].
    f_equal. apply (recombine c 64). lia.
Qed.

Lemma sextets_length (s : list N) :
  ((length (sextets s) + length (base64_padding (length s))) mod 4 = 0
   /\ length (sextets s) mod 4 <> 1)%nat.
Proof.
  induction s as [| a | a b | a b c r IH] using triple_ind;
    try (split; [reflexivity | discriminate]).
  destruct IH as [IH1 IH2]. cbn [sextets length].
  assert (E : base64_padding (S (S (S (length r)))) = base64_padding (length r)).
  { unfold base64_padding.
    replace (S (S (S (length r)))) with (length r + 1 * 3)%nat by lia.
    rewrite Nat.Div0.mod_add. reflexivity. }
  rewrite E. split.
  - replace (S (S (S (S (length (sextets r))))) + length (base64_padding (length r)))%nat
      with (length (sextets r) + length (base64_padding (length r)) + 1 * 4)%nat by lia.
    rewrite Nat.Div0.mod_add. exact IH1.
  - replace (S (S (S (S (length (sextets r))))))
      with (length (sextets r) + 1 * 4)%nat by lia.
    rewrite Nat.Div0.mod_add. exact IH2.
Qed.

Lemma padding_cases (n : nat) :
  base64_padding n = [] \/ base64_padding n = [61] \/ base64_padding n = [61; 61].
Proof.
  unfold base64_padding. destruct (n mod 3)%nat as [|[|?]]; auto.
Qed.

Lemma strip_padding_encoded (body pad : list N) :
  Forall (fun c => (c =? 61) = false) body ->
  (pad = [] \/ pad = [61] \/ pad = [61; 61]) ->
  (length (body ++ pad) mod 4 = 0)%nat ->
  strip_padding (body ++ pad) = body.
Proof.
  intros Hbody Hpad Hlen. unfold strip_padding.
  rewrite Hlen. cbn [Nat.eqb]. rewrite rev_app_distr.
  assert (Hrev : Forall (fun c => (c =? 61) = false) (rev body)).
  { apply Forall_forall. intros c Hc. rewrite Forall_forall in Hbody.
    apply Hbody. apply list_elem_of_In. apply in_rev.
    apply list_elem_of_In. exact Hc. }
  destruct Hpad as [-> | [-> | ->]]; cbn [rev app].
  - rewrite app_nil_r.
    destruct (rev body) as [|c r] eqn:E; [reflexivity|].
    inversion_clear Hrev as [|? ? Hc _]. rewrite Hc. reflexivity.
  - change (61 =? 61) with true. cbv iota.
    destruct (rev body) as [|c r] eqn:E.
    + apply (f_equal (@rev N)) in E. rewrite rev_involutive in E. exact (eq_sym E).
    + inversion_clear Hrev as [|? ? Hc _]. rewrite Hc, <- E.
      apply rev_involutive.
  - change (61 =? 61) with true. cbv iota. apply rev_involutive.
Qed.

Lemma mapM_base64_value (vals : list N) :
  Forall (fun v => v < 64) vals ->
  mapM base64_value (map base64_char vals) = Some vals.
Proof.
  intros H. apply mapM_Some. induction H as [|v vals Hv _ IH]; [constructor|].
  cbn [map]. constructor; [apply base64_char_facts, Hv | exact IH].
Qed.

Lemma base64_body_facts (vals : list N) :
  Forall (fun v => v < 64) vals ->
  Forall (fun c => (c =? 61) = false) (map base64_char vals)
  /\ Forall (fun c => is_ascii_whitespace c = false) (map base64_char vals)
  /\ ascii7 (map base64_char vals).
Proof.
  intros H. unfold ascii7. rewrite !Forall_map.
  repeat split; eapply Forall_impl; try exact H; intros v Hv;
    apply base64_char_facts; exact Hv.
Qed.

Lemma filter_all {A : Type} (P : A -> Prop) `{forall x, Decision (P x)}
    (l : list A) :
  Forall P l -> filter P l = l.
Proof.
  induction 1 as [|x l Hx _ IH]; [reflexivity|].
  rewrite filter_cons_True by exact Hx. rewrite IH. reflexivity.
Qed.

Lemma btoa_octets (s : list N) : octets s -> btoa s = Some (base64_encode s).
Proof.
  intros Hs. unfold btoa.
  assert (E : forallb (fun c => c <? 256) s = true).
  { apply forallb_forall. intros c Hc. apply N.ltb_lt.
    unfold octets in Hs. rewrite Forall_forall in Hs.
    apply Hs. apply list_elem_of_In. exact Hc. }
  rewrite E. reflexivity.
Qed.

Lemma base64_encode_ascii (s : list N) : octets s -> ascii7 (base64_encode s).
Proof.
  intros Hs. unfold base64_encode. apply Forall_app. split.
  - apply base64_body_facts, sextets_lt, Hs.
  - destruct (padding_cases (length s)) as [-> | [-> | ->]];
      repeat constructor.
Qed.

Lemma base64_encode_nonempty (c : N) (s : list N) : base64_encode (c :: s) <> [].
Proof.
  unfold base64_encode. destruct s as [|b [|d r]]; discriminate.
Qed.

(** [atob] undoes [btoa]. *)
Theorem atob_base64_encode (s : list N) :
  octets s -> atob (base64_encode s) = Some s.
Proof.
  intros Hs. pose proof (sextets_lt s Hs) as Hv.
  destruct (base64_body_facts _ Hv) as (H61 & Hws & _).
  destruct (sextets_length s) as [Hl4 Hl1].
  unfold atob, base64_encode.
  rewrite filter_all.
  - rewrite strip_padding_encoded;
      [| exact H61 | apply padding_cases
       | rewrite length_app, length_map; exact Hl4].
    rewrite length_map.
    destruct (length (sextets s) mod 4 =? 1)%nat eqn:E;
      [apply Nat.eqb_eq in E; contradiction|].
    rewrite mapM_base64_value by exact Hv. cbn [mbind option_bind].
    rewrite base64_decode_sextets by exact Hs. reflexivity.
  - apply Forall_app. split; [exact Hws|].
    destruct (padding_cases (length s)) as [-> | [-> | ->]];
      repeat constructor.
Qed.

Lemma ascii7_octets (s : list N) : ascii7 s -> octets s.
Proof.
  intros H. eapply Forall_impl; [exact H|]. intros c Hc. cbv beta in *. lia.
Qed.
End Base64Facts.

Module QueryFacts.
Import Web WebFacts.
Local Open Scope N_scope.

Lemma uri_unit_chars (c : N) :
  c < 128 ->
  Forall (fun u => u < 128 /\ (u =? 38) = false /\ (u =? 43) = false) (uri_unit c).
Proof.
  intros Hc.
  pose proof (below_check
    (fun c => forallb (fun u => (u <? 128) && negb (u =? 38) && negb (u =? 43))
                      (uri_unit c)) 128) as H.
  specialize (H ltac:(vm_compute; reflexivity) c Hc). cbv beta in H.
  rewrite forallb_forall in H. apply Forall_forall. intros u Hu.
  apply list_elem_of_In in Hu. specialize (H u Hu).
  repeat (apply andb_true_iff in H as [H ?]).
  repeat split; [apply N.ltb_lt | apply negb_true_iff | apply negb_true_iff];
    assumption.
Qed.

Lemma uri_units_chars (s : list N) :
  ascii7 s ->
  Forall (fun u => u < 128 /\ (u =? 38) = false /\ (u =? 43) = false)
         (flat_map uri_unit s).
Proof.
  induction 1 as [|c s Hc _ IH]; [constructor|].
  cbn [flat_map]. apply Forall_app. split; [apply uri_unit_chars, Hc | exact IH].
Qed.

Lemma usv_utf8_ascii (s : list N) : ascii7 s -> usv_utf8 s = s.
Proof.
  unfold usv_utf8. induction 1 as [|c s Hc _ IH]; [reflexivity|].
  cbn [usv_utf8_from]. destruct (not_surrogate c Hc) as [-> ->].
  rewrite utf8_encode_ascii by exact Hc. rewrite IH. reflexivity.
Qed.

Lemma utf8_decode_ascii (s : list N) : ascii7 s -> utf8_decode s = s.
Proof.
  unfold utf8_decode. induction 1 as [|c s Hc _ IH]; [reflexivity|].
  cbn [utf8_decode_from]. unfold utf8_step.
  change (u_needed utf8_start =? 0) with true. cbv iota.
  unfold utf8_lead. destruct (c <? 128) eqn:E; [|apply N.ltb_ge in E; lia].
  rewrite IH. reflexivity.
Qed.

Lemma plus_to_space_none (s : list N) :
  Forall (fun u => (u =? 43) = false) s -> plus_to_space s = s.
Proof.
  unfold plus_to_space. induction 1 as [|c s Hc _ IH]; [reflexivity|].
  cbn [map]. rewrite Hc, IH. reflexivity.
Qed.

Lemma split_on_none (sep : N) (s : list N) :
  Forall (fun u => (u =? sep) = false) s -> split_on sep s = [s].
Proof.
  induction 1 as [|c s Hc _ IH]; [reflexivity|].
  cbn [split_on]. rewrite IH, Hc. reflexivity.
Qed.

Lemma read_percent_percent (b : N) (rest : list N) :
  b < 256 -> read_percent (percent b ++ rest) = Some (b, rest).
Proof.
  intros Hb. destruct (hex_round_trip b Hb) as [Hp _].
  unfold percent, read_percent. cbn [app].
  change (37 =? 37) with true. cbv iota. rewrite Hp. reflexivity.
Qed.

Lemma read_percent_other (c : N) (rest : list N) :
  (c =? 37) = false -> read_percent (c :: rest) = None.
Proof.
  intros Hc. unfold read_percent.
  destruct rest as [|a [|b r]]; rewrite ?Hc; reflexivity.
Qed.

Lemma percent_decode_unit (c : N) (rest : list N) :
  c < 128 ->
  percent_decode_from 0 (uri_unit c ++ rest) = c :: percent_decode_from 0 rest.
Proof.
  intros Hc. unfold uri_unit. destruct (uri_unreserved c) eqn:Hu.
  - cbn [app percent_decode_from].
    rewrite read_percent_other; [reflexivity|].
    apply (unreserved_not_percent c Hc (or_introl Hu)).
  - change (percent c ++ rest)
      with (37 :: ([hex_digit (c / 16); hex_digit (c mod 16)] ++ rest)).
    cbn [percent_decode_from].
    change (37 :: ([hex_digit (c / 16); hex_digit (c mod 16)] ++ rest))
      with (percent c ++ rest).
    rewrite read_percent_percent by lia. reflexivity.
Qed.

Lemma percent_decode_uri_units (s : list N) :
  ascii7 s -> percent_decode (flat_map uri_unit s) = s.
Proof.
  unfold percent_decode. induction 1 as [|c s Hc _ IH]; [reflexivity|].
  cbn [flat_map]. rewrite percent_decode_unit by exact Hc. rewrite IH. reflexivity.
Qed.

(** The value of a form field read back is the text that
    [encodeURIComponent] was given. *)
Lemma form_decode_uri_units (s : list N) :
  ascii7 s -> form_decode (flat_map uri_unit s) = s.
Proof.
  intros Hs. unfold form_decode.
  rewrite plus_to_space_none.
  - rewrite percent_decode_uri_units by exact Hs.
    apply utf8_decode_ascii, Hs.
  - eapply Forall_impl; [apply uri_units_chars, Hs|].
    intros u (_ & _ & H). exact H.
Qed.

(** [URLSearchParams] reads the token of the link back as the text
    that was percent-encoded into it. *)
Theorem URLSearchParams_get_token (s : list N) :
  ascii7 s ->
  URLSearchParams_get (of_string "?recipe=" ++ flat_map uri_unit s)
                      (of_string "recipe") = Some s.
Proof.
  intros Hs. pose proof (uri_units_chars s Hs) as Hu.
  unfold URLSearchParams_get.
  change (of_string "?recipe=" ++ flat_map uri_unit s)
    with (63 :: (of_string "recipe=" ++ flat_map uri_unit s)).
  change (63 =? 63) with true. cbv iota.
  rewrite usv_utf8_ascii.
  2:{ apply Forall_app. split; [repeat constructor|].
      eapply Forall_impl; [exact Hu|]. intros u (H & _). exact H. }
  unfold urlencoded_parse. rewrite split_on_none.
  2:{ apply Forall_app. split; [repeat constructor|].
      eapply Forall_impl; [exact Hu|]. intros u (_ & H & _). exact H. }
  cbn [flat_map].
  change (of_string "recipe=" ++ flat_map uri_unit s)
    with (114 :: 101 :: 99 :: 105 :: 112 :: 101 :: 61 :: flat_map uri_unit s).
  cbn [cut_at N.eqb Pos.eqb mbind option_bind default].
  cbv beta iota delta [id].
  rewrite form_decode_uri_units by exact Hs.
  cbn [app List.find fst snd].
  change (form_decode [114; 101; 99; 105; 112; 101]) with (of_string "recipe").
  rewrite bool_decide_eq_true_2 by reflexivity. reflexivity.
Qed.
End QueryFacts.

Module TextFacts.
Import Text Web WebFacts Share.

Lemma of_string_app (a b : string) :
  of_string (a ++ b)%string = of_string a ++ of_string b.
Proof.
  unfold of_string. induction a as [|c a IH]; [reflexivity|].
  cbn [String.append list_ascii_of_string map app]. rewrite IH. reflexivity.
Qed.

Lemma ascii_str_app (a b : string) :
  ascii_str a -> ascii_str b -> ascii_str (a ++ b)%string.
Proof.
  unfold ascii_str, ascii7. intros Ha Hb. rewrite of_string_app.
  apply Forall_app. split; assumption.
Qed.

Lemma ascii_str_cons (c : ascii) (s : string) :
  (N_of_ascii c < 128)%N -> ascii_str s -> ascii_str (String c s).
Proof. intros Hc Hs. constructor; assumption. Qed.

Lemma ascii_str_tail (c : ascii) (s : string) :
  ascii_str (String c s) -> ascii_str s.
Proof. intros H. inversion H. assumption. Qed.

Lemma ascii_str_head (c : ascii) (s : string) :
  ascii_str (String c s) -> (N_of_ascii c < 128)%N.
Proof. intros H. inversion H. assumption. Qed.

Lemma ascii_str_empty : ascii_str EmptyString.
Proof. constructor. Qed.

Lemma ascii_str_literal (s : string) :
  forallb (fun c => (c <? 128)%N) (of_string s) = true -> ascii_str s.
Proof.
  intros H. apply Forall_forall. intros c Hc.
  rewrite forallb_forall in H. apply N.ltb_lt, H, list_elem_of_In, Hc.
Qed.

Lemma ascii_str_substring (s : string) (n m : nat) :
  ascii_str s -> ascii_str (substring n m s).
Proof.
  revert n m. induction s as [|c s IH]; intros n m Hs.
  - destruct n, m; exact Hs.
  - destruct n as [|n].
    + destruct m as [|m]; [apply ascii_str_empty|].
      cbn [substring]. apply ascii_str_cons;
        [apply (ascii_str_head c s Hs) | apply IH, (ascii_str_tail c s Hs)].
    + cbn [substring]. apply IH, (ascii_str_tail c s Hs).
Qed.

Lemma ascii_str_uint (d : Decimal.uint) : ascii_str (NilEmpty.string_of_uint d).
Proof.
  induction d; cbn [NilEmpty.string_of_uint];
    try apply ascii_str_empty; (apply ascii_str_cons; [reflexivity | assumption]).
Qed.

Lemma ascii_str_digits (z : Z) : ascii_str (digits z).
Proof.
  unfold digits, NilZero.string_of_uint.
  destruct (N.to_uint (Z.to_N z)) eqn:E; try (rewrite <- E; apply ascii_str_uint).
  repeat constructor.
Qed.

Lemma ascii_str_zeros (n : nat) : ascii_str (zeros n).
Proof.
  induction n as [|n IH]; [apply ascii_str_empty|].
  apply ascii_str_cons; [reflexivity | exact IH].
Qed.

(** Closes the goal that a text put together from literals, digits
    and pieces of them is 7-bit. *)
Ltac ascii_parts :=
  repeat first
    [ apply ascii_str_app
    | apply ascii_str_digits
    | apply ascii_str_zeros
    | apply ascii_str_substring
    | assumption
    | (apply ascii_str_cons; [reflexivity|])
    | apply ascii_str_empty ].

Lemma ascii_str_positive (q : Q) : ascii_str (positive_toString q).
Proof.
  unfold positive_toString. destruct (significand q) as [s n].
  repeat match goal with
         | |- context [if ?b then _ else _] => destruct b
         end; unfold take, drop; ascii_parts.
Qed.

Lemma ascii_str_number (q : Q) : ascii_str (Number_toString q).
Proof.
  unfold Number_toString.
  destruct (Qeq_bool q 0); [ascii_parts|].
  destruct (Qle_bool 0 q); [apply ascii_str_positive|].
  apply ascii_str_app; [ascii_parts | apply ascii_str_positive].
Qed.

Lemma ascii_str_join (sep : string) (items : list string) :
  ascii_str sep -> Forall ascii_str items -> ascii_str (join sep items).
Proof.
  intros Hsep. induction 1 as [|a items Ha Hi IH]; [apply ascii_str_empty|].
  destruct items as [|b items]; [exact Ha|].
  change (join sep (a :: b :: items)) with (a ++ sep ++ join sep (b :: items))%string.
  ascii_parts.
Qed.

Lemma ascii_str_material (m : MaterialType) : ascii_str (material_id m).
Proof. destruct m; apply ascii_str_literal; reflexivity. Qed.

Lemma ascii_str_json_string (s : string) : ascii_str s -> ascii_str (json_string s).
Proof. intros Hs. unfold json_string, quote. ascii_parts. Qed.

Lemma ascii_str_json_member (k v : string) :
  ascii_str k -> ascii_str v -> ascii_str (json_member k v).
Proof.
  intros Hk Hv. unfold json_member.
  apply ascii_str_app; [apply ascii_str_json_string, Hk | ascii_parts].
Qed.

Lemma ascii_str_json_object (members : list string) :
  Forall ascii_str members -> ascii_str (json_object members).
Proof.
  intros H. unfold json_object.
  pose proof (ascii_str_join "," members ltac:(ascii_parts) H). ascii_parts.
Qed.

Lemma ascii_str_json_array (items : list string) :
  Forall ascii_str items -> ascii_str (json_array items).
Proof.
  intros H. unfold json_array.
  pose proof (ascii_str_join "," items ltac:(ascii_parts) H). ascii_parts.
Qed.

Lemma ascii_str_json_kind (k : string) : ascii_str k -> ascii_str (json_kind k).
Proof.
  intros Hk. unfold json_kind.
  apply ascii_str_json_member; [ascii_parts | apply ascii_str_json_string, Hk].
Qed.

Lemma ascii_str_json_number (k : string) (q : Q) :
  ascii_str k -> ascii_str (json_number k q).
Proof.
  intros Hk. unfold json_number.
  apply ascii_str_json_member; [exact Hk | apply ascii_str_number].
Qed.

Lemma ascii_str_kind_member (k : string) :
  forallb (fun c => (c <? 128)%N) (of_string k) = true ->
  ascii_str (json_kind k).
Proof. intros H. apply ascii_str_json_kind, ascii_str_literal, H. Qed.

Lemma ascii_str_number_member (k : string) (q : Q) :
  forallb (fun c => (c <? 128)%N) (of_string k) = true ->
  ascii_str (json_number k q).
Proof. intros H. apply ascii_str_json_number, ascii_str_literal, H. Qed.

Lemma ascii_str_json_op (op : Operation) : ascii_str (json_op op).
Proof.
  destruct op; cbn [json_op]; apply ascii_str_json_object.
  - apply List.Forall_cons; [apply ascii_str_kind_member; reflexivity|].
    apply List.Forall_cons.
    { apply ascii_str_json_member; [apply ascii_str_literal; reflexivity|].
      apply ascii_str_json_string, ascii_str_material. }
    apply List.Forall_cons; [apply ascii_str_number_member; reflexivity|].
    apply List.Forall_nil.
  - apply List.Forall_cons; [apply ascii_str_kind_member; reflexivity|].
    apply List.Forall_cons; [apply ascii_str_number_member; reflexivity|].
    apply List.Forall_nil.
  - apply List.Forall_cons; [apply ascii_str_kind_member; reflexivity|].
    apply List.Forall_cons; [apply ascii_str_number_member; reflexivity|].
    apply List.Forall_cons; [apply ascii_str_number_member; reflexivity|].
    apply List.Forall_nil.
  - apply List.Forall_cons; [apply ascii_str_kind_member; reflexivity|].
    apply List.Forall_cons; [apply ascii_str_number_member; reflexivity|].
    apply List.Forall_cons; [apply ascii_str_number_member; reflexivity|].
    apply List.Forall_nil.
  - apply List.Forall_cons; [apply ascii_str_kind_member; reflexivity|].
    apply List.Forall_cons; [apply ascii_str_number_member; reflexivity|].
    apply List.Forall_nil.
  - apply List.Forall_cons; [apply ascii_str_kind_member; reflexivity|].
    apply List.Forall_cons; [apply ascii_str_number_member; reflexivity|].
    apply List.Forall_nil.
  - apply List.Forall_cons; [apply ascii_str_kind_member; reflexivity|].
    apply List.Forall_cons; [apply ascii_str_number_member; reflexivity|].
    apply List.Forall_nil.
Qed.

(** The JSON text of a recipe is 7-bit text. *)
Theorem JSON_stringify_ascii (r : Recipe) :
  ascii7 (of_string (JSON_stringify r)).
Proof.
  change (ascii_str (JSON_stringify r)). unfold JSON_stringify.
  apply ascii_str_json_object.
  apply List.Forall_cons; [|apply List.Forall_cons; [|apply List.Forall_nil]].
  - apply ascii_str_json_member; [apply ascii_str_literal; reflexivity|].
    apply ascii_str_json_array. apply Forall_map, Forall_forall.
    intros m _. apply ascii_str_json_string, ascii_str_material.
  - apply ascii_str_json_member; [apply ascii_str_literal; reflexivity|].
    apply ascii_str_json_array. apply Forall_map, Forall_forall.
    intros op _. apply ascii_str_json_op.
Qed.
End TextFacts.

Section ShareClaims.
Import Web WebFacts Base64Facts QueryFacts TextFacts Share.

Variable JSON_parse : list N -> option Recipe.

(** The token of a recipe: the Base64 text of its JSON text, with the
    characters ['+'], ['/'] and ['='] percent-encoded. *)
Lemma encode_token (r : Recipe) :
  encode r
  = Some (flat_map uri_unit (base64_encode (of_string (JSON_stringify r)))).
Proof.
  pose proof (JSON_stringify_ascii r) as Ha. unfold encode.
  rewrite encodeURIComponent_ascii by exact Ha. cbn [mbind option_bind].
  rewrite unescape_uri_units by exact Ha.
  rewrite btoa_octets by (apply ascii7_octets, Ha). cbn [mbind option_bind].
  apply encodeURIComponent_ascii, base64_encode_ascii, ascii7_octets, Ha.
Qed.

(** [decode] gives the Base64 text of a recipe back to [JSON.parse]
    as the JSON text it was made from. *)
Lemma decode_base64 (r : Recipe) :
  decode JSON_parse (base64_encode (of_string (JSON_stringify r)))
  = JSON_parse (of_string (JSON_stringify r)).
Proof.
  pose proof (JSON_stringify_ascii r) as Ha. unfold decode.
  rewrite atob_base64_encode by (apply ascii7_octets, Ha).
  cbn [mbind option_bind].
  rewrite decodeURIComponent_escape by exact Ha. reflexivity.
Qed.

Lemma JSON_stringify_nonempty (r : Recipe) :
  exists c s, of_string (JSON_stringify r) = c :: s.
Proof. unfold JSON_stringify, json_object. eexists _, _. reflexivity. Qed.

End ShareClaims.



(* ===================================================================== *)
(** ** The instruction text *)

Section InstructionClaims.
Import Text.
Local Open Scope string_scope.

Lemma instructions_from (f : Operation -> string) (ops : list Operation)
    (acc : list string) :
  fold_left (fun lines op => app lines [f op]) ops acc = app acc (map f ops).
Proof.
  revert acc. induction ops as [|op ops IH]; intros acc.
  - cbn [fold_left map]. rewrite app_nil_r. reflexivity.
  - cbn [fold_left map]. rewrite IH, <- app_assoc. reflexivity.
Qed.

(** One line per operation, in order. *)
Lemma instructionsFromOps_map (ops : list Operation) :
  instructionsFromOps ops = map instruction_line ops.
Proof. unfold instructionsFromOps. apply instructions_from. Qed.


(** The checks that the page runs on [instructionsFromOps] when it
    loads hold. *)
Lemma smoke_tests_hold :
  (exists l0 l1,
      instructionsFromOps [addSheets M1084 3; stretch 2] = [l0; l1]
      /\ includes l0 "Stack 3" = true /\ includes l1 "×2" = true)
  /\ instructionsFromOps [] = []
  /\ (exists l0,
        instructionsFromOps [fold 2] = [l0]
        /\ includes (toLowerCase l0) "fold billet 2×" = true).
Proof.
  split; [eexists _, _; repeat split; vm_compute; reflexivity|].
  split; [reflexivity|].
  eexists; repeat split; vm_compute; reflexivity.
Qed.

(** The editor's sentence for a fold has another shape: the check of
    the fold line would not hold on it. *)
Lemma previewLine_is_another_text :
  previewLine (fold 2) = "Fold billet ×2 (≈ ×4 layers)."
  /\ includes (toLowerCase (previewLine (fold 2))) "fold billet 2×" = false
  /\ previewLine (twist 1) = "Twist billet ~1.00 turn(s) (360°).".
Proof. repeat split; vm_compute; reflexivity. Qed.
End InstructionClaims.


(* ===================================================================== *)
(** ** The statements on concrete inputs *)

Lemma exact_banding_example :
  exists (c : Canvas) (m : MaterialType),
    generatePattern sample_sin sample_sqrt true [M1084; M15N20; M1095] [] 4 6
      = Some c
    /\ cwidth c = 4%nat /\ cheight c = 6%nat
    /\ layer_index sample_sin sample_sqrt [M1084; M15N20; M1095] [] 4 6 1 5
       = Qfloor (JS.rem (inject_Z (Z.of_nat 5) / inject_Z (Z.of_nat 6)) 1
                 * inject_Z (Z.of_nat 3))
    /\ [M1084; M15N20; M1095]
         !! Z.to_nat (Qfloor (JS.rem (inject_Z (Z.of_nat 5) / inject_Z (Z.of_nat 6)) 1
                              * inject_Z (Z.of_nat 3))) = Some m
    /\ getPixel c 1 5
       = Some (JS.ToUint8Clamp (shade m), JS.ToUint8Clamp (shade m),
               JS.ToUint8Clamp (shade m), 255%Z).
Proof.
  apply (exact_banding sample_sin sample_sqrt
           [M1084; M15N20; M1095] 4 6 1 5); [discriminate | lia | lia].
Defined.


Lemma exact_empty_stack_example :
  exists c : Canvas,
    generatePattern sample_sin sample_sqrt true [] [twist 1; fold 2] 16 8 = Some c
    /\ cwidth c = 16%nat /\ cheight c = 8%nat
    /\ length (cdata c) = (16 * 8 * 4)%nat
    /\ (forall x y, (x < 16)%nat -> (y < 8)%nat ->
          getPixel c x y = Some (17, 17, 17, 255)%Z)
    /\ (forall (sin' sqrt' : Q -> Q) (ops' : list Operation),
          generatePattern sin' sqrt' true [] ops' 16 8 = Some c).
Proof.
  apply (exact_empty_stack_background sample_sin sample_sqrt [twist 1; fold 2] 16 8);
    lia.
Defined.

Lemma exact_ladder_transform_example :
  fst (apply_op sample_sin sample_sqrt 10 (3 # 10, 1 # 2) (ladder (8 # 100) (6 # 10)))
    = 3 # 10
  /\ snd (apply_op sample_sin sample_sqrt 10 (3 # 10, 1 # 2) (ladder (8 # 100) (6 # 10)))
     == (1 # 2) - ladder_tri (JS.rem ((3 # 10) / (8 # 100)) 1) * (1 # 4) * (6 # 10).
Proof.
  apply (exact_ladder_transform sample_sin sample_sqrt 10 (3 # 10) (1 # 2)
           (8 # 100) (6 # 10)).
  vm_compute. discriminate.
Defined.

Lemma exact_fold2_forty_bands_example :
  exists c : Canvas,
    generatePattern sample_sin sample_sqrt true (quickBase 5) [fold 2] 1024 512
      = Some c
    /\ cwidth c = 1024%nat /\ cheight c = 512%nat
    /\ bands (column c 700) = 40%nat.
Proof.
  apply (exact_fold2_forty_bands sample_sin sample_sqrt 1024 512 700); lia.
Defined.

Lemma sample_sin_zero (q : Q) : q == 0 -> sample_sin q == 0.
Proof. intros Hq. unfold sample_sin. rewrite Hq. reflexivity. Qed.

Lemma exact_identity_parameters_example :
  let layers := quickBase 5 in
  let ops := [fold 2; stretch (14 # 10); ladder (1 # 10) (5 # 10)] in
  generatePattern sample_sin sample_sqrt true layers (ops ++ [twist 0]) 8 8
    = generatePattern sample_sin sample_sqrt true layers ops 8 8
  /\ generatePattern sample_sin sample_sqrt true layers (ops ++ [fold 0]) 8 8
    = generatePattern sample_sin sample_sqrt true layers ops 8 8
  /\ generatePattern sample_sin sample_sqrt true layers (ops ++ [stretch 1]) 8 8
    = generatePattern sample_sin sample_sqrt true layers ops 8 8.
Proof.
  apply (exact_identity_parameters_are_noops sample_sin sample_sqrt true
           (quickBase 5) [fold 2; stretch (14 # 10); ladder (1 # 10) (5 # 10)] 8 8).
  intros q Hq. unfold sample_sin. rewrite Hq. reflexivity.
Defined.

Lemma C3_empty_stack_background_witness :
  exists c : Canvas,
    Binary64.generatePattern Binary64.sample_sin true [] [twist 1; fold 2] 16 8
    = Some c
    /\ cwidth c = 16%nat /\ cheight c = 8%nat
    /\ length (cdata c) = (16 * 8 * 4)%nat
    /\ (forall x y, (x < 16)%nat -> (y < 8)%nat ->
          getPixel c x y = Some (17, 17, 17, 255)%Z)
    /\ (forall (sin' : float -> float) (ops' : list Operation),
          Binary64.generatePattern sin' true [] ops' 16 8 = Some c).
Proof.
  apply (C3_empty_stack_background Binary64.sample_sin [twist 1; fold 2] 16 8);
    lia.
Defined.

Lemma C4_ladder_transform_witness :
  Binary64.apply_op Binary64.sample_sin 10
    (Binary64.lit (3 # 10), Binary64.lit (1 # 2)) (ladder (1 # 10) (5 # 10))
  = (Binary64.lit (3 # 10),
     ladder_stated (Binary64.lit (3 # 10)) (Binary64.lit (1 # 2))
       (Binary64.lit (1 # 10)) (Binary64.lit (5 # 10))).
Proof.
  apply (C4_ladder_transform Binary64.sample_sin 10
           (Binary64.lit (3 # 10)) (Binary64.lit (1 # 2)) (1 # 10) (5 # 10)).
  vm_compute. reflexivity.
Defined.

Lemma C5_fold2_forty_bands_witness :
  exists c : Canvas,
    Binary64.generatePattern Binary64.sample_sin true (quickBase 5) [fold 2]
      1024 512 = Some c
    /\ cwidth c = 1024%nat /\ cheight c = 512%nat
    /\ bands (column c 700) = 40%nat.
Proof.
  apply (C5_fold2_forty_bands Binary64.sample_sin 1024 512 700);
    [lia | simpl; tauto].
Defined.


Lemma sample_sin64_zero (z : float) :
  zero_float z -> zero_float (Binary64.sample_sin z).
Proof.
  intros H. destruct (zero_float_cases z H) as [-> | ->];
    eexists; vm_compute; reflexivity.
Qed.


(* ===================================================================== *)
(** * Further properties of the code *)

(** ** Undo and redo *)

Module HistoryFacts.
Import App.

Lemma undo_commit (nl : option (list MaterialType))
    (no : option (list Operation)) (a : Model) :
  undo (commit nl no a)
  = {| layers := layers a; ops := ops a; past := past a;
       future := [snapshot (commit nl no a)] |}.
Proof.
  unfold undo. cbn [commit past]. rewrite last_snoc. cbn.
  rewrite removelast_last. reflexivity.
Qed.

Lemma past_snoc (a : Model) :
  past a <> [] -> exists l x, past a = l ++ [x].
Proof.
  intros H. destruct (exists_last H) as (l & x & E). eauto.
Qed.

Lemma redo_undo (a : Model) : past a <> [] -> redo (undo a) = a.
Proof.
  intros H. destruct (past_snoc a H) as (l & x & E).
  destruct a as [la oa pa fa]. cbn in E. subst pa.
  unfold undo. cbn [past]. rewrite last_snoc. cbn.
  rewrite removelast_last. destruct x. reflexivity.
Qed.

Lemma undo_redo (a : Model) : future a <> [] -> undo (redo a) = a.
Proof.
  intros H. destruct a as [la oa pa [|x fa]]; [cbn in H; congruence|].
  unfold redo, undo. cbn. rewrite last_snoc. cbn.
  rewrite removelast_last. destruct x. reflexivity.
Qed.

Lemma timeline_undo (a : Model) : timeline (undo a) = timeline a.
Proof.
  unfold undo. destruct (last (past a)) as [prev|] eqn:E; [|reflexivity].
  apply last_Some in E. destruct E as [l E].
  unfold timeline. cbn. rewrite E, removelast_last, <- app_assoc.
  destruct prev. reflexivity.
Qed.

Lemma timeline_redo (a : Model) : timeline (redo a) = timeline a.
Proof.
  unfold redo. destruct (future a) as [|nxt f] eqn:E; [reflexivity|].
  unfold timeline. cbn. rewrite E, <- app_assoc. destruct nxt. reflexivity.
Qed.

Lemma core_undo (a b : Model) : core a = core b -> core (undo a) = core (undo b).
Proof.
  unfold core. intros [= El Eo Ep]. unfold undo. rewrite Ep.
  destruct (last (past b)); cbn; congruence.
Qed.

Lemma core_iter_undo (n : nat) (a b : Model) :
  core a = core b -> core (Nat.iter n undo a) = core (Nat.iter n undo b).
Proof.
  intros H. induction n as [|n IH]; [exact H|].
  rewrite !Nat.iter_succ. apply core_undo, IH.
Qed.

Lemma commits_snoc edits e (a : Model) :
  commits (edits ++ [e]) a = commit e.1 e.2 (commits edits a).
Proof. unfold commits. rewrite fold_left_app. reflexivity. Qed.

Lemma iter_succ_r {A : Type} (f : A -> A) (n : nat) (x : A) :
  Nat.iter (S n) f x = Nat.iter n f (f x).
Proof.
  induction n as [|n IH]; [reflexivity|]. cbn in *. rewrite IH. reflexivity.
Qed.

Lemma length_past_undo (a : Model) :
  length (past (undo a)) = pred (length (past a)).
Proof.
  unfold undo. destruct (last (past a)) as [prev|] eqn:E.
  - apply last_Some in E. destruct E as [l E]. cbn.
    rewrite E, removelast_last, length_app. cbn. lia.
  - apply last_None in E. rewrite E. reflexivity.
Qed.

Lemma length_past_iter_undo (n : nat) (a : Model) :
  length (past (Nat.iter n undo a)) = (length (past a) - n)%nat.
Proof.
  induction n as [|n IH]; [cbn; lia|].
  rewrite Nat.iter_succ, length_past_undo, IH. lia.
Qed.

Lemma length_future_redo (a : Model) :
  length (future (redo a)) = pred (length (future a)).
Proof. unfold redo. destruct (future a) as [|x f] eqn:E; [rewrite E|]; reflexivity. Qed.

Lemma length_future_iter_redo (n : nat) (a : Model) :
  length (future (Nat.iter n redo a)) = (length (future a) - n)%nat.
Proof.
  induction n as [|n IH]; [cbn; lia|].
  rewrite Nat.iter_succ, length_future_redo, IH. lia.
Qed.

(** X1.  Whatever a run of edits changes, as many undos bring back the
    stack, the operations and the undo history that were there before
    the first of them. *)
Theorem edits_are_undone
    (edits : list (option (list MaterialType) * option (list Operation)))
    (a : Model) :
  core (Nat.iter (length edits) undo (commits edits a)) = core a.
Proof.
  induction edits as [|e edits IH] using rev_ind; [reflexivity|].
  rewrite length_app, Nat.add_comm. cbn [length Nat.add].
  rewrite iter_succ_r, commits_snoc, undo_commit.
  rewrite <- IH. apply core_iter_undo. reflexivity.
Qed.

(** X2.  After [n] undos, [n] redos give the state back as it was, the
    redo list included, as long as the history held [n] entries. *)
Theorem undos_are_redone (n : nat) (a : Model) :
  (n <= length (past a))%nat ->
  Nat.iter n redo (Nat.iter n undo a) = a.
Proof.
  induction n as [|n IH]; intros H; [reflexivity|].
  rewrite iter_succ_r, Nat.iter_succ, redo_undo.
  - apply IH. lia.
  - intros E. pose proof (length_past_iter_undo n a) as L.
    rewrite E in L. cbn in L. lia.
Qed.

(** X3.  After [n] redos, [n] undos give the state back as it was, as
    long as the redo list held [n] entries. *)
Theorem redos_are_undone (n : nat) (a : Model) :
  (n <= length (future a))%nat ->
  Nat.iter n undo (Nat.iter n redo a) = a.
Proof.
  induction n as [|n IH]; intros H; [reflexivity|].
  rewrite iter_succ_r, Nat.iter_succ, undo_redo.
  - apply IH. lia.
  - intros E. pose proof (length_future_iter_redo n a) as L.
    rewrite E in L. cbn in L. lia.
Qed.

(** X4.  Undo and redo only move the present along the history: the
    past, the present and the future, read in order, are the same list
    of states after as before.  At the ends they do nothing, and an
    edit drops everything that could be redone. *)
Theorem history_moves_along_the_timeline (a : Model) :
  timeline (undo a) = timeline a
  /\ timeline (redo a) = timeline a
  /\ (past a = [] -> undo a = a)
  /\ (future a = [] -> redo a = a)
  /\ (forall nl no, redo (commit nl no a) = commit nl no a).
Proof.
  split; [apply timeline_undo|]. split; [apply timeline_redo|].
  split; [|split].
  - intros E. unfold undo. rewrite E. reflexivity.
  - intros E. unfold redo. rewrite E. reflexivity.
  - reflexivity.
Qed.
End HistoryFacts.

(** ** The edits of the stack and of the operation list *)

Module EditFacts.
Import HistoryFacts.

Lemma Array_fill_Some (count : Q) (m : MaterialType) (l : list MaterialType) :
  App.Array_fill count m = Some l ->
  exists n : nat, count == inject_Z (Z.of_nat n) /\ (Z.of_nat n < 2 ^ 32)%Z
                  /\ Z.to_nat (Qfloor count) = n /\ l = replicate n m.
Proof.
  unfold App.Array_fill. intros H.
  destruct (Qeq_bool (inject_Z (Qfloor count)) count) eqn:E1; [|discriminate H].
  destruct (0 <=? Qfloor count)%Z eqn:E2; [|discriminate H].
  destruct (Qfloor count <? 2 ^ 32)%Z eqn:E3; [|discriminate H].
  cbn in H. injection H as <-.
  apply Qeq_bool_iff in E1. apply Z.leb_le in E2. apply Z.ltb_lt in E3.
  exists (Z.to_nat (Qfloor count)). rewrite Z2Nat.id by exact E2.
  split; [symmetry; exact E1|]. split; [exact E3|]. split; reflexivity.
Qed.

(** X5.  [addSheets] with a whole count below 2^32 puts that many
    sheets of the material on top of the stack, records the step, and
    is undone by one undo; with any other count (a fraction, a
    negative number) it throws. *)
Theorem addSheets_adds (mat : MaterialType) (count : Q) (a : App.Model) :
  match App.addSheets mat count a with
  | Some a' =>
      exists n : nat,
        count == inject_Z (Z.of_nat n)
        /\ App.layers a' = App.layers a ++ replicate n mat
        /\ length (App.layers a') = (length (App.layers a) + n)%nat
        /\ App.ops a' = App.ops a ++ [addSheets mat count]
        /\ core (App.undo a') = core a
  | None =>
      forall n : nat, (Z.of_nat n < 2 ^ 32)%Z -> ~ count == inject_Z (Z.of_nat n)
  end.
Proof.
  unfold App.addSheets.
  destruct (App.Array_fill count mat) as [l|] eqn:E; cbn [mbind option_bind].
  - destruct (Array_fill_Some _ _ _ E) as (n & Hc & _ & _ & ->).
    exists n. split; [exact Hc|]. split; [reflexivity|].
    split; [cbn; rewrite length_app, length_replicate; reflexivity|].
    split; [reflexivity|]. rewrite undo_commit. reflexivity.
  - intros n Hn Hc. unfold App.Array_fill in E.
    assert (Hf : Qfloor count = Z.of_nat n).
    { rewrite (Qfloor_comp _ _ Hc). apply Qfloor_Z. }
    rewrite Hf in E.
    assert (E1 : Qeq_bool (inject_Z (Z.of_nat n)) count = true)
      by (apply Qeq_bool_iff; symmetry; exact Hc).
    assert (E2 : (0 <=? Z.of_nat n)%Z = true) by (apply Z.leb_le; lia).
    assert (E3 : (Z.of_nat n <? 2 ^ 32)%Z = true) by (apply Z.ltb_lt; exact Hn).
    rewrite E1, E2, E3 in E. discriminate E.
Qed.

Lemma recorded_stack_app (l1 l2 : list Operation) :
  recorded_stack (l1 ++ l2) = recorded_stack l1 ++ recorded_stack l2.
Proof. unfold recorded_stack. apply flat_map_app. Qed.

Lemma timeline_commit nl no (a : App.Model) :
  timeline (App.commit nl no a)
  = App.past a ++ [App.snapshot a; App.snapshot (App.commit nl no a)].
Proof. unfold timeline. cbn. rewrite <- app_assoc. reflexivity. Qed.

Lemma Forall_timeline_commit nl no (a : App.Model) :
  Forall consistent (timeline a) ->
  consistent (App.snapshot (App.commit nl no a)) ->
  Forall consistent (timeline (App.commit nl no a)).
Proof.
  intros H Hn. rewrite timeline_commit. unfold timeline in H.
  apply Forall_app in H. destruct H as [Hp Hr].
  apply Forall_app. split; [exact Hp|].
  apply Forall_cons_1 in Hr. destruct Hr as [Hs _].
  repeat constructor; assumption.
Qed.

Lemma consistent_now (a : App.Model) :
  Forall consistent (timeline a) -> consistent (App.snapshot a).
Proof.
  unfold timeline. intros H. apply Forall_app in H. destruct H as [_ H].
  apply Forall_cons_1 in H. destruct H as [H _]. exact H.
Qed.

(** X6.  In every state that the palette, [Quick base], [Clear], the
    step buttons, undo and redo lead to, the stack is a quick-start
    billet followed by exactly the sheets that the stacking steps of
    the operation list record; the same holds of every state kept in
    the history. *)
Theorem stack_is_recorded (a : App.Model) :
  reachable a ->
  (exists pairs : nat,
      App.layers a = quickBase pairs ++ recorded_stack (App.ops a))
  /\ Forall consistent (timeline a).
Proof.
  intros H.
  assert (G : Forall consistent (timeline a));
    [|split; [apply (consistent_now a G) | exact G]].
  induction H as [|mat count a a' _ IH Hadd|pairs a _ IH|a _ IH
                  |op a _ IH Hop|a _ IH|a _ IH].
  - repeat constructor. exists 0%nat. reflexivity.
  - unfold App.addSheets in Hadd.
    destruct (App.Array_fill count mat) as [l|] eqn:E; [|discriminate Hadd].
    cbn in Hadd. injection Hadd as <-.
    apply Forall_timeline_commit; [exact IH|].
    destruct (Array_fill_Some _ _ _ E) as (n & _ & _ & Hn & ->).
    destruct (consistent_now a IH) as [pairs Hp]. cbn in Hp.
    exists pairs. cbn. rewrite recorded_stack_app, Hp, <- app_assoc.
    cbn. rewrite Hn, app_nil_r. reflexivity.
  - apply Forall_timeline_commit; [exact IH|].
    exists pairs. cbn. rewrite app_nil_r. reflexivity.
  - apply Forall_timeline_commit; [exact IH|]. exists 0%nat. reflexivity.
  - apply Forall_timeline_commit; [exact IH|].
    destruct (consistent_now a IH) as [pairs Hp]. cbn in Hp.
    exists pairs. cbn. rewrite recorded_stack_app, Hp.
    destruct op; try discriminate Hop; cbn; rewrite app_nil_r; reflexivity.
  - rewrite timeline_undo. exact IH.
  - rewrite timeline_redo. exact IH.
Qed.

Lemma swap_adjacent {A : Type} (l : list A) (i : nat) (x y : A) :
  l !! i = Some x -> l !! S i = Some y ->
  l = take i l ++ x :: y :: drop (S (S i)) l
  /\ <[S i := x]> (<[i := y]> l) = take i l ++ y :: x :: drop (S (S i)) l.
Proof.
  revert l. induction i as [|i IH]; intros [|a l] Hx Hy; try discriminate.
  - destruct l as [|b l]; [discriminate|]. cbn in *.
    injection Hx as ->. injection Hy as ->. split; reflexivity.
  - cbn in Hx, Hy. destruct (IH l Hx Hy) as [E1 E2]. cbn.
    split; [f_equal; exact E1 | f_equal; exact E2].
Qed.

(** X7.  [moveOp] downwards swaps an entry with the one after it and
    nothing else: the list is a permutation of what it was, the stack
    is untouched, moving the entry up again or one undo restores the
    list. *)
Theorem moveOp_swaps (idx : nat) (a : App.Model) :
  (S idx < length (App.ops a))%nat ->
  exists a1 a2 x y,
    App.moveOp idx App.Down a = Some a1
    /\ App.moveOp (S idx) App.Up a1 = Some a2
    /\ App.ops a = take idx (App.ops a) ++ x :: y :: drop (S (S idx)) (App.ops a)
    /\ App.ops a1 = take idx (App.ops a) ++ y :: x :: drop (S (S idx)) (App.ops a)
    /\ App.ops a1 ≡ₚ App.ops a
    /\ App.ops a2 = App.ops a
    /\ App.layers a1 = App.layers a
    /\ core (App.undo a1) = core a.
Proof.
  intros H.
  destruct (lookup_lt_is_Some_2 (App.ops a) idx ltac:(lia)) as [x Hx].
  destruct (lookup_lt_is_Some_2 (App.ops a) (S idx) H) as [y Hy].
  destruct (swap_adjacent _ _ _ _ Hx Hy) as [E1 E2].
  assert (M1 : App.moveOp idx App.Down a
               = Some (App.commit None
                         (Some (<[S idx := x]> (<[idx := y]> (App.ops a)))) a)).
  { unfold App.moveOp. cbn [App.step].
    replace (Z.of_nat idx + 1)%Z with (Z.of_nat (S idx)) by lia.
    destruct (Z.of_nat (S idx) <? 0)%Z eqn:B1; [apply Z.ltb_lt in B1; lia|].
    destruct (Z.of_nat (length (App.ops a)) <=? Z.of_nat (S idx))%Z eqn:B2;
      [apply Z.leb_le in B2; lia|].
    cbn [orb]. rewrite Nat2Z.id, Hx, Hy. reflexivity. }
  eexists _, _, x, y. split; [exact M1|].
  set (l1 := <[S idx := x]> (<[idx := y]> (App.ops a))).
  assert (Hl : length l1 = length (App.ops a))
    by (subst l1; rewrite !length_insert; reflexivity).
  assert (Hx1 : l1 !! S idx = Some x).
  { subst l1. apply list_lookup_insert_eq. rewrite length_insert. lia. }
  assert (Hy1 : l1 !! idx = Some y).
  { subst l1. rewrite list_lookup_insert_ne by lia.
    apply list_lookup_insert_eq. lia. }
  split.
  { unfold App.moveOp. cbn [App.step App.commit App.ops default].
    replace (Z.of_nat (S idx) + -1)%Z with (Z.of_nat idx) by lia.
    fold l1. cbv zeta. unfold id. rewrite Hl.
    destruct (Z.of_nat idx <? 0)%Z eqn:B1; [apply Z.ltb_lt in B1; lia|].
    destruct (Z.of_nat (length (App.ops a)) <=? Z.of_nat idx)%Z eqn:B2;
      [apply Z.leb_le in B2; lia|].
    cbn [orb]. rewrite Nat2Z.id, Hx1, Hy1. reflexivity. }
  split; [exact E1|]. split; [exact E2|].
  split.
  { cbn [App.commit App.ops default]. fold l1. subst l1.
    rewrite E2. rewrite E1 at 3. apply Permutation_app_head, perm_swap. }
  split.
  { cbn [App.commit App.ops default]. fold l1.
    unfold id. subst l1.
    rewrite list_insert_insert_eq, (list_insert_insert_ne _ idx (S idx)) by lia.
    rewrite list_insert_insert_eq, (list_insert_id _ idx x Hx).
    apply (list_insert_id _ (S idx) y Hy). }
  split; [reflexivity|]. rewrite undo_commit. reflexivity.
Qed.

Lemma filter_index_above (idx k : nat) (l : list Operation) :
  (idx < k)%nat ->
  (filter (fun p : nat * Operation => p.1 <> idx)
          (imap (fun i op => ((k + i)%nat, op)) l)).*2 = l.
Proof.
  revert k. induction l as [|x l IH]; intros k H; [reflexivity|].
  cbn [imap]. rewrite filter_cons_True by (cbn; lia). cbn [fmap list_fmap snd].
  f_equal. rewrite <- (IH (S k)) at 2 by lia.
  f_equal. f_equal. apply imap_ext. intros i y _. cbn. f_equal. lia.
Qed.

Lemma filter_index_from (idx k : nat) (l : list Operation) :
  (k <= idx)%nat ->
  (filter (fun p : nat * Operation => p.1 <> idx)
          (imap (fun i op => ((k + i)%nat, op)) l)).*2 = delete (idx - k)%nat l.
Proof.
  revert k. induction l as [|x l IH]; intros k H; [reflexivity|].
  cbn [imap].
  assert (Ei : imap ((fun i op => ((k + i)%nat, op)) ∘ S) l
               = imap (fun i op => ((S k + i)%nat, op)) l).
  { apply imap_ext. intros i y _. cbn. f_equal. lia. }
  rewrite Ei.
  destruct (decide (k = idx)) as [->|Hne].
  - rewrite filter_cons_False by (cbn; lia).
    rewrite Nat.sub_diag. cbn [delete list_delete].
    apply filter_index_above. lia.
  - rewrite filter_cons_True by (cbn; lia). cbn [fmap list_fmap snd].
    rewrite (IH (S k)) by lia.
    replace (idx - k)%nat with (S (idx - S k)) by lia. reflexivity.
Qed.

Lemma filter_index_delete (idx : nat) (l : list Operation) :
  App.filter_index idx l = delete idx l.
Proof.
  unfold App.filter_index.
  pose proof (filter_index_from idx 0 l ltac:(lia)) as H.
  rewrite Nat.sub_0_r in H. exact H.
Qed.

Lemma ops_removeOp (idx : nat) (a : App.Model) :
  App.ops (App.removeOp idx a) = delete idx (App.ops a).
Proof. cbn. apply filter_index_delete. Qed.

(** X8.  [removeOp] takes the entry at [idx] out of the operation list
    and leaves the other entries in order and the stack untouched; one
    undo restores the list.  With an [idx] past the end the list stays
    as it is, yet a history entry is still written. *)
Theorem removeOp_deletes (idx : nat) (a : App.Model) :
  App.ops (App.removeOp idx a)
  = take idx (App.ops a) ++ drop (S idx) (App.ops a)
  /\ App.layers (App.removeOp idx a) = App.layers a
  /\ ((idx < length (App.ops a))%nat ->
      S (length (App.ops (App.removeOp idx a))) = length (App.ops a))
  /\ ((length (App.ops a) <= idx)%nat ->
      App.ops (App.removeOp idx a) = App.ops a)
  /\ App.past (App.removeOp idx a) = App.past a ++ [App.snapshot a]
  /\ core (App.undo (App.removeOp idx a)) = core a.
Proof.
  rewrite ops_removeOp. split; [apply delete_take_drop|]. split; [reflexivity|].
  split; [intros H; rewrite length_delete by (apply lookup_lt_is_Some_2; exact H); lia|].
  split.
  { intros H. rewrite delete_take_drop, take_ge, drop_ge by lia.
    apply app_nil_r. }
  split; [reflexivity|]. unfold App.removeOp. rewrite undo_commit.
  reflexivity.
Qed.

Lemma without_addSheets_app (l1 l2 : list Operation) :
  without_addSheets (l1 ++ l2) = without_addSheets l1 ++ without_addSheets l2.
Proof. unfold without_addSheets. apply filter_app. Qed.

(** X9.  Removing a stacking step from the operation list changes
    neither the stack, whose sheets stay, nor the raster that the
    generator draws for the state. *)
Theorem removing_a_stack_step_keeps_raster
    (Math_sin : float -> float) (has_ctx : bool) (a : App.Model)
    (idx : nat) (mat : MaterialType) (count : Q) (width height : nat) :
  App.ops a !! idx = Some (addSheets mat count) ->
  App.layers (App.removeOp idx a) = App.layers a
  /\ Binary64.generatePattern Math_sin has_ctx (App.layers (App.removeOp idx a))
       (App.ops (App.removeOp idx a)) width height
     = Binary64.generatePattern Math_sin has_ctx (App.layers a) (App.ops a)
         width height.
Proof.
  intros H. split; [reflexivity|].
  rewrite ops_removeOp, delete_take_drop.
  change (App.layers (App.removeOp idx a)) with (App.layers a).
  apply generatePattern64_ext. intros x y _ _.
  unfold Binary64.layer_index, Binary64.coords.
  rewrite <- (run_ops64_without_addSheets Math_sin _ (take idx (App.ops a) ++ _)).
  rewrite <- (run_ops64_without_addSheets Math_sin _ (App.ops a)).
  rewrite <- (take_drop_middle (App.ops a) idx _ H) at 3.
  rewrite !without_addSheets_app.
  change (addSheets mat count :: drop (S idx) (App.ops a))
    with ([addSheets mat count] ++ drop (S idx) (App.ops a)).
  rewrite without_addSheets_app. reflexivity.
Qed.
End EditFacts.

(** ** The shape of the raster *)

Lemma raster_data_Some (px : nat -> nat -> option Z) (width height : nat)
    (d : list Z) :
  raster_data px width height = Some d ->
  (forall x y, (x < width)%nat -> (y < height)%nat -> is_Some (px x y))
  /\ d = raster_bytes (fun x y => default 0%Z (px x y)) width height.
Proof.
  intros H.
  assert (A : forall x y, (x < width)%nat -> (y < height)%nat -> is_Some (px x y)).
  { intros x y Hx Hy. destruct (px x y) as [b|] eqn:E; [eexists; reflexivity|].
    rewrite (raster_data_fails px width height x y Hx Hy E) in H. discriminate H. }
  split; [exact A|]. rewrite (raster_data_total px width height A) in H.
  injection H as <-. reflexivity.
Qed.

Section RasterShape.
Variable Math_sin : float -> float.

Lemma pixel_byte64_Some (layers : list MaterialType) (ops : list Operation)
    (width height x y : nat) (b : Z) :
  Binary64.pixel_byte Math_sin layers ops width height x y = Some b ->
  exists m, m ∈ layers /\ b = gray m.
Proof.
  unfold Binary64.pixel_byte, Binary64.layer_at. intros H.
  destruct (Binary64.floorZ (Binary64.layer_index Math_sin layers ops width height x y))
    as [z|]; [|discriminate H].
  cbn in H. destruct (z <? 0)%Z; [discriminate H|].
  destruct (layers !! Z.to_nat z) as [m|] eqn:E; [|discriminate H].
  cbn in H. injection H as <-. exists m. split; [|reflexivity].
  eapply list_elem_of_lookup_2. exact E.
Qed.

(** X10.  A canvas that [generatePattern] returns has the size asked
    for and four bytes for each pixel; every pixel is opaque and gray,
    and its gray is that of a material of the stack, or the background
    when the stack is empty. *)
Theorem raster_pixels_are_stack_grays
    (layers : list MaterialType) (ops : list Operation)
    (width height x y : nat) (c : Canvas) :
  Binary64.generatePattern Math_sin true layers ops width height = Some c ->
  (x < width)%nat -> (y < height)%nat ->
  cwidth c = width /\ cheight c = height
  /\ length (cdata c) = (width * height * 4)%nat
  /\ exists g : Z,
       getPixel c x y = gray_px g
       /\ match layers with
          | [] => g = background
          | _ => exists m, m ∈ layers /\ g = gray m
          end.
Proof.
  unfold Binary64.generatePattern. cbn [negb]. intros H Hx Hy.
  destruct layers as [|m0 layers].
  - injection H as <-. cbn [cwidth cheight cdata].
    split; [reflexivity|]. split; [reflexivity|].
    split; [rewrite length_fillRect; apply length_replicate|].
    exists background. split; [|reflexivity].
    apply (getPixel_fillRect_all width height x y background); assumption.
  - unfold Binary64.pattern_data in H.
    destruct (raster_data _ width height) as [d|] eqn:E; [|discriminate H].
    cbn in H. injection H as <-. cbn [cwidth cheight cdata].
    destruct (raster_data_Some _ _ _ _ E) as [A ->].
    split; [reflexivity|]. split; [reflexivity|].
    split; [rewrite length_raster_bytes; lia|].
    destruct (A x y Hx Hy) as [b Hb].
    exists b. split.
    + rewrite getPixel_raster by assumption. rewrite Hb. reflexivity.
    + apply (pixel_byte64_Some _ _ _ _ _ _ _ Hb).
Qed.

Lemma run_ops64_keeps_vv (n : nat) (tail : list Operation) (uu vv : float) :
  forallb keeps_vv tail = true ->
  snd (Binary64.run_ops Math_sin n tail (uu, vv)) = vv.
Proof.
  revert uu. induction tail as [|op tail IH]; intros uu H; [reflexivity|].
  cbn in H. apply andb_prop in H. destruct H as [Hop Ht].
  change (Binary64.run_ops Math_sin n (op :: tail) (uu, vv))
    with (Binary64.run_ops Math_sin n tail (Binary64.apply_op Math_sin n (uu, vv) op)).
  destruct op; try discriminate Hop; cbn [Binary64.apply_op]; apply IH, Ht.
Qed.

(** X11.  Drawing out is invisible at the end of the list: stretch and
    stacking steps that no other operation follows leave the raster as
    it is, whatever their factors. *)
Theorem trailing_stretch_is_invisible
    (has_ctx : bool) (layers : list MaterialType) (ops tail : list Operation)
    (width height : nat) :
  forallb keeps_vv tail = true ->
  Binary64.generatePattern Math_sin has_ctx layers (ops ++ tail) width height
  = Binary64.generatePattern Math_sin has_ctx layers ops width height.
Proof.
  intros H. apply generatePattern64_ext. intros x y _ _.
  unfold Binary64.layer_index, Binary64.coords, Binary64.run_ops.
  rewrite fold_left_app.
  destruct (fold_left (Binary64.apply_op Math_sin (length layers)) ops _)
    as [uu vv].
  pose proof (run_ops64_keeps_vv (length layers) tail uu vv H) as E.
  unfold Binary64.run_ops in E. rewrite E. reflexivity.
Qed.

Lemma run_ops64_vertical (n : nat) (ops : list Operation) (uu uu' vv : float) :
  forallb vertical ops = true ->
  snd (Binary64.run_ops Math_sin n ops (uu, vv))
  = snd (Binary64.run_ops Math_sin n ops (uu', vv)).
Proof.
  revert uu uu' vv. induction ops as [|op ops IH]; intros uu uu' vv H;
    [reflexivity|].
  cbn in H. apply andb_prop in H. destruct H as [Hop Ht].
  change (Binary64.run_ops Math_sin n (op :: ops) (uu, vv))
    with (Binary64.run_ops Math_sin n ops (Binary64.apply_op Math_sin n (uu, vv) op)).
  change (Binary64.run_ops Math_sin n (op :: ops) (uu', vv))
    with (Binary64.run_ops Math_sin n ops (Binary64.apply_op Math_sin n (uu', vv) op)).
  destruct op; try discriminate Hop; cbn [Binary64.apply_op]; apply IH, Ht.
Qed.

(** X12.  With folds, stretches and stacking steps only, however many
    and in whatever order, the raster stays made of horizontal bands:
    all the pixels of a row are equal. *)
Theorem folds_keep_rows_uniform
    (layers : list MaterialType) (ops : list Operation)
    (width height x x' y : nat) (c : Canvas) :
  forallb vertical ops = true ->
  Binary64.generatePattern Math_sin true layers ops width height = Some c ->
  (x < width)%nat -> (x' < width)%nat -> (y < height)%nat ->
  getPixel c x y = getPixel c x' y.
Proof.
  intros Hv H Hx Hx' Hy. unfold Binary64.generatePattern in H. cbn [negb] in H.
  destruct layers as [|m0 layers].
  - injection H as <-.
    rewrite !(getPixel_fillRect_all width height _ y background) by assumption.
    reflexivity.
  - unfold Binary64.pattern_data in H.
    destruct (raster_data _ width height) as [d|] eqn:E; [|discriminate H].
    cbn in H. injection H as <-.
    destruct (raster_data_Some _ _ _ _ E) as [_ ->].
    rewrite !getPixel_raster by assumption.
    unfold Binary64.pixel_byte, Binary64.layer_index, Binary64.coords.
    rewrite (run_ops64_vertical _ ops _
               (PrimFloat.div (Binary64.of_nat x') (Binary64.of_nat width)) _ Hv).
    reflexivity.
Qed.
End RasterShape.

(** ** The knob and the number fields *)

Module ClampFacts.

Lemma SFcompare_antisym (x y : spec_float) :
  SFcompare y x = CompOpp <$> SFcompare x y.
Proof.
  destruct x as [sx|sx| |sx mx ex], y as [sy|sy| |sy my ey]; cbn;
    try reflexivity;
    try (destruct sx; reflexivity); try (destruct sy; reflexivity);
    try (destruct sx, sy; reflexivity).
  destruct sx, sy; try reflexivity;
    rewrite (Z.compare_antisym ex ey);
    destruct (ex ?= ey)%Z; cbn; try reflexivity;
    pose proof (Pos.compare_cont_antisym my mx Eq) as P;
    cbn [CompOpp] in P; rewrite <- P;
    destruct (Pos.compare_cont Eq my mx); reflexivity.
Qed.

Lemma leb_not_nan (a b : float) :
  PrimFloat.leb a b = true -> Prim2SF a <> S754_nan /\ Prim2SF b <> S754_nan.
Proof.
  rewrite leb_spec. unfold SFleb.
  destruct (Prim2SF a), (Prim2SF b); cbn; intros H; split;
    congruence.
Qed.

Lemma is_nan_false (a : float) :
  Prim2SF a <> S754_nan -> PrimFloat.is_nan a = false.
Proof.
  intros H. unfold PrimFloat.is_nan. rewrite FloatAxioms.eqb_spec.
  unfold SFeqb. rewrite (SFcompare_refl _ H). reflexivity.
Qed.

Lemma is_nan_true (a : float) :
  Prim2SF a = S754_nan -> PrimFloat.is_nan a = true.
Proof.
  intros H. unfold PrimFloat.is_nan. rewrite FloatAxioms.eqb_spec, H.
  reflexivity.
Qed.

Lemma leb_refl (a : float) : Prim2SF a <> S754_nan -> PrimFloat.leb a a = true.
Proof.
  intros H. rewrite leb_spec. unfold SFleb. rewrite (SFcompare_refl _ H).
  reflexivity.
Qed.

(** order of two numbers *)
Lemma compare_cases (a b : float) :
  Prim2SF a <> S754_nan -> Prim2SF b <> S754_nan ->
  (PrimFloat.ltb a b = true /\ PrimFloat.ltb b a = false
   /\ PrimFloat.leb a b = true)
  \/ (PrimFloat.ltb a b = false /\ PrimFloat.ltb b a = true
      /\ PrimFloat.leb b a = true)
  \/ (PrimFloat.ltb a b = false /\ PrimFloat.ltb b a = false
      /\ PrimFloat.leb a b = true /\ PrimFloat.leb b a = true).
Proof.
  intros Ha Hb. rewrite !ltb_spec, !leb_spec. unfold SFltb, SFleb.
  rewrite (SFcompare_antisym (Prim2SF a) (Prim2SF b)).
  destruct (SFcompare (Prim2SF a) (Prim2SF b)) as [[| |]|] eqn:E; cbn.
  - right. right. repeat split.
  - left. repeat split.
  - right. left. repeat split.
  - exfalso. destruct (Prim2SF a), (Prim2SF b); cbn in E; congruence.
Qed.

Lemma Math_max_cases (a b : float) :
  Prim2SF a <> S754_nan -> Prim2SF b <> S754_nan ->
  (Binary64.Math_max a b = a \/ Binary64.Math_max a b = b)
  /\ le64 a (Binary64.Math_max a b) /\ le64 b (Binary64.Math_max a b).
Proof.
  intros Ha Hb. unfold Binary64.Math_max, le64.
  rewrite (is_nan_false a Ha), (is_nan_false b Hb). cbn [orb].
  destruct (compare_cases a b Ha Hb)
    as [(-> & _ & L)|[(-> & -> & L)|(-> & -> & L1 & L2)]].
  - split; [right; reflexivity|]. split; [exact L | apply leb_refl, Hb].
  - split; [left; reflexivity|]. split; [apply leb_refl, Ha | exact L].
  - destruct (PrimFloat.get_sign a).
    + split; [right; reflexivity|]. split; [exact L1 | apply leb_refl, Hb].
    + split; [left; reflexivity|]. split; [apply leb_refl, Ha | exact L2].
Qed.

Lemma Math_min_cases (a b : float) :
  Prim2SF a <> S754_nan -> Prim2SF b <> S754_nan ->
  (Binary64.Math_min a b = a \/ Binary64.Math_min a b = b)
  /\ le64 (Binary64.Math_min a b) a /\ le64 (Binary64.Math_min a b) b.
Proof.
  intros Ha Hb. unfold Binary64.Math_min, le64.
  rewrite (is_nan_false a Ha), (is_nan_false b Hb). cbn [orb].
  destruct (compare_cases a b Ha Hb)
    as [(-> & _ & L)|[(-> & -> & L)|(-> & -> & L1 & L2)]].
  - split; [left; reflexivity|]. split; [apply leb_refl, Ha | exact L].
  - split; [right; reflexivity|]. split; [exact L | apply leb_refl, Hb].
  - destruct (PrimFloat.get_sign a).
    + split; [left; reflexivity|]. split; [apply leb_refl, Ha | exact L1].
    + split; [right; reflexivity|]. split; [exact L2 | apply leb_refl, Hb].
Qed.

Lemma Math_max_nan_r (a b : float) :
  Prim2SF b = S754_nan -> Binary64.Math_max a b = PrimFloat.nan.
Proof.
  intros H. unfold Binary64.Math_max. rewrite (is_nan_true b H), orb_true_r.
  reflexivity.
Qed.

Lemma Math_min_nan_r (a b : float) :
  Prim2SF b = S754_nan -> Binary64.Math_min a b = PrimFloat.nan.
Proof.
  intros H. unfold Binary64.Math_min. rewrite (is_nan_true b H), orb_true_r.
  reflexivity.
Qed.

Lemma nan_or_not (x : float) :
  Prim2SF x = S754_nan \/ Prim2SF x <> S754_nan.
Proof. destruct (Prim2SF x); [right|right|left|right]; congruence. Qed.

(** [Math.min(hi, Math.max(lo, x))] *)
Lemma clamp_min_max (lo hi x : float) :
  le64 lo hi ->
  let r := Binary64.Math_min hi (Binary64.Math_max lo x) in
  (Prim2SF x = S754_nan /\ r = PrimFloat.nan)
  \/ (Prim2SF x <> S754_nan /\ le64 lo r /\ le64 r hi).
Proof.
  intros H r. destruct (leb_not_nan _ _ H) as [Hlo Hhi].
  destruct (nan_or_not x) as [Hx|Hx].
  - left. split; [exact Hx|]. subst r. rewrite (Math_max_nan_r lo x Hx).
    apply Math_min_nan_r. reflexivity.
  - right. split; [exact Hx|].
    destruct (Math_max_cases lo x Hlo Hx) as (Em & L1 & _).
    assert (Hm : Prim2SF (Binary64.Math_max lo x) <> S754_nan)
      by (destruct Em as [-> | ->]; assumption).
    destruct (Math_min_cases hi _ Hhi Hm) as (Er & L2 & _).
    subst r. split; [|exact L2].
    destruct Er as [-> | ->]; assumption.
Qed.

(** [Math.max(lo, Math.min(hi, x))] *)
Lemma clamp_max_min (lo hi x : float) :
  le64 lo hi ->
  let r := Binary64.Math_max lo (Binary64.Math_min hi x) in
  (Prim2SF x = S754_nan /\ r = PrimFloat.nan)
  \/ (Prim2SF x <> S754_nan /\ le64 lo r /\ le64 r hi).
Proof.
  intros H r. destruct (leb_not_nan _ _ H) as [Hlo Hhi].
  destruct (nan_or_not x) as [Hx|Hx].
  - left. split; [exact Hx|]. subst r. rewrite (Math_min_nan_r hi x Hx).
    apply Math_max_nan_r. reflexivity.
  - right. split; [exact Hx|].
    destruct (Math_min_cases hi x Hhi Hx) as (Em & L1 & _).
    assert (Hm : Prim2SF (Binary64.Math_min hi x) <> S754_nan)
      by (destruct Em as [-> | ->]; assumption).
    destruct (Math_max_cases lo _ Hlo Hm) as (Er & L2 & _).
    subst r. split; [exact L2|].
    destruct Er as [-> | ->]; [exact H | exact L1].
Qed.
End ClampFacts.

Import ClampFacts.

(** X13.  The value the knob reports is never outside its range: it
    lies between [min] and [max], or is [NaN], whatever the angle and
    the step. *)
Theorem valueFromAngle_in_range (min max step a : float) :
  le64 min max ->
  let r := Knob.valueFromAngle min max step a in
  r = PrimFloat.nan \/ (le64 min r /\ le64 r max).
Proof.
  intros H r. subst r. unfold Knob.valueFromAngle.
  destruct (clamp_min_max min max
              (PrimFloat.mul
                 (Binary64.Math_round
                    (PrimFloat.div
                       (PrimFloat.add min
                          (PrimFloat.mul
                             (PrimFloat.div (PrimFloat.add a 140) 280)
                             (PrimFloat.sub max min))) step)) step) H)
    as [[_ E]|[_ E]]; [left; exact E | right; exact E].
Qed.

(** X14.  The turns that the twist editor stores lie between 0 and 2,
    and the count that the palette keeps lies between 1 and 500,
    whatever number is entered; only [NaN] passes through, as [NaN].
    Neither is rounded to a whole number. *)
Theorem editors_clamp (x : float) :
  (turns_of_degrees x = PrimFloat.nan
   \/ (le64 0 (turns_of_degrees x) /\ le64 (turns_of_degrees x) 2))
  /\ (count_of_input x = PrimFloat.nan
      \/ (le64 1 (count_of_input x) /\ le64 (count_of_input x) 500))
  /\ count_of_input (Binary64.lit (5 # 2)) = Binary64.lit (5 # 2).
Proof.
  split; [|split].
  - destruct (clamp_max_min 0 2 (PrimFloat.div x 360)) as [[_ E]|[_ E]];
      [vm_compute; reflexivity | left; exact E | right; exact E].
  - destruct (clamp_max_min 1 500 x) as [[_ E]|[_ E]];
      [vm_compute; reflexivity | left; exact E | right; exact E].
  - vm_compute. reflexivity.
Qed.

Lemma knob_reads_back_all : forallb knob_reads_back (seq 0 73) = true.
Proof. vm_compute. reflexivity. Qed.

(** X15.  The twist knob reads each of its 73 settings, 0 to 720
    degrees in steps of 10, back from the angle at which it draws its
    needle for that setting. *)
Theorem twist_knob_round_trip (k : nat) :
  (k <= 72)%nat ->
  let v := Binary64.of_nat (10 * k) in
  Knob.valueFromAngle 0 720 10 (Knob.angleFromValue 0 720 v) = v.
Proof.
  intros H v. pose proof knob_reads_back_all as A.
  rewrite forallb_forall in A. specialize (A k ltac:(apply in_seq; lia)).
  apply FloatAxioms.Leibniz.eqb_spec in A. exact A.
Qed.

Lemma degrees_read_back_all : forallb degrees_read_back (seq 0 721) = true.
Proof. vm_compute. reflexivity. Qed.

(** X16.  Every whole number of degrees from 0 to 720 that the twist
    editor stores as turns is shown again as the same number of
    degrees. *)
Theorem twist_degrees_round_trip (deg : nat) :
  (deg <= 720)%nat ->
  degrees_shown (turns_of_degrees (Binary64.of_nat deg)) = Binary64.of_nat deg.
Proof.
  intros H. pose proof degrees_read_back_all as A.
  rewrite forallb_forall in A. specialize (A deg ltac:(apply in_seq; lia)).
  apply FloatAxioms.Leibniz.eqb_spec in A. exact A.
Qed.

(** X17.  The swatch that the layer strip shows for a material has the
    gray that the raster stores for it, for every material of the
    catalog. *)
Theorem strip_matches_raster (m : MaterialType) :
  Binary64.floorZ (strip_gray m) = Some (gray m).
Proof. destruct m; vm_compute; reflexivity. Qed.

(** ** The instruction text *)

Module InstructionFacts.
Import Text.
Local Open Scope string_scope.

Lemma substring_here (t post : string) :
  substring 0 (String.length t) (t ++ post) = t.
Proof.
  induction t as [|c t IH]; cbn.
  - destruct post; reflexivity.
  - rewrite IH. reflexivity.
Qed.

Lemma substring_at (pre t post : string) :
  substring (String.length pre) (String.length t) (pre ++ t ++ post) = t.
Proof.
  induction pre as [|c pre IH]; cbn; [apply substring_here | exact IH].
Qed.

Lemma includes_middle (pre t post : string) :
  includes (pre ++ t ++ post) t = true.
Proof.
  unfold includes.
  destruct (String.index 0 t (pre ++ t ++ post)) as [n|] eqn:E; [reflexivity|].
  exfalso. destruct t as [|c t].
  - destruct (pre ++ EmptyString ++ post); discriminate E.
  - apply (index_correct3 0 (String.length pre) _ _ E); [discriminate | lia |].
    apply substring_at.
Qed.

Lemma toLowerCase_app (s t : string) :
  toLowerCase (s ++ t) = toLowerCase s ++ toLowerCase t.
Proof. induction s as [|c s IH]; cbn; [reflexivity | rewrite IH; reflexivity]. Qed.

Lemma append_assoc3 (a b c : string) : (a ++ b) ++ c = a ++ b ++ c.
Proof. induction a as [|x a IH]; cbn; [reflexivity | rewrite IH; reflexivity]. Qed.

(** X18.  What the load-time checks test on one recipe holds for every
    parameter: the line of a stacking step names the count and the
    material, the line of a stretch shows its factor after a
    multiplication sign, and the line of a fold, in lower case, holds
    the words fold billet followed by the number of folds. *)
Theorem load_time_checks_hold_for_all
    (m : MaterialType) (count factor times : Q) :
  (exists l0 l1,
      instructionsFromOps [addSheets m count; stretch factor] = [l0; l1]
      /\ includes l0 ("Stack " ++ Number_toString count) = true
      /\ includes l0 (name (MATERIALS m)) = true
      /\ includes l1 ("×" ++ Number_toString factor) = true)
  /\ (exists l0,
        instructionsFromOps [fold times] = [l0]
        /\ includes (toLowerCase l0)
             ("fold billet " ++ toLowerCase (Number_toString times) ++ "×")
           = true).
Proof.
  split.
  - eexists _, _. split; [reflexivity|]. cbn [instruction_line].
    split; [|split].
    + exact (includes_middle EmptyString ("Stack " ++ Number_toString count)
               (" sheet(s) of " ++ name (MATERIALS m) ++ ".")).
    + rewrite <- (append_assoc3 (Number_toString count) " sheet(s) of "
                    (name (MATERIALS m) ++ ".")).
      exact (includes_middle ("Stack " ++ Number_toString count ++ " sheet(s) of ")
               (name (MATERIALS m)) ".").
    + exact (includes_middle "Draw out " ("×" ++ Number_toString factor) ".").
  - eexists. split; [reflexivity|]. cbn [instruction_line].
    change ("Fold billet " ++ Number_toString times
              ++ "× (approx doubles layer count each fold).")
      with ("Fold billet " ++ Number_toString times ++ "×"
              ++ " (approx doubles layer count each fold).").
    rewrite toLowerCase_app. rewrite (toLowerCase_app (Number_toString times)).
    rewrite (toLowerCase_app "×").
    change (toLowerCase "Fold billet ") with "fold billet ".
    change (toLowerCase "×") with "×".
    rewrite <- (append_assoc3 (toLowerCase (Number_toString times)) "×").
    exact (includes_middle EmptyString
             ("fold billet " ++ toLowerCase (Number_toString times) ++ "×")
             (toLowerCase " (approx doubles layer count each fold).")).
Qed.
End InstructionFacts.

(** ** The share link *)

Module LinkFacts.
Import Web WebFacts Base64Facts QueryFacts TextFacts Share.
Local Open Scope N_scope.

Lemma base64_char_alphabet (v : N) :
  v < 64 -> base64_alphabet (base64_char v) = true.
Proof.
  intros Hv. unfold base64_alphabet.
  destruct (base64_char_facts v Hv) as (-> & _).
  rewrite bool_decide_eq_true_2 by eauto. reflexivity.
Qed.

Lemma base64_encode_alphabet (s : list N) :
  octets s -> Forall (fun c => base64_alphabet c = true) (base64_encode s).
Proof.
  intros Hs. unfold base64_encode. apply Forall_app. split.
  - apply Forall_map. eapply Forall_impl; [apply sextets_lt, Hs|].
    intros v Hv. apply base64_char_alphabet, Hv.
  - unfold base64_padding. destruct (length s mod 3)%nat as [|[|?]];
      repeat constructor.
Qed.

Lemma uri_unit_url_safe (c : N) :
  c < 128 -> base64_alphabet c = true ->
  Forall (fun u => url_safe u = true) (uri_unit c).
Proof.
  intros Hc Ha.
  pose proof (below_check
    (fun c => implb (base64_alphabet c) (forallb url_safe (uri_unit c))) 128) as H.
  specialize (H ltac:(vm_compute; reflexivity) c Hc). cbv beta in H.
  rewrite Ha in H. cbn [implb] in H.
  rewrite forallb_forall in H. apply Forall_forall. intros u Hu.
  apply list_elem_of_In in Hu. exact (H u Hu).
Qed.

Lemma strip_padding_keeps (s : list N) (c : N) :
  c ∈ s -> c <> 61 -> c ∈ strip_padding s.
Proof.
  intros Hin Hc. unfold strip_padding.
  destruct (length s mod 4 =? 0)%nat; [|exact Hin].
  destruct (rev s) as [|a r] eqn:Er; [exact Hin|].
  assert (Hs : s = rev r ++ [a]).
  { rewrite <- (rev_involutive s), Er. reflexivity. }
  destruct (a =? 61) eqn:Ea; [|exact Hin].
  apply N.eqb_eq in Ea. subst a.
  assert (Hr : c ∈ rev r).
  { rewrite Hs in Hin. apply elem_of_app in Hin as [H|H]; [exact H|].
    apply list_elem_of_singleton in H. contradiction. }
  destruct r as [|b r']; [exact Hr|].
  destruct (b =? 61) eqn:Eb; [|exact Hr].
  apply N.eqb_eq in Eb. subst b. cbn [rev] in Hr.
  apply elem_of_app in Hr as [H|H]; [exact H|].
  apply list_elem_of_singleton in H. contradiction.
Qed.

Lemma mapM_base64_value_None (s : list N) (c : N) :
  c ∈ s -> base64_value c = None -> mapM base64_value s = None.
Proof.
  intros Hin Hc. destruct (mapM base64_value s) as [vals|] eqn:E; [|reflexivity].
  apply mapM_Some_1 in E.
  apply list_elem_of_lookup_1 in Hin as (i & Hi).
  destruct (Forall2_lookup_l _ _ _ _ _ E Hi) as (v & _ & Hv). congruence.
Qed.

Lemma usv_utf8_ascii_app (s rest : list N) :
  ascii7 s -> usv_utf8 (s ++ rest) = s ++ usv_utf8 rest.
Proof.
  unfold usv_utf8. induction 1 as [|c s Hc _ IH]; [reflexivity|].
  cbn [app usv_utf8_from]. destruct (not_surrogate c Hc) as [-> ->].
  rewrite utf8_encode_ascii by exact Hc. rewrite IH. reflexivity.
Qed.

Lemma split_on_cons (sep : N) (s : list N) :
  exists piece pieces, split_on sep s = piece :: pieces.
Proof.
  induction s as [|c r (p & ps & E)]; [eexists _, _; reflexivity|].
  cbn [split_on]. rewrite E. destruct (c =? sep); eexists _, _; reflexivity.
Qed.

Lemma split_on_first (sep : N) (s rest : list N) :
  Forall (fun u => (u =? sep) = false) s ->
  split_on sep (s ++ sep :: rest) = s :: split_on sep rest.
Proof.
  induction 1 as [|c s Hc _ IH].
  - cbn [app split_on]. destruct (split_on_cons sep rest) as (p & ps & ->).
    rewrite N.eqb_refl. reflexivity.
  - cbn [app split_on]. rewrite IH, Hc. reflexivity.
Qed.

(** [URLSearchParams] reads the token back when other parameters
    follow it. *)
Lemma URLSearchParams_get_first (s rest : list N) :
  ascii7 s ->
  URLSearchParams_get (of_string "?recipe=" ++ flat_map uri_unit s ++ 38 :: rest)
                      (of_string "recipe") = Some s.
Proof.
  intros Hs. pose proof (uri_units_chars s Hs) as Hu.
  unfold URLSearchParams_get.
  change (of_string "?recipe=" ++ flat_map uri_unit s ++ 38 :: rest)
    with (63 :: (of_string "recipe=" ++ flat_map uri_unit s ++ 38 :: rest)).
  rewrite (app_assoc (of_string "recipe=")), N.eqb_refl.
  rewrite usv_utf8_ascii_app.
  2:{ apply Forall_app. split; [repeat constructor|].
      eapply Forall_impl; [exact Hu|]. intros u (H & _). exact H. }
  change (usv_utf8 (38 :: rest)) with (38 :: usv_utf8 rest).
  unfold urlencoded_parse. rewrite split_on_first.
  2:{ apply Forall_app. split; [repeat constructor|].
      eapply Forall_impl; [exact Hu|]. intros u (_ & H & _). exact H. }
  cbn [flat_map].
  change (of_string "recipe=" ++ flat_map uri_unit s)
    with (114 :: 101 :: 99 :: 105 :: 112 :: 101 :: 61 :: flat_map uri_unit s).
  cbn [cut_at N.eqb Pos.eqb mbind option_bind default].
  cbv beta iota delta [id].
  rewrite form_decode_uri_units by exact Hs.
  cbn [app List.find fst snd].
  change (form_decode [114; 101; 99; 105; 112; 101]) with (of_string "recipe").
  rewrite bool_decide_eq_true_2 by reflexivity. reflexivity.
Qed.

Section LinkTheorems.
Variable JSON_parse : list N -> option Recipe.

(** X19.  [encode] never throws on a recipe, and the token it returns
    is not empty and holds letters, digits and ['%'] only, so that it
    can stand in a link as it is. *)
Theorem share_token_is_url_safe (r : Recipe) :
  exists token,
    encode r = Some token
    /\ token <> []
    /\ Forall (fun c => url_safe c = true) token.
Proof.
  pose proof (JSON_stringify_ascii r) as Ha.
  eexists. split; [apply encode_token|]. split.
  - destruct (JSON_stringify_nonempty r) as (c & s & E). rewrite E.
    destruct (base64_encode (c :: s)) as [|b bs] eqn:Eb.
    + exfalso. exact (base64_encode_nonempty c s Eb).
    + cbn [flat_map]. unfold uri_unit, percent.
      destruct (uri_unreserved b); discriminate.
  - pose proof (base64_encode_ascii _ (ascii7_octets _ Ha)) as H7.
    pose proof (base64_encode_alphabet _ (ascii7_octets _ Ha)) as Hb.
    revert H7 Hb. generalize (base64_encode (of_string (JSON_stringify r))).
    intros l H7. induction H7 as [|c l Hc _ IH]; intros Hb; [constructor|].
    inversion_clear Hb as [|? ? Hc' Hl]. cbn [flat_map].
    apply Forall_app. split; [apply uri_unit_url_safe; assumption | apply IH, Hl].
Qed.

(** X20.  [decode] throws on any text that holds a character that is
    neither of the Base64 alphabet, nor ['='], nor white space,
    wherever the character stands and whatever [JSON.parse] does. *)
Theorem decode_rejects_foreign_characters (s : list N) (c : N) :
  c ∈ s ->
  base64_alphabet c = false ->
  is_ascii_whitespace c = false ->
  decode JSON_parse s = None.
Proof.
  intros Hin Ha Hw. unfold decode, atob.
  unfold base64_alphabet in Ha. apply orb_false_iff in Ha as [Hv H61].
  apply bool_decide_eq_false in Hv. apply N.eqb_neq in H61.
  assert (Hn : base64_value c = None).
  { destruct (base64_value c); [exfalso; apply Hv; eauto | reflexivity]. }
  set (data := filter _ s).
  assert (Hd : c ∈ strip_padding data).
  { apply strip_padding_keeps; [|exact H61].
    subst data. apply list_elem_of_filter. split; assumption. }
  destruct (length (strip_padding data) mod 4 =? 1)%nat; [reflexivity|].
  rewrite (mapM_base64_value_None _ c Hd Hn). reflexivity.
Qed.

(** X21.  A share link still opens when further parameters are
    appended to it: the page reads the recipe from the link followed
    by ['&'] and any text, whenever [JSON.parse] reads the recipe's
    JSON text back. *)
Theorem link_with_more_parameters (r : Recipe) (rest : list N) :
  JSON_parse (of_string (JSON_stringify r)) = Some r ->
  exists search,
    share_search r = Some search
    /\ recipe_from_search JSON_parse (search ++ 38 :: rest) = Some r.
Proof.
  intros Hparse. pose proof (JSON_stringify_ascii r) as Ha.
  eexists. split; [unfold share_search; rewrite encode_token; reflexivity|].
  unfold recipe_from_search. rewrite <- app_assoc.
  rewrite URLSearchParams_get_first
    by apply base64_encode_ascii, ascii7_octets, Ha.
  cbn [mbind option_bind].
  destruct (JSON_stringify_nonempty r) as (c & s & E).
  destruct (base64_encode (of_string (JSON_stringify r))) as [|b bs] eqn:Eb.
  - rewrite E in Eb. exfalso. exact (base64_encode_nonempty c s Eb).
  - rewrite <- Eb, decode_base64. exact Hparse.
Qed.
End LinkTheorems.
End LinkFacts.

(** ** The further properties on concrete inputs *)

(** A state with two edits behind it, and a state with three
    operations. *)
Lemma undos_are_redone_witness :
  let a := App.pushOp (fold 2) (App.quickBase 5 App.initial) in
  Nat.iter 2 App.redo (Nat.iter 2 App.undo a) = a.
Proof.
  apply (HistoryFacts.undos_are_redone 2
           (App.pushOp (fold 2) (App.quickBase 5 App.initial))).
  simpl. lia.
Defined.

Lemma redos_are_undone_witness :
  let a := Nat.iter 2 App.undo
             (App.pushOp (fold 2) (App.quickBase 5 App.initial)) in
  Nat.iter 2 App.undo (Nat.iter 2 App.redo a) = a.
Proof.
  apply (HistoryFacts.redos_are_undone 2
           (Nat.iter 2 App.undo
              (App.pushOp (fold 2) (App.quickBase 5 App.initial)))).
  simpl. lia.
Defined.

Lemma stack_is_recorded_witness :
  let a := App.undo
             (App.pushOp (fold 2)
                (default App.initial
                   (App.addSheets M15N20 3 (App.quickBase 5 App.initial)))) in
  (exists pairs : nat,
      App.layers a = quickBase pairs ++ recorded_stack (App.ops a))
  /\ Forall consistent (timeline a).
Proof.
  apply (EditFacts.stack_is_recorded
           (App.undo
              (App.pushOp (fold 2)
                 (default App.initial
                    (App.addSheets M15N20 3 (App.quickBase 5 App.initial)))))).
  apply reach_undo, reach_pushOp; [|reflexivity].
  apply (reach_addSheets M15N20 3 (App.quickBase 5 App.initial));
    [|vm_compute; reflexivity].
  apply reach_quickBase, reach_initial.
Defined.

Lemma moveOp_swaps_witness :
  let a := {| App.layers := quickBase 5;
              App.ops := [fold 2; twist 1; stretch 2];
              App.past := []; App.future := [] |} in
  exists a1 a2 x y,
    App.moveOp 0 App.Down a = Some a1
    /\ App.moveOp 1 App.Up a1 = Some a2
    /\ App.ops a = take 0 (App.ops a) ++ x :: y :: drop 2 (App.ops a)
    /\ App.ops a1 = take 0 (App.ops a) ++ y :: x :: drop 2 (App.ops a)
    /\ App.ops a1 ≡ₚ App.ops a
    /\ App.ops a2 = App.ops a
    /\ App.layers a1 = App.layers a
    /\ core (App.undo a1) = core a.
Proof.
  apply (EditFacts.moveOp_swaps 0
           {| App.layers := quickBase 5;
              App.ops := [fold 2; twist 1; stretch 2];
              App.past := []; App.future := [] |}).
  simpl. lia.
Defined.

Lemma removing_a_stack_step_keeps_raster_witness :
  let a := {| App.layers := [M1084; M15N20; M15N20];
              App.ops := [addSheets M1084 1; addSheets M15N20 2; fold 1];
              App.past := []; App.future := [] |} in
  App.layers (App.removeOp 1 a) = App.layers a
  /\ Binary64.generatePattern Binary64.sample_sin true
       (App.layers (App.removeOp 1 a)) (App.ops (App.removeOp 1 a)) 2 2
     = Binary64.generatePattern Binary64.sample_sin true
         (App.layers a) (App.ops a) 2 2.
Proof.
  apply (EditFacts.removing_a_stack_step_keeps_raster Binary64.sample_sin true
           {| App.layers := [M1084; M15N20; M15N20];
              App.ops := [addSheets M1084 1; addSheets M15N20 2; fold 1];
              App.past := []; App.future := [] |} 1 M15N20 2 2 2).
  reflexivity.
Defined.

Lemma raster_pixels_are_stack_grays_witness :
  exists c : Canvas,
    Binary64.generatePattern Binary64.sample_sin true [M1084; M15N20]
      [fold 1; twist 1] 2 2 = Some c
    /\ cwidth c = 2%nat /\ cheight c = 2%nat
    /\ length (cdata c) = (2 * 2 * 4)%nat
    /\ exists g : Z,
         getPixel c 1 1 = gray_px g
         /\ exists m, m ∈ [M1084; M15N20] /\ g = gray m.
Proof.
  destruct (Binary64.generatePattern Binary64.sample_sin true [M1084; M15N20]
              [fold 1; twist 1] 2 2) as [c|] eqn:E.
  - exists c. split; [reflexivity|].
    apply (raster_pixels_are_stack_grays Binary64.sample_sin [M1084; M15N20]
             [fold 1; twist 1] 2 2 1 1 c E); lia.
  - vm_compute in E. discriminate E.
Defined.

Lemma trailing_stretch_is_invisible_witness :
  Binary64.generatePattern Binary64.sample_sin true (quickBase 5)
    ([fold 2; twist 1] ++ [stretch 3; addSheets M1084 2; stretch (1 # 2)]) 2 2
  = Binary64.generatePattern Binary64.sample_sin true (quickBase 5)
      [fold 2; twist 1] 2 2.
Proof.
  apply (trailing_stretch_is_invisible Binary64.sample_sin true (quickBase 5)
           [fold 2; twist 1] [stretch 3; addSheets M1084 2; stretch (1 # 2)] 2 2).
  reflexivity.
Defined.

Lemma folds_keep_rows_uniform_witness :
  exists c : Canvas,
    Binary64.generatePattern Binary64.sample_sin true (quickBase 5)
      [fold 2; stretch 3; fold 1] 2 2 = Some c
    /\ getPixel c 0 1 = getPixel c 1 1.
Proof.
  destruct (Binary64.generatePattern Binary64.sample_sin true (quickBase 5)
              [fold 2; stretch 3; fold 1] 2 2) as [c|] eqn:E.
  - exists c. split; [reflexivity|].
    apply (folds_keep_rows_uniform Binary64.sample_sin (quickBase 5)
             [fold 2; stretch 3; fold 1] 2 2 0 1 1 c); [reflexivity | exact E | lia..].
  - vm_compute in E. discriminate E.
Defined.

Lemma valueFromAngle_in_range_witness :
  let r := Knob.valueFromAngle 0 720 10 33 in
  r = PrimFloat.nan \/ (le64 0 r /\ le64 r 720).
Proof.
  apply (valueFromAngle_in_range 0 720 10 33). vm_compute. reflexivity.
Defined.

Lemma twist_knob_round_trip_witness :
  let v := Binary64.of_nat (10 * 9) in
  Knob.valueFromAngle 0 720 10 (Knob.angleFromValue 0 720 v) = v.
Proof. apply (twist_knob_round_trip 9). lia. Defined.

Lemma twist_degrees_round_trip_witness :
  degrees_shown (turns_of_degrees (Binary64.of_nat 45)) = Binary64.of_nat 45.
Proof. apply (twist_degrees_round_trip 45). lia. Defined.

Lemma decode_rejects_foreign_characters_witness :
  Share.decode (parse_only ladder_recipe) (Web.of_string "eyJs-YXll") = None.
Proof.
  apply (LinkFacts.decode_rejects_foreign_characters (parse_only ladder_recipe)
           (Web.of_string "eyJs-YXll") 45%N).
  - vm_compute. do 4 apply list_elem_of_further. apply list_elem_of_here.
  - reflexivity.
  - reflexivity.
Defined.

Lemma link_with_more_parameters_witness :
  exists search,
    Share.share_search ladder_recipe = Some search
    /\ Share.recipe_from_search (parse_only ladder_recipe)
         (search ++ 38%N :: Web.of_string "utm_source=forum") = Some ladder_recipe.
Proof.
  apply (LinkFacts.link_with_more_parameters (parse_only ladder_recipe)
           ladder_recipe (Web.of_string "utm_source=forum")).
  vm_compute. reflexivity.
Defined.
